(** * Audio Extractor: a shallow embedding of [Extractor.py]

    The development follows the layout of the Python module: string and
    path helpers of the Python runtime that the module relies on, the
    FFmpeg helpers ([run_cmd], [detect_audio_codec], [pick_copy_extension],
    [build_ffmpeg_cmd]), the worker logic ([make_out_path], [process_one])
    and the batch dispatcher ([App._run_batch]).

    Python values are represented as follows.
    - [str] is [string]; characters are the code points below 256.
    - [int] is [Z]; [Optional[int]] is [option Z].
    - [pathlib.Path] is the record [Path] (POSIX flavour: a root and the
      list of components), with the pure-path operations the module uses as
      CPython 3.8 to 3.12 define them.
    - the dict of [pick_copy_extension] is a [gmap string string].
    - a raised [Exception] is a value of [exn]; a computation that may raise
      and that talks to the operating system is a function in the monad [M],
      which threads the log of system calls made so far. *)

From Stdlib Require Import ZArith DecimalString Ascii String List.
From stdpp Require Import gmap strings list.

Open Scope string_scope.
Open Scope list_scope.
Open Scope Z_scope.

(** ** Python [str] helpers *)

Module PyStr.

(** [str(n)] for an [int]. *)
Definition str_of_int (n : Z) : string := NilZero.string_of_int (Z.to_int n).

Definition code (c : ascii) : N := N_of_ascii c.

(** [c.isspace()] on the code points below 256. *)
Definition is_space (c : ascii) : bool :=
  let n := code c in
  ((9 <=? n) && (n <=? 13) || (28 <=? n) && (n <=? 32)
   || (n =? 133) || (n =? 160))%N.

(** The line boundaries recognised by [str.splitlines]. *)
Definition is_linebreak (c : ascii) : bool :=
  let n := code c in
  ((10 <=? n) && (n <=? 13) || (28 <=? n) && (n <=? 30) || (n =? 133))%N.

Fixpoint lstrip (s : string) : string :=
  match s with
  | String c r => if is_space c then lstrip r else s
  | EmptyString => EmptyString
  end.

Definition rstrip (s : string) : string := String.rev (lstrip (String.rev s)).

(** [s.strip()] *)
Definition strip (s : string) : string := rstrip (lstrip s).

(** [s.splitlines()]: a carriage return directly followed by a line feed
    is one boundary; no empty last line is produced. *)
Fixpoint splitlines (s : string) : list string :=
  match s with
  | EmptyString => []
  | String c r =>
      if is_linebreak c then
        EmptyString ::
          splitlines (if (code c =? 13)%N
                      then match r with
                           | String c2 r2 => if (code c2 =? 10)%N then r2 else r
                           | EmptyString => r
                           end
                      else r)
      else match splitlines r with
           | [] => [String c EmptyString]
           | h :: t => String c h :: t
           end
  end.

(** [sep.join(l)] *)
Definition join (sep : string) (l : list string) : string := String.concat sep l.

(** [s.rfind(".")], [None] standing for [-1]. *)
Fixpoint rfind_dot (s : string) : option nat :=
  match s with
  | EmptyString => None
  | String c r =>
      match rfind_dot r with
      | Some i => Some (S i)
      | None => if Ascii.eqb c "." then Some 0%nat else None
      end
  end.

(** [ch in s] *)
Fixpoint contains (ch : ascii) (s : string) : bool :=
  match s with
  | EmptyString => false
  | String c r => Ascii.eqb c ch || contains ch r
  end.

(** [s.split("/")] *)
Fixpoint split_slash (s : string) : list string :=
  match s with
  | EmptyString => [EmptyString]
  | String c r =>
      if Ascii.eqb c "/" then EmptyString :: split_slash r
      else match split_slash r with
           | [] => [String c EmptyString]
           | h :: t => String c h :: t
           end
  end.

(** [s[:i]] and [s[i:]] for [0 <= i]. *)
Definition take (i : nat) (s : string) : string := String.substring 0 i s.
Definition drop (i : nat) (s : string) : string :=
  String.substring i (String.length s - i) s.

(** [x or d] for an [Optional[str]]: [None] and the empty string are
    falsy. *)
Definition or_else (x : option string) (d : string) : string :=
  match x with
  | Some (String c r) => String c r
  | _ => d
  end.

End PyStr.

(** ** [pathlib], POSIX flavour *)

(** Exceptions, the instances of [Exception] that the library calls of the
    module raise: the class name and [str(e)]. *)
Inductive exn : Type := Exn (cls : string) (text : string).

Definition exn_text (e : exn) : string := match e with Exn _ t => t end.

(** The outcome of a call that may raise. *)
Inductive outcome (A : Type) : Type :=
| Returned (a : A)
| Raised (e : exn).
Arguments Returned {A} a.
Arguments Raised {A} e.

Module PurePath.
Import PyStr.

(** [root] is empty for a relative path; [parts] are the components after
    the root. Components produced by the parser are never empty, never
    ["."] and hold no slash. *)
Record Path : Type := mkPath { root : string; parts : list string }.

(** [p.name] *)
Definition name (p : Path) : string := List.last (parts p) EmptyString.

(** The suffix of a final component: [i = name.rfind('.')], and the suffix
    is [name[i:]] when [0 < i < len(name) - 1]. *)
Definition suffix_of (nm : string) : string :=
  match rfind_dot nm with
  | Some i =>
      if (0 <? i)%nat && (i <? String.length nm - 1)%nat
      then drop i nm else EmptyString
  | None => EmptyString
  end.

(** The stem of a final component. *)
Definition stem_of (nm : string) : string :=
  match rfind_dot nm with
  | Some i =>
      if (0 <? i)%nat && (i <? String.length nm - 1)%nat
      then take i nm else nm
  | None => nm
  end.

(** [p.suffix] and [p.stem] *)
Definition suffix (p : Path) : string := suffix_of (name p).
Definition stem (p : Path) : string := stem_of (name p).

(** [str(p)] *)
Definition path_str (p : Path) : string :=
  match root p, parts p with
  | EmptyString, [] => "."
  | r, ps => r +:+ join "/" ps
  end.

(** [repr(s)] of a string without quotes or escapes, and [repr(p)] of a
    path. *)
Definition repr_str (s : string) : string := "'" +:+ s +:+ "'".
Definition repr_path (p : Path) : string := "PosixPath(" +:+ repr_str (path_str p) +:+ ")".

(** [p.with_suffix(sfx)] *)
Definition with_suffix (p : Path) (sfx : string) : outcome Path :=
  if contains "/" sfx
  then Raised (Exn "ValueError" ("Invalid suffix " +:+ repr_str sfx))
  else if match sfx with
          | EmptyString => false
          | String c r => negb (Ascii.eqb c ".") || String.eqb sfx "."
          end
  then Raised (Exn "ValueError" ("Invalid suffix " +:+ repr_str sfx))
  else
    match name p with
    | EmptyString =>
        Raised (Exn "ValueError" (repr_path p +:+ " has an empty name"))
    | nm =>
        Returned (mkPath (root p) (List.removelast (parts p) ++ [stem_of nm +:+ sfx]))
    end.

(** The root followed by the components, as compared by [relative_to]. *)
Definition abs_parts (p : Path) : list string :=
  match root p with
  | EmptyString => parts p
  | r => r :: parts p
  end.

Fixpoint strip_prefix (pre l : list string) : option (list string) :=
  match pre, l with
  | [], _ => Some l
  | a :: pre', b :: l' => if String.eqb a b then strip_prefix pre' l' else None
  | _ :: _, [] => None
  end.

(** [p.relative_to(other)] *)
Definition relative_to (p other : Path) : outcome Path :=
  let err := Exn "ValueError"
               (repr_str (path_str p) +:+ " is not in the subpath of "
                +:+ repr_str (path_str other)
                +:+ " OR one path is relative and the other is absolute.") in
  match abs_parts other with
  | [] => match root p with
          | EmptyString => Returned p
          | _ => Raised err
          end
  | to_parts =>
      match strip_prefix to_parts (abs_parts p) with
      | Some rest => Returned (mkPath EmptyString rest)
      | None => Raised err
      end
  end.

(** [p.parent] *)
Definition parent (p : Path) : Path := mkPath (root p) (List.removelast (parts p)).

Fixpoint leading_slashes (s : string) : nat :=
  match s with
  | String c r => if Ascii.eqb c "/" then S (leading_slashes r) else 0%nat
  | EmptyString => 0%nat
  end.

(** [Path(s)]: exactly two leading slashes are kept as the root, any other
    number collapses to one; empty and ["."] components are dropped. *)
Definition of_str (s : string) : Path :=
  let r := match leading_slashes s with
           | 0%nat => EmptyString
           | 2%nat => "//"
           | _ => "/"
           end in
  mkPath r (List.filter
              (fun c => negb (String.eqb c EmptyString || String.eqb c "."))
              (split_slash s)).

(** [a / b]. The operand goes through the parser once more. Its components
    before the last come from the parser, which leaves them as they are; the
    last one may have been written by [with_suffix], which does not parse
    (["."] for a name like ["..mp4"] and the empty suffix), so it is parsed
    again and dropped when it is ["."]. An operand with a root replaces
    [a]. *)
Definition joinpath (a b : Path) : Path :=
  let tail := List.removelast (parts b)
              ++ parts (of_str (List.last (parts b) EmptyString)) in
  match root b with
  | EmptyString => mkPath (root a) (parts a ++ tail)
  | r => mkPath r tail
  end.

(** What the parser makes of a list of components: each one is split at its
    slashes, and the empty and the ["."] pieces are dropped. *)
Definition reparse (ps : list string) : list string :=
  flat_map (fun c => parts (of_str c)) ps.

End PurePath.
Export PurePath.

(** ** The operating system as seen by one worker *)

(** The two kinds of system call the module makes. *)
Inductive Call : Type :=
| Spawn (cmd : list string)
| Mkdir (dir : Path).

(** What the system answers: [popen cmd] is the outcome of
    [subprocess.Popen(cmd, ...)] followed by [communicate()], that is the
    return code, the standard output and the standard error, or the exception
    raised (the program is not on the search path, ...); [mkdir_p dir] is the
    outcome of [dir.mkdir(parents=True, exist_ok=True)]. *)
Record World : Type := {
  popen : list string -> outcome (Z * string * string);
  mkdir_p : Path -> outcome unit;
}.

(** A computation that may raise and that appends its system calls to the
    log. *)
Definition M (A : Type) : Type := list Call -> outcome A * list Call.

#[global] Instance M_ret : MRet M := fun A (a : A) log => (Returned a, log).

#[global] Instance M_bind : MBind M := fun A B (k : A -> M B) (m : M A) log =>
  match m log with
  | (Returned a, log') => k a log'
  | (Raised e, log') => (Raised e, log')
  end.

(** [try: body  except Exception as e: handler(e)] *)
Definition try_except {A} (body : M A) (handler : exn -> M A) : M A :=
  fun log =>
    match body log with
    | (Returned a, log') => (Returned a, log')
    | (Raised e, log') => handler e log'
    end.

(** A pure call that may raise. *)
Definition lift {A} (o : outcome A) : M A := fun log => (o, log).

(** A Task Result: [(src, success, msg)]. *)
Definition TaskResult : Type := Path * bool * string.

(** ** FFmpeg helpers *)

(** The dict literal of [pick_copy_extension]. *)
Definition mapping : gmap string string :=
  <["aac" := ".m4a"]> (<["mp3" := ".mp3"]> (<["ac3" := ".ac3"]>
  (<["eac3" := ".eac3"]> (<["dts" := ".dts"]> (<["opus" := ".opus"]>
  (<["vorbis" := ".ogg"]> (<["flac" := ".flac"]> (<["pcm_s16le" := ".wav"]>
  (<["truehd" := ".thd"]> ∅))))))))).

(** [mapping.get(codec, ".m4a")] *)
Definition pick_copy_extension (codec : string) : string :=
  default ".m4a" (mapping !! codec).

(** [if x:] for an [Optional[int]]: the value when it is neither [None] nor
    zero. *)
Definition truthy (x : option Z) : option Z :=
  match x with
  | Some n => if n =? 0 then None else Some n
  | None => None
  end.

Definition build_ffmpeg_cmd (src dst : Path) (mode stream_selector : string)
    (loudnorm : bool) (sample_rate bitrate_k : option Z) (use_gpu : bool)
  : list string :=
  let base := ["ffmpeg"; "-y"] in
  let base := if use_gpu then base ++ ["-hwaccel"; "cuda"] else base in
  let base := base ++ ["-i"; path_str src; "-vn"; "-sn"; "-dn";
                       "-map"; "0:" +:+ stream_selector] in
  let af := if loudnorm then ["loudnorm=I=-16:TP=-1.5:LRA=11"] else [] in
  let ar := match truthy sample_rate with
            | Some sr => ["-ar"; PyStr.str_of_int sr]
            | None => []
            end in
  let base :=
    if String.eqb mode "COPY" then base ++ ["-c:a"; "copy"]
    else if String.eqb mode "MP3" then
      (base ++ ["-c:a"; "libmp3lame"])
        ++ match truthy bitrate_k with
           | Some b => ["-b:a"; PyStr.str_of_int b +:+ "k"]
           | None => []
           end
        ++ ar
    else if String.eqb mode "AAC" then
      (base ++ ["-c:a"; "aac"])
        ++ match truthy bitrate_k with
           | Some b => ["-b:a"; PyStr.str_of_int b +:+ "k"]
           | None => ["-q:a"; "2"]
           end
        ++ ar
    else if String.eqb mode "WAV" then
      (base ++ ["-c:a"; "pcm_s16le"; "-ac"; "2"]) ++ ar
    else base in
  let base := match af with
              | [] => base
              | _ => base ++ ["-af"; PyStr.join "," af]
              end in
  base ++ [path_str dst].

(** The stream selectors built by [App.start]: by index and by language. *)
Definition selector_by_index (idx : Z) : string := "a:" +:+ PyStr.str_of_int idx.
Definition selector_by_language (lang : string) : string := "a:m:language:" +:+ lang.

Section Worker.

Variable w : World.

Definition run_cmd (cmd : list string) : M (Z * string * string) :=
  fun log => (popen w cmd, log ++ [Spawn cmd]).

Definition mkdir_parents (dir : Path) : M unit :=
  fun log => (mkdir_p w dir, log ++ [Mkdir dir]).

(** The command line of the probe. *)
Definition probe_cmd (file : Path) (stream_selector : string) : list string :=
  ["ffprobe"; "-v"; "error";
   "-select_streams"; stream_selector;
   "-show_entries"; "stream=codec_name";
   "-of"; "default=noprint_wrappers=1:nokey=1";
   path_str file].

(** [None] stands for the absent codec. *)
Definition detect_audio_codec (file : Path) (stream_selector : string)
  : M (option string) :=
  let cmd := probe_cmd file stream_selector in
  '(code, out, _) ← run_cmd cmd;
  if code =? 0 then
    match PyStr.splitlines (PyStr.strip out) with
    | first :: _ => mret (Some (PyStr.strip first))
    | [] => mret None
    end
  else mret None.

(** ** Worker logic *)

Definition make_out_path (src input_root output_root : Path)
    (preserve_tree : bool) (mode stream_selector : string) : M Path :=
  stem ← (if preserve_tree then
             rel ← lift (relative_to src input_root);
             lift (with_suffix rel EmptyString)
           else mret (of_str (PurePath.stem src)));
  ext ← (if String.eqb mode "COPY" then
            codec ← detect_audio_codec src stream_selector;
            mret (pick_copy_extension (PyStr.or_else codec "aac"))
          else if String.eqb mode "MP3" then mret ".mp3"
          else if String.eqb mode "AAC" then mret ".m4a"
          else mret ".wav");
  out_path ← lift (with_suffix (joinpath output_root stem) ext);
  _ ← mkdir_parents (parent out_path);
  mret out_path.

Definition process_one (src input_root output_root : Path)
    (preserve_tree : bool) (mode stream_selector : string) (loudnorm : bool)
    (sample_rate bitrate_k : option Z) (use_gpu : bool) : M TaskResult :=
  try_except
    (dst ← make_out_path src input_root output_root preserve_tree
                          mode stream_selector;
     let cmd := build_ffmpeg_cmd src dst mode stream_selector loudnorm
                                 sample_rate bitrate_k use_gpu in
     '(code, _, err) ← run_cmd cmd;
     if negb (code =? 0) then mret (src, false, PyStr.strip err)
     else mret (src, true, path_str dst))
    (fun e => mret (src, false, exn_text e)).

End Worker.

(** ** The batch dispatcher: [App._run_batch] *)

(** The [args] dict built by [App.start]. *)
Record Args : Type := {
  input_root : Path;
  output_root : Path;
  preserve_tree : bool;
  mode : string;
  stream_selector : string;
  loudnorm : bool;
  sample_rate : option Z;
  bitrate_k : option Z;
  use_gpu : bool;
}.

(** The closure [task] of [_run_batch]; [stop_is_set] is the value of
    [self.stop_event.is_set()] when the worker starts the task. *)
Definition task (w : World) (stop_is_set : bool) (args : Args) (f : Path)
  : M TaskResult :=
  if stop_is_set then mret (f, false, "Dibatalkan.")
  else process_one w f (input_root args) (output_root args)
         (preserve_tree args) (mode args) (stream_selector args)
         (loudnorm args) (sample_rate args) (bitrate_k args) (use_gpu args).

(** What [log], [set_status] and [set_progress] put on [ui_queue]. *)
Inductive UiEvent : Type :=
| UiLog (text : string)
| UiStatus (text : string)
| UiProgress (value total : Z).

(** Where the dispatcher thread is: in the [for fut in as_completed] loop,
    leaving the [with] block (the executor joins its workers), or past the
    [finally] block. *)
Inductive Phase : Type := Looping | Joining | Finished.

(** The state of one batch. [pending] are the submitted files no worker has
    picked up yet, in submission order; [running] the futures a worker is
    executing, each with the outcome its task will have; [completed] the
    finished futures [as_completed] has not handed out yet, in completion
    order; [delivered] the values bound by [src, success, msg = fut.result()]
    so far. The flag is read when a task starts, and the world the task meets
    decides the rest, so the outcome of a task is known from its start; its
    system calls are entered in [syscalls] then. *)
Record Batch : Type := mkBatch {
  stop_event : bool;
  pending : list Path;
  running : list (outcome TaskResult);
  completed : list (outcome TaskResult);
  done : Z;
  ok_count : Z;
  fail_count : Z;
  delivered : list TaskResult;
  ui_queue : list UiEvent;
  syscalls : list Call;
  phase : Phase;
}.

(** The moves of the environment and of the threads: the user presses
    Cancel; a free worker starts the next pending task (in the world [w] it
    meets); the [k]-th running task finishes; the dispatcher thread makes one
    turn of its loop; the dispatcher thread runs the [finally] block. *)
Inductive Choice : Type :=
| CancelPressed
| TaskStarts (w : World)
| TaskEnds (k : nat)
| LoopTurn
| FinallyBlock.

Definition is_cancel (c : Choice) : bool :=
  match c with CancelPressed => true | _ => false end.

Section RunBatch.

Variable args : Args.
Variable workers : Z.
Variable files : list Path.

Definition total : Z := Z.of_nat (length files).

(** The state after [futures = [ex.submit(task, f) for f in files]];
    [ThreadPoolExecutor] raises [ValueError] for a worker count below 1,
    which the [except] clause logs. *)
Definition init : Batch :=
  if workers <=? 0 then
    mkBatch false [] [] [] 0 0 0 []
      [UiLog ("[ERROR] " +:+ "max_workers must be greater than 0")] [] Joining
  else mkBatch false files [] [] 0 0 0 [] [] [] Looping.

(** The body of the loop for a result [(src, success, msg)]. *)
Definition handle_result (st : Batch) (r : TaskResult) (rest : list (outcome TaskResult))
  : Batch :=
  let '(src, success, msg) := r in
  let done' := done st + 1 in
  let ok' := if success then ok_count st + 1 else ok_count st in
  let fail' := if success then fail_count st else fail_count st + 1 in
  let line := if success then "[OK] " +:+ name src +:+ " -> " +:+ msg
              else "[FAIL] " +:+ name src +:+ " :: " +:+ msg in
  mkBatch (stop_event st) (pending st) (running st) rest
    done' ok' fail' (delivered st ++ [r])
    (ui_queue st ++
       [UiLog line;
        UiProgress done' total;
        UiStatus ("Proses: " +:+ PyStr.str_of_int done' +:+ "/" +:+ PyStr.str_of_int total
                  +:+ " | OK: " +:+ PyStr.str_of_int ok'
                  +:+ " | Gagal: " +:+ PyStr.str_of_int fail')])
    (syscalls st) (phase st).

(** The events of the [finally] block. *)
Definition summary (st : Batch) : list UiEvent :=
  if stop_event st then
    [UiStatus ("Dibatalkan. OK: " +:+ PyStr.str_of_int (ok_count st)
               +:+ ", Gagal: " +:+ PyStr.str_of_int (fail_count st));
     UiLog "== Dibatalkan =="]
  else
    [UiStatus ("Selesai. OK: " +:+ PyStr.str_of_int (ok_count st)
               +:+ ", Gagal: " +:+ PyStr.str_of_int (fail_count st));
     UiLog "== Selesai =="].

Definition leave_loop (st : Batch) (rest : list (outcome TaskResult))
    (logged : list UiEvent) : Batch :=
  mkBatch (stop_event st) (pending st) (running st) rest
    (done st) (ok_count st) (fail_count st) (delivered st)
    (ui_queue st ++ logged) (syscalls st) Joining.

(** One move; [None] when the move is not possible in [st]. *)
Definition step (st : Batch) (c : Choice) : option Batch :=
  match c with
  | CancelPressed =>
      Some (mkBatch true (pending st) (running st) (completed st)
              (done st) (ok_count st) (fail_count st) (delivered st)
              (ui_queue st) (syscalls st) (phase st))
  | TaskStarts w =>
      match pending st with
      | f :: rest =>
          if Z.of_nat (length (running st)) <? workers then
            let '(r, log') := task w (stop_event st) args f (syscalls st) in
            Some (mkBatch (stop_event st) rest (running st ++ [r]) (completed st)
                    (done st) (ok_count st) (fail_count st) (delivered st)
                    (ui_queue st) log' (phase st))
          else None
      | [] => None
      end
  | TaskEnds k =>
      match running st !! k with
      | Some r =>
          Some (mkBatch (stop_event st) (pending st) (delete k (running st))
                  (completed st ++ [r])
                  (done st) (ok_count st) (fail_count st) (delivered st)
                  (ui_queue st) (syscalls st) (phase st))
      | None => None
      end
  | LoopTurn =>
      match phase st with
      | Looping =>
          match completed st with
          | fut :: rest =>
              if stop_event st then Some (leave_loop st rest [])
              else match fut with
                   | Returned r => Some (handle_result st r rest)
                   | Raised e =>
                       Some (leave_loop st rest [UiLog ("[ERROR] " +:+ exn_text e)])
                   end
          | [] =>
              match pending st, running st with
              | [], [] => Some (leave_loop st [] [])
              | _, _ => None
              end
          end
      | _ => None
      end
  | FinallyBlock =>
      match phase st, pending st, running st with
      | Joining, [], [] =>
          Some (mkBatch (stop_event st) [] [] (completed st)
                  (done st) (ok_count st) (fail_count st) (delivered st)
                  (ui_queue st ++ summary st) (syscalls st) Finished)
      | _, _, _ => None
      end
  end.

(** A schedule played from a state. *)
Fixpoint exec (st : Batch) (cs : list Choice) : option Batch :=
  match cs with
  | [] => Some st
  | c :: cs' =>
      match step st c with
      | Some st' => exec st' cs'
      | None => None
      end
  end.

(** [_run_batch(files, args, workers)] under the schedule [cs]. *)
Definition _run_batch (cs : list Choice) : option Batch := exec init cs.

(** The schedule in which the tasks run one after the other and nobody
    cancels, each task in the world [w]. *)
Definition sequential (w : World) : list Choice :=
  concat (map (fun _ => [TaskStarts w; TaskEnds 0%nat; LoopTurn]) files) ++ [LoopTurn; FinallyBlock].

End RunBatch.

(** ** Reading an argument list *)

(** The arguments that directly follow an occurrence of the option [opt]. *)
Fixpoint option_values (opt : string) (cmd : list string) : list string :=
  match cmd with
  | a :: tl =>
      match tl with
      | b :: _ => (if String.eqb a opt then [b] else []) ++ option_values opt tl
      | [] => []
      end
  | [] => []
  end.

Definition is_digit (c : ascii) : bool :=
  ((48 <=? PyStr.code c) && (PyStr.code c <=? 57))%N.

(** The string starts like a decimal numeral: a digit, or a minus sign and a
    digit. *)
Definition numeric_head (s : string) : bool :=
  match s with
  | String c r =>
      is_digit c
      || Ascii.eqb c "-" && match r with
                            | String d _ => is_digit d
                            | EmptyString => false
                            end
  | EmptyString => false
  end.

(** ** Notions used in the statements *)

(** The test [with_suffix] makes on its argument before it builds a path. *)
Definition valid_suffix (sfx : string) : bool :=
  negb (PyStr.contains "/" sfx)
  && match sfx with
     | EmptyString => true
     | String c r => Ascii.eqb c "." && negb (String.eqb sfx ".")
     end.

(** The progress events of a queue, as [(value, total)]. *)
Definition progress_events (q : list UiEvent) : list (Z * Z) :=
  omap (fun ev => match ev with UiProgress v t => Some (v, t) | _ => None end) q.

(** The sources of the futures that hold a result. *)
Definition future_sources (l : list (outcome TaskResult)) : list Path :=
  omap (fun o => match o with Returned r => Some r.1.1 | Raised _ => None end) l.

Definition holds_result (o : outcome TaskResult) : Prop :=
  match o with Returned _ => True | Raised _ => False end.

(** What is left to do in a batch: a pending task will start, finish and be
    looked at; the dispatcher thread still has to leave its loop and to run
    its [finally] block. *)
Definition work_left (st : Batch) : nat :=
  (3 * length (pending st) + 2 * length (running st) + length (completed st)
   + match phase st with Looping => 2 | Joining => 1 | Finished => 0 end)%nat.

(** ** Worlds and batches to run the definitions on *)

(** A world in which every program exits with code 0 and prints nothing. *)
Definition quiet_world : World :=
  {| popen := fun _ => Returned (0, EmptyString, EmptyString);
     mkdir_p := fun _ => Returned tt |}.

(** A world without the external tools on the search path. *)
Definition no_tools_world : World :=
  {| popen := fun _ =>
       Raised (Exn "FileNotFoundError" "[Errno 2] No such file or directory: 'ffmpeg'");
     mkdir_p := fun _ => Returned tt |}.

(** A world in which every program fails with exit code 1. *)
Definition failing_probe_world : World :=
  {| popen := fun _ =>
       Returned (1, EmptyString, "a.mkv: Invalid data found when processing input");
     mkdir_p := fun _ => Returned tt |}.

(** The extension [make_out_path] chooses, [codec] being what the probe
    found (it matters in mode COPY only). *)
Definition extension_for (mode : string) (codec : option string) : string :=
  if String.eqb mode "COPY" then pick_copy_extension (PyStr.or_else codec "aac")
  else if String.eqb mode "MP3" then ".mp3"
  else if String.eqb mode "AAC" then ".m4a"
  else ".wav".

(** Every program can be spawned and every directory can be created. *)
Definition well_behaved (w : World) : Prop :=
  (forall cmd, exists r, popen w cmd = Returned r)
  /\ (forall d, mkdir_p w d = Returned tt).

(** The source of a Task Result. *)
Definition src_of (r : TaskResult) : Path := r.1.1.

(** Nobody presses Cancel in the schedule. *)
Definition no_cancel (cs : list Choice) : bool :=
  forallb (fun c => negb (is_cancel c)) cs.

(** What holds of every state of a batch over [files]: no future holds an
    exception, the counters agree with the results handed out, and no file is
    accounted for twice. *)
Record consistent (files : list Path) (st : Batch) : Prop := {
  running_ok : Forall holds_result (running st);
  completed_ok : Forall holds_result (completed st);
  done_split : done st = ok_count st + fail_count st;
  done_count : done st = Z.of_nat (length (delivered st));
  ok_nonneg : 0 <= ok_count st;
  fail_nonneg : 0 <= fail_count st;
  nothing_twice :
    (length (delivered st) + length (completed st) + length (running st)
     + length (pending st) <= length files)%nat;
  progress_count : length (progress_events (ui_queue st)) = length (delivered st);
}.

(** What holds as long as nobody has cancelled: every file is in exactly one
    place, and once the loop is left every file has been handed out. *)
Record undisturbed (files : list Path) (st : Batch) : Prop := {
  not_stopped : stop_event st = false;
  each_file_once :
    match phase st with
    | Looping =>
        map src_of (delivered st) ++ future_sources (completed st)
          ++ future_sources (running st) ++ pending st ≡ₚ files
    | _ => map src_of (delivered st) ≡ₚ files
    end;
}.



(** The batch of the end-to-end scenario: three files, mode MP3 at 192 kbps,
    the tree preserved. *)
Definition example_args : Args :=
  {| input_root := of_str "/in"; output_root := of_str "/out";
     preserve_tree := true; mode := "MP3"; stream_selector := "a:0";
     loudnorm := false; sample_rate := None; bitrate_k := Some 192;
     use_gpu := false |}.

Definition example_files : list Path :=
  [of_str "/in/a.mp4"; of_str "/in/b.mp4"; of_str "/in/c.mp4"].



(** ** The rest of the module

    The parts of [Extractor.py] around the worker and the dispatcher: the
    tool check ([ff_tools_ok]), the scan of the input directory
    ([scan_files], on a directory tree given as a value), the reading of the
    queue into the window ([App._after_poll]), the search for a bundled file
    ([resource_path]), the preset ([App.apply_preset_music_gpu]) and the
    start of a batch ([App.start], with [int] on strings as the form gives
    them). Tk variables are the fields of the record [Form], the widgets the
    fields of [Widgets]; what [start] asks of the file system is the record
    [Disk]. *)

(** ** The tool check: [ff_tools_ok] *)

(** The loop [for tool in tools] of [ff_tools_ok]: the first tool whose
    [-version] run does not exit with 0 ends it. *)
Fixpoint check_tools (w : World) (tools : list string) : M (bool * string) :=
  match tools with
  | [] => mret (true, EmptyString)
  | tool :: rest =>
      '(code, _, _) ← run_cmd w [tool; "-version"];
      if negb (code =? 0) then mret (false, tool +:+ " tidak ditemukan di PATH.")
      else check_tools w rest
  end.

Definition ff_tools_ok (w : World) : M (bool * string) :=
  check_tools w ["ffmpeg"; "ffprobe"].

(** ** Scanning the input directory: [scan_files] *)

(** [c.lower()] on the code points below 256: the letters A to Z and the
    capital letters of Latin-1 (192 to 222, the multiplication sign 215
    apart). *)
Definition lower_char (c : ascii) : ascii :=
  let n := PyStr.code c in
  if ((65 <=? n) && (n <=? 90) || (192 <=? n) && (n <=? 222) && negb (n =? 215))%N
  then ascii_of_N (n + 32) else c.

(** [s.lower()] *)
Fixpoint lower (s : string) : string :=
  match s with
  | String c r => String (lower_char c) (lower r)
  | EmptyString => EmptyString
  end.

Definition VIDEO_EXTS : gset string :=
  {[ ".mp4"; ".mkv"; ".mov"; ".avi"; ".webm"; ".m4v" ]}.

(** What a directory holds, symbolic links apart: regular files, other
    entries (sockets, devices, ...) and directories with their own entries,
    in the order the system lists them. Every directory can be read. *)
#[local] Unset Elimination Schemes.
Inductive Node : Type :=
| File (nm : string)
| Other (nm : string)
| Dir (nm : string) (entries : list Node).
#[local] Set Elimination Schemes.

Definition node_name (n : Node) : string :=
  match n with File nm | Other nm | Dir nm _ => nm end.

(** [p.is_file()] for the path [p] of the entry [n]. *)
Definition is_file (n : Node) : bool :=
  match n with File _ => true | _ => false end.

(** The path of the entry called [nm] of the directory [dir]: the name is
    appended to the components. *)
Definition make_child (dir : Path) (nm : string) : Path :=
  mkPath (root dir) (parts dir ++ [nm]).

(** [dir.glob("*")]: every entry of the directory (the pattern matches every
    name, also one that starts with a dot), each with its path. *)
Definition glob_star (dir : Path) (entries : list Node) : list (Path * Node) :=
  map (fun n => (make_child dir (node_name n), n)) entries.

(** What [rglob("*")] yields below the entry [n] of [dir]: when [n] is a
    directory its entries, then what lies below each of them in turn. *)
Fixpoint below (dir : Path) (n : Node) : list (Path * Node) :=
  match n with
  | Dir nm entries =>
      let d := make_child dir nm in
      glob_star d entries ++ flat_map (below d) entries
  | _ => []
  end.

(** [dir.rglob("*")] *)
Definition rglob_star (dir : Path) (entries : list Node) : list (Path * Node) :=
  glob_star dir entries ++ flat_map (below dir) entries.

(** The test of the two comprehensions of [scan_files]:
    [p.is_file() and p.suffix.lower() in VIDEO_EXTS]. *)
Definition is_video (pn : Path * Node) : bool :=
  is_file pn.2 && bool_decide (lower (PurePath.suffix pn.1) ∈ VIDEO_EXTS).

(** [scan_files(input_dir, recursive)], [entries] being what the directory
    [input_dir] holds. *)
Definition scan_files (entries : list Node) (input_dir : Path) (recursive : bool)
  : list Path :=
  if recursive then map fst (List.filter is_video (rglob_star input_dir entries))
  else map fst (List.filter is_video (glob_star input_dir entries)).

(** ** The window: [App._after_poll] *)

(** What the window shows: the text of the log widget, the status line and
    the two options of the progress bar. *)
Record Widgets : Type := mkWidgets {
  log_widget : string;
  status_var : string;
  progress_maximum : Z;
  progress_value : Z;
}.

(** The line feed. *)
Definition newline : string := String (ascii_of_nat 10) EmptyString.

(** The body of the loop of [_after_poll] for one item of the queue. *)
Definition show_event (w : Widgets) (ev : UiEvent) : Widgets :=
  match ev with
  | UiLog data =>
      mkWidgets (log_widget w +:+ data +:+ newline) (status_var w)
        (progress_maximum w) (progress_value w)
  | UiStatus data =>
      mkWidgets (log_widget w) data (progress_maximum w) (progress_value w)
  | UiProgress val tot =>
      mkWidgets (log_widget w) (status_var w) (Z.max 1 tot) val
  end.

(** [_after_poll]: the items are taken from the queue until it is empty,
    each one shown in turn; the result is the queue left and the window. *)
Definition _after_poll (q : list UiEvent) (w : Widgets) : list UiEvent * Widgets :=
  ([], fold_left show_event q w).

(** ** More notions used in the statements *)

(** The argument that follows the source path, when that path is itself
    spelled like the option [opt]. *)
Definition stray (src : Path) (opt : string) : list string :=
  if String.eqb (path_str src) opt then ["-vn"] else [].

(** The string holds a character that is not white space. *)
Fixpoint has_nonspace (s : string) : bool :=
  match s with
  | String c r => negb (PyStr.is_space c) || has_nonspace r
  | EmptyString => false
  end.

(** The string does not start with white space. *)
Definition head_ok (s : string) : bool :=
  match s with
  | String c _ => negb (PyStr.is_space c)
  | EmptyString => true
  end.

(** The path of the entry [nm] in the directories [dirs] below [dir]. *)
Definition file_under (dir : Path) (dirs : list string) (nm : string) : Path :=
  mkPath (root dir) (parts dir ++ dirs ++ [nm]).

(** The entry [n] lies in the directories [dirs] below a directory that
    holds [entries]. *)
Inductive located : list Node -> list string -> Node -> Prop :=
| located_here entries n : In n entries -> located entries [] n
| located_below entries nm sub dirs n :
    In (Dir nm sub) entries -> located sub dirs n -> located entries (nm :: dirs) n.

(** The log line of a result. *)
Definition result_line (r : TaskResult) : string :=
  let '(src, success, msg) := r in
  if success then "[OK] " +:+ name src +:+ " -> " +:+ msg
  else "[FAIL] " +:+ name src +:+ " :: " +:+ msg.

Definition succeeded (r : TaskResult) : bool := r.1.2.

(** How many of the results are successes, how many are failures. *)
Definition successes (rs : list TaskResult) : Z :=
  Z.of_nat (length (List.filter succeeded rs)).
Definition failures (rs : list TaskResult) : Z :=
  Z.of_nat (length (List.filter (fun r => negb (succeeded r)) rs)).

(** The three events of the [k]-th result ([k] from 1) of the list [rs] in a
    batch of [tot] files. *)
Definition events_at (tot : Z) (rs : list TaskResult) (k : nat) (r : TaskResult)
  : list UiEvent :=
  let seen := firstn k rs in
  [UiLog (result_line r);
   UiProgress (Z.of_nat k) tot;
   UiStatus ("Proses: " +:+ PyStr.str_of_int (Z.of_nat k) +:+ "/" +:+ PyStr.str_of_int tot
             +:+ " | OK: " +:+ PyStr.str_of_int (successes seen)
             +:+ " | Gagal: " +:+ PyStr.str_of_int (failures seen))].

(** The events of all the results of [rs], in order. *)
Definition render (tot : Z) (rs : list TaskResult) : list UiEvent :=
  concat (imap (fun i r => events_at tot rs (S i) r) rs).

(** The line logged for a worker count below 1. *)
Definition boot_events (workers : Z) : list UiEvent :=
  if workers <=? 0
  then [UiLog ("[ERROR] " +:+ "max_workers must be greater than 0")] else [].

(** The two events of the [finally] block after the results [rs]. *)
Definition closing_events (cancelled : bool) (rs : list TaskResult) : list UiEvent :=
  if cancelled then
    [UiStatus ("Dibatalkan. OK: " +:+ PyStr.str_of_int (successes rs)
               +:+ ", Gagal: " +:+ PyStr.str_of_int (failures rs));
     UiLog "== Dibatalkan =="]
  else
    [UiStatus ("Selesai. OK: " +:+ PyStr.str_of_int (successes rs)
               +:+ ", Gagal: " +:+ PyStr.str_of_int (failures rs));
     UiLog "== Selesai =="].

(** What the queue of a batch holds: the error of a bad worker count, the
    events of the results handed out, in order, and, once the batch is over,
    the summary; the two counters count these results. *)
Definition reported (workers : Z) (files : list Path) (st : Batch) : Prop :=
  ok_count st = successes (delivered st)
  /\ fail_count st = failures (delivered st)
  /\ exists tail,
       ui_queue st = boot_events workers ++ render (total files) (delivered st) ++ tail
       /\ match phase st with
          | Finished =>
              exists cancelled,
                tail = closing_events cancelled (delivered st)
                /\ (stop_event st = false -> cancelled = false)
          | _ => tail = []
          end.

(** The texts of the log events and of the status events of a queue. *)
Definition log_lines (q : list UiEvent) : list string :=
  omap (fun ev => match ev with UiLog text => Some text | _ => None end) q.
Definition statuses (q : list UiEvent) : list string :=
  omap (fun ev => match ev with UiStatus text => Some text | _ => None end) q.

(** The lines, each one ended by a line feed. *)
Fixpoint shown_text (lines : list string) : string :=
  match lines with
  | l :: rest => l +:+ newline +:+ shown_text rest
  | [] => EmptyString
  end.

(** Nothing is there to do and nothing has been done. *)
Definition idle (st : Batch) : Prop :=
  pending st = [] /\ running st = [] /\ completed st = [] /\ delivered st = []
  /\ syscalls st = [] /\ done st = 0 /\ phase st <> Looping.

(** Cancel is pressed in the schedule before the [finally] block runs. *)
Fixpoint cancelled_before_finally (cs : list Choice) : bool :=
  match cs with
  | [] => false
  | CancelPressed :: _ => true
  | FinallyBlock :: _ => false
  | _ :: cs' => cancelled_before_finally cs'
  end.

(** The command lines of a batch: the probe of one of its files, in mode
    COPY, and the FFmpeg run on one of its files. *)
Definition batch_command (args : Args) (files : list Path) (cmd : list string) : Prop :=
  exists f, In f files
    /\ ((cmd = probe_cmd f (stream_selector args) /\ mode args = "COPY")
        \/ exists dst,
             cmd = build_ffmpeg_cmd f dst (mode args) (stream_selector args)
                     (loudnorm args) (sample_rate args) (bitrate_k args) (use_gpu args)).

(** A world in which every program exits with code 0 and prints the codec
    name [flac] on a line. *)
Definition flac_world : World :=
  {| popen := fun _ => Returned (0, "flac" +:+ newline, EmptyString);
     mkdir_p := fun _ => Returned tt |}.

(** An input directory: two videos, one of them in a directory, and what is
    no video. *)
Definition example_tree : list Node :=
  [File "a.mp4"; Other "pipe";
   Dir "season1" [File "e1.MKV"; File "notes.txt"]; File ".mp4"].

(** ** Bundled resources: [resource_path] *)

(** [os.path.join(a, b)], POSIX flavour. *)
Definition path_join (a b : string) : string :=
  match b with
  | String "/" _ => b
  | _ =>
      match String.rev a with
      | EmptyString => b
      | String "/" _ => a +:+ b
      | _ => a +:+ "/" +:+ b
      end
  end.

(** [if base:] for an [Optional[str]]: the value when it is neither [None]
    nor the empty string. *)
Definition nonempty (x : option string) : option string :=
  match x with
  | Some (String c r) => Some (String c r)
  | _ => None
  end.

(** The loop [for base in candidates] of [resource_path]. *)
Fixpoint first_existing (exists_ : string -> bool) (fname : string)
    (candidates : list (option string)) : option string :=
  match candidates with
  | base :: rest =>
      match nonempty base with
      | Some b =>
          if exists_ (path_join b fname) then Some (path_join b fname)
          else first_existing exists_ fname rest
      | None => first_existing exists_ fname rest
      end
  | [] => None
  end.

(** [resource_path(fname)]. [frozen_dir] is the directory of the executable
    when the program is frozen, [nuitka_dir] the value of the environment
    variable [NUITKA_ONEFILE_TEMP_DIR], [meipass] the attribute
    [sys._MEIPASS], each one [None] when it is not there; [here] is the
    directory of the module and [exists_] the test [os.path.exists]. *)
Definition resource_path (frozen_dir nuitka_dir meipass : option string) (here : string)
    (exists_ : string -> bool) (fname : string) : string :=
  let candidates := [frozen_dir; nuitka_dir; meipass; Some here] in
  match first_existing exists_ fname candidates with
  | Some path => path
  | None => path_join here fname
  end.

(** ** The form and its preset *)

(** [DEFAULT_WORKERS], [cpu_count] being the value of [os.cpu_count()]. *)
Definition DEFAULT_WORKERS (cpu_count : option Z) : Z :=
  Z.max 2 (match truthy cpu_count with Some n => n | None => 4 end / 2).

(** The variables of the form. *)
Record Form : Type := mkForm {
  in_var : string;
  out_var : string;
  mode_var : string;
  recursive_var : bool;
  preserve_var : bool;
  gpu_var : bool;
  sel_mode_var : string;
  index_var : string;
  lang_var : string;
  loud_var : bool;
  sr_var : string;
  br_var : string;
  workers_var : string;
}.

(** [App.apply_preset_music_gpu]: the form and the queue after it. *)
Definition apply_preset_music_gpu (cpu_count : option Z) (f : Form) (q : list UiEvent)
  : Form * list UiEvent :=
  let target_workers := Z.min 6 (Z.max 4 (DEFAULT_WORKERS cpu_count)) in
  (mkForm (in_var f) (out_var f) "MP3" false (preserve_var f) true
     "index" "0" (lang_var f) true "44100" "320" (PyStr.str_of_int target_workers),
   q ++ [UiStatus "Preset 'Optimasi Lagu + GPU' diterapkan."]).

(** ** Reading a number: [int(s)] for a [str]

    As CPython 3.11 and 3.12 do it (and the releases of 3.8 to 3.10 that
    limit the number of digits), on the code points below 256. [None] stands
    for a [ValueError]. *)

(** [Py_ISSPACE], the white space of the C parser. *)
Definition is_c_space (c : ascii) : bool :=
  let n := PyStr.code c in ((9 <=? n) && (n <=? 13) || (n =? 32))%N.

Fixpoint is_ascii_str (s : string) : bool :=
  match s with
  | String c r => (PyStr.code c <? 128)%N && is_ascii_str r
  | EmptyString => true
  end.

(** What the parser is given for a string that is not ASCII: the characters
    below 127 as they are, a space for white space, and a question mark,
    which ends the text, for the first other character (no character from
    128 to 255 is a decimal digit). *)
Fixpoint to_ascii (s : string) : string :=
  match s with
  | String c r =>
      if (PyStr.code c <? 127)%N then String c (to_ascii r)
      else if PyStr.is_space c then String " " (to_ascii r)
      else "?"
  | EmptyString => EmptyString
  end.

Fixpoint skip_c_space (s : string) : string :=
  match s with
  | String c r => if is_c_space c then skip_c_space r else s
  | EmptyString => EmptyString
  end.

Definition digit_value (c : ascii) : Z := Z.of_N (PyStr.code c) - 48.

(** The digits and the underscores between them: the value read, the
    number of digits and what follows; [None] for two underscores in a row
    and for an underscore that no digit follows. [prev] tells that the
    character before is an underscore. *)
Fixpoint scan_digits (s : string) (prev : bool) (acc : Z) (digits : nat)
  : option (Z * nat * string) :=
  match s with
  | String c r =>
      if is_digit c then scan_digits r false (10 * acc + digit_value c) (S digits)
      else if Ascii.eqb c "_" then
        if prev then None else scan_digits r true acc digits
      else if prev then None else Some (acc, digits, s)
  | EmptyString => if prev then None else Some (acc, digits, EmptyString)
  end.

(** The most digits a string may hold. *)
Definition max_str_digits : nat := 4300.

(** The sign, if there is one, and the text after it. *)
Definition split_sign (text : string) : Z * string :=
  match text with
  | String "+" r => (1, r)
  | String "-" r => (-1, r)
  | _ => (1, text)
  end.

(** The number after the sign: it does not start with an underscore, has a
    digit, not more digits than allowed and nothing but white space after
    them. *)
Definition read_digits (text : string) : option Z :=
  match text with
  | String "_" _ => None
  | _ =>
      match scan_digits text false 0 0 with
      | Some (value, digits, rest) =>
          if (digits =? 0)%nat then None
          else if (max_str_digits <? digits)%nat then None
          else match skip_c_space rest with
               | EmptyString => Some value
               | _ => None
               end
      | None => None
      end
  end.

(** [int(s)] *)
Definition py_int (s : string) : option Z :=
  let text := skip_c_space (if is_ascii_str s then s else to_ascii s) in
  let '(sign, text) := split_sign text in
  option_map (Z.mul sign) (read_digits text).

(** ** Starting a batch: [App.start] *)

(** What [start] asks of the file system: the current directory,
    [Path.resolve], [Path.exists] and what a directory holds when it is
    scanned. *)
Record Disk : Type := {
  cwd : Path;
  resolve : Path -> Path;
  path_exists : Path -> bool;
  entries_of : Path -> list Node;
}.

(** How [start] ends: with a dialog ([showerror], [showinfo]), with the
    [ValueError] of a number that cannot be read and that nothing catches,
    or with the thread of the batch started, the window prepared: the files,
    the arguments, the worker count, the window and the queue. *)
Inductive Started : Type :=
| ErrorBox (msg : string)
| InfoBox (msg : string)
| ValueErrorRaised (literal : string)
| Launched (files : list Path) (args : Args) (workers : Z)
           (window : Widgets) (queue : list UiEvent).

(** [int(text) if text else None]; the outer [None] stands for the
    [ValueError] of [int]. *)
Definition optional_int (text : string) : option (option Z) :=
  match text with
  | EmptyString => Some None
  | _ => option_map Some (py_int text)
  end.

(** [x or d] for a [str]. *)
Definition str_or (x d : string) : string :=
  match x with EmptyString => d | _ => x end.

(** [App.start]. The states of the three buttons are left out; the flag
    that [start] clears is the one a batch starts with. *)
Definition start (w : World) (disk : Disk) (form : Form) (window : Widgets)
    (queue : list UiEvent) : M Started :=
  '(ok, msg) ← ff_tools_ok w;
  if negb ok then
    mret (ErrorBox (msg +:+ newline +:+ "Install FFmpeg dan pastikan PATH benar."))
  else
    let input_dir := resolve disk (of_str (str_or (in_var form) ".")) in
    let output_dir :=
      resolve disk (match out_var form with
                    | EmptyString => joinpath (cwd disk) (of_str "audio_out")
                    | s => of_str s
                    end) in
    let recursive := recursive_var form in
    let preserve := preserve_var form in
    let mode := mode_var form in
    match (if String.eqb (sel_mode_var form) "index" then
             match py_int (PyStr.strip (index_var form)) with
             | Some idx => Some (selector_by_index idx)
             | None => None
             end
           else
             Some (selector_by_language (str_or (PyStr.strip (lang_var form)) "eng")))
    with
    | None => mret (ErrorBox "Index audio harus angka.")
    | Some stream_selector =>
        let loud := loud_var form in
        let sr := PyStr.strip (sr_var form) in
        match optional_int sr with
        | None => mret (ValueErrorRaised sr)
        | Some sample_rate =>
            let br := PyStr.strip (br_var form) in
            match optional_int br with
            | None => mret (ValueErrorRaised br)
            | Some bitrate_k =>
                match py_int (PyStr.strip (workers_var form)) with
                | None => mret (ErrorBox "Workers harus angka.")
                | Some n =>
                    let workers := Z.max 1 n in
                    if negb (path_exists disk input_dir) then
                      mret (ErrorBox "Input folder tidak valid.")
                    else
                      _ ← mkdir_parents w output_dir;
                      let files := scan_files (entries_of disk input_dir) input_dir
                                     recursive in
                      match files with
                      | [] => mret (InfoBox "Tidak ada file video ditemukan.")
                      | _ =>
                          let total := Z.of_nat (length files) in
                          mret (Launched files
                                  {| input_root := input_dir;
                                     output_root := output_dir;
                                     preserve_tree := preserve;
                                     mode := mode;
                                     stream_selector := stream_selector;
                                     loudnorm := loud;
                                     sample_rate := sample_rate;
                                     bitrate_k := bitrate_k;
                                     use_gpu := gpu_var form |}
                                  workers
                                  (mkWidgets (log_widget window) (status_var window)
                                     total 0)
                                  (queue ++ [UiStatus ("Ditemukan "
                                                       +:+ PyStr.str_of_int total
                                                       +:+ " file. Memulai...")]))
                      end
                end
            end
        end
    end.

(** The number that the digits [d] spell after the digits of [acc]. *)
Fixpoint uint_value (d : Decimal.uint) (acc : Z) : Z :=
  match d with
  | Decimal.Nil => acc
  | Decimal.D0 l => uint_value l (10 * acc + 0)
  | Decimal.D1 l => uint_value l (10 * acc + 1)
  | Decimal.D2 l => uint_value l (10 * acc + 2)
  | Decimal.D3 l => uint_value l (10 * acc + 3)
  | Decimal.D4 l => uint_value l (10 * acc + 4)
  | Decimal.D5 l => uint_value l (10 * acc + 5)
  | Decimal.D6 l => uint_value l (10 * acc + 6)
  | Decimal.D7 l => uint_value l (10 * acc + 7)
  | Decimal.D8 l => uint_value l (10 * acc + 8)
  | Decimal.D9 l => uint_value l (10 * acc + 9)
  end.

(** No character of the string is white space. *)
Fixpoint all_visible (s : string) : bool :=
  match s with
  | String c r => negb (PyStr.is_space c) && all_visible r
  | EmptyString => true
  end.

(** A tree in which nothing is a video. *)
Definition no_video_tree : list Node := [File "notes.txt"; Dir "a.mp4" []].

(** The form as the window opens with three workers, the input directory
    filled in. *)
Definition example_form : Form :=
  mkForm "/in" EmptyString "COPY" true true false "index" "0" "eng" false
    EmptyString EmptyString "3".

(** A disk on which every path is resolved to itself and exists, and the
    directory [/in] holds [example_tree]. *)
Definition example_disk : Disk :=
  {| cwd := of_str "/home/user";
     resolve := fun p => p;
     path_exists := fun _ => true;
     entries_of := fun _ => example_tree |}.

(** The window as it opens. *)
Definition example_window : Widgets := mkWidgets EmptyString "Menunggu..." 100 0.

(** The two runs of the tool check. *)
Definition version_calls : list Call :=
  [Spawn ["ffmpeg"; "-version"]; Spawn ["ffprobe"; "-version"]].

(** The form with a sample rate that is no number. *)
Definition typo_form : Form :=
  mkForm "/in" EmptyString "MP3" true true false "index" "0" "eng" false
    "44.1k" EmptyString "3".

(** The file [fname] is not in the directory [base]. *)
Definition missing (exists_ : string -> bool) (fname base : string) : Prop :=
  exists_ (path_join base fname) = false.

(** No two entries of a directory have the same name, in the directory and
    in every directory below it. *)
Inductive distinct_names : list Node -> Prop :=
| distinct_names_intro entries :
    NoDup (map node_name entries) ->
    (forall nm sub, In (Dir nm sub) entries -> distinct_names sub) ->
    distinct_names entries.

(** * Properties *)

(** ** Strings *)

Section StringFacts.
Import PyStr.

Lemma append_cons c s t : String c s +:+ t = String c (s +:+ t).
Proof. reflexivity. Qed.

Lemma append_empty_r s : s +:+ EmptyString = s.
Proof. induction s as [|c s IH]; [reflexivity | now rewrite append_cons, IH]. Qed.

Lemma length_append s t :
  String.length (s +:+ t) = (String.length s + String.length t)%nat.
Proof.
  induction s as [|c s IH]; [reflexivity | rewrite append_cons; simpl; now rewrite IH].
Qed.

Lemma take_append s t : take (String.length s) (s +:+ t) = s.
Proof.
  unfold take. induction s as [|c s IH].
  - destruct t; reflexivity.
  - rewrite append_cons. simpl. now rewrite IH.
Qed.

Lemma take_nonempty i c s : (0 < i)%nat -> take i (String c s) <> EmptyString.
Proof. unfold take. destruct i; [lia | simpl; discriminate]. Qed.

Lemma contains_append ch s t :
  contains ch (s +:+ t) = contains ch s || contains ch t.
Proof.
  induction s as [|c s IH]; [reflexivity |].
  rewrite append_cons. simpl. rewrite IH. now rewrite orb_assoc.
Qed.

Lemma rfind_dot_none s : contains "." s = false -> rfind_dot s = None.
Proof.
  induction s as [|c s IH]; simpl; [reflexivity |].
  intros H. apply orb_false_elim in H as [Hc Hs]. now rewrite IH, Hc.
Qed.

Lemma rfind_dot_last p q :
  contains "." q = false -> rfind_dot (p +:+ String "." q) = Some (String.length p).
Proof.
  intros Hq. induction p as [|c p IH].
  - change (EmptyString +:+ String "." q) with (String "." q). simpl.
    now rewrite rfind_dot_none.
  - rewrite append_cons. simpl. now rewrite IH.
Qed.

Lemma split_slash_single s : contains "/" s = false -> split_slash s = [s].
Proof.
  induction s as [|c s IH]; simpl; [reflexivity |].
  intros H. apply orb_false_elim in H as [Hc Hs]. now rewrite Hc, IH.
Qed.

Lemma leading_slashes_none s : contains "/" s = false -> leading_slashes s = 0%nat.
Proof.
  destruct s as [|c s]; simpl; [reflexivity |].
  intros H. apply orb_false_elim in H as [-> _]. reflexivity.
Qed.

Lemma length_substring_tail s :
  forall i, String.length (substring i (String.length s - i) s) = (String.length s - i)%nat.
Proof.
  induction s as [|c s IH]; intros i; simpl.
  - destruct i; reflexivity.
  - destruct i as [|i]; simpl.
    + f_equal. specialize (IH 0%nat). rewrite Nat.sub_0_r in IH.
      destruct s; [reflexivity | exact IH].
    + apply IH.
Qed.

(** Decimal numerals never look like an option name. *)
Lemma string_of_uint_head d :
  exists c r, NilZero.string_of_uint d = String c r /\ is_digit c = true.
Proof. destruct d; simpl; eauto. Qed.

Lemma numeric_head_str_of_int n : numeric_head (str_of_int n) = true.
Proof.
  unfold str_of_int. destruct n as [|p|p]; simpl; [reflexivity | |].
  - destruct (string_of_uint_head (Pos.to_uint p)) as (c & r & -> & Hc).
    simpl. now rewrite Hc.
  - destruct (string_of_uint_head (Pos.to_uint p)) as (c & r & -> & Hc).
    now rewrite Hc.
Qed.

Lemma numeric_head_app s t : numeric_head s = true -> numeric_head (s +:+ t) = true.
Proof.
  destruct s as [|c [|d r]]; simpl; try discriminate; intros H.
  - rewrite andb_false_r, orb_false_r in H. now rewrite H.
  - exact H.
Qed.

Lemma str_of_int_eqb n o :
  numeric_head o = false -> String.eqb (str_of_int n) o = false.
Proof.
  intros Ho. destruct (String.eqb_spec (str_of_int n) o) as [<-|]; [|reflexivity].
  rewrite numeric_head_str_of_int in Ho. discriminate.
Qed.

Lemma str_of_int_app_eqb n k o :
  numeric_head o = false -> String.eqb (str_of_int n +:+ k) o = false.
Proof.
  intros Ho. destruct (String.eqb_spec (str_of_int n +:+ k) o) as [<-|]; [|reflexivity].
  rewrite numeric_head_app in Ho by apply numeric_head_str_of_int. discriminate.
Qed.

Lemma selector_arg_eqb sel o :
  String.prefix "0" o = false -> String.eqb ("0:" +:+ sel) o = false.
Proof.
  intros Ho. destruct (String.eqb_spec ("0:" +:+ sel) o) as [<-|]; [|reflexivity].
  discriminate Ho.
Qed.

End StringFacts.

(** ** Paths *)

Section PathFacts.
Import PyStr.

Lemma stem_of_nonempty nm : nm <> EmptyString -> stem_of nm <> EmptyString.
Proof.
  intros Hnm. unfold stem_of. destruct (rfind_dot nm) as [i|]; [|exact Hnm].
  destruct ((0 <? i)%nat && (i <? String.length nm - 1)%nat) eqn:E; [|exact Hnm].
  apply andb_true_iff in E as [Hi _]. apply Nat.ltb_lt in Hi.
  destruct nm; [congruence | now apply take_nonempty].
Qed.

(** A name that ends in a suffix loses it. *)
Lemma stem_of_dotted p q :
  p <> EmptyString -> q <> EmptyString -> contains "." q = false ->
  stem_of (p +:+ String "." q) = p.
Proof.
  intros Hp Hq Hdot. unfold stem_of. rewrite rfind_dot_last by exact Hdot.
  rewrite length_append. simpl String.length.
  assert (0 < String.length p)%nat by (destruct p; [congruence | simpl; lia]).
  assert (0 < String.length q)%nat by (destruct q; [congruence | simpl; lia]).
  replace ((0 <? String.length p)%nat) with true by (symmetry; apply Nat.ltb_lt; lia).
  replace ((String.length p <? String.length p + S (String.length q) - 1)%nat)
    with true by (symmetry; apply Nat.ltb_lt; lia).
  simpl. apply take_append.
Qed.

(** A name without a suffix is its own stem. *)
Lemma stem_of_plain s : suffix_of s = EmptyString -> stem_of s = s.
Proof.
  unfold suffix_of, stem_of. destruct (rfind_dot s) as [i|]; [|reflexivity].
  destruct ((0 <? i)%nat && (i <? String.length s - 1)%nat) eqn:E; [|reflexivity].
  apply andb_true_iff in E as [Hi Hj]. apply Nat.ltb_lt in Hi, Hj.
  unfold drop. intros H. exfalso.
  pose proof (length_substring_tail s i) as Hlen.
  rewrite H in Hlen. simpl in Hlen. lia.
Qed.

Lemma of_str_component s :
  contains "/" s = false -> s <> EmptyString -> s <> "." ->
  of_str s = mkPath EmptyString [s].
Proof.
  intros Hs He Hd. unfold of_str.
  rewrite leading_slashes_none, split_slash_single by exact Hs.
  simpl. apply String.eqb_neq in He, Hd. now rewrite He, Hd.
Qed.

Lemma strip_prefix_app pre l : strip_prefix pre (pre ++ l) = Some l.
Proof.
  induction pre as [|a pre IH]; simpl; [reflexivity | now rewrite String.eqb_refl].
Qed.

Lemma relative_to_under (base : Path) (rel : list string) :
  relative_to (mkPath (root base) (parts base ++ rel)) base
  = Returned (mkPath EmptyString rel).
Proof.
  unfold relative_to.
  assert (Habs : abs_parts (mkPath (root base) (parts base ++ rel))
                 = abs_parts base ++ rel).
  { unfold abs_parts; simpl. destruct (root base); reflexivity. }
  destruct (abs_parts base) as [|a l] eqn:E.
  - unfold abs_parts in E. destruct (root base) eqn:Er; [|discriminate].
    rewrite E. simpl. reflexivity.
  - rewrite Habs. now rewrite strip_prefix_app.
Qed.

Lemma with_suffix_last r ps nm sfx :
  nm <> EmptyString -> valid_suffix sfx = true ->
  with_suffix (mkPath r (ps ++ [nm])) sfx
  = Returned (mkPath r (ps ++ [stem_of nm +:+ sfx])).
Proof.
  intros Hnm Hv. unfold valid_suffix in Hv. apply andb_true_iff in Hv as [Hc Hd].
  apply negb_true_iff in Hc.
  unfold with_suffix. rewrite Hc.
  replace (match sfx with
           | EmptyString => false
           | String c _ => negb (Ascii.eqb c ".") || String.eqb sfx "."
           end) with false.
  2:{ destruct sfx; [reflexivity|]. apply andb_true_iff in Hd as [-> Hd].
      apply negb_true_iff in Hd. now rewrite Hd. }
  unfold name; simpl. rewrite last_last, removelast_last.
  destruct nm; [congruence | reflexivity].
Qed.

(** Joining a relative path whose last component the parser accepts adds
    its components. *)
Lemma joinpath_component a ps s :
  contains "/" s = false -> s <> EmptyString -> s <> "." ->
  joinpath a (mkPath EmptyString (ps ++ [s]))
  = mkPath (root a) (parts a ++ ps ++ [s]).
Proof.
  intros Hs He Hd. unfold joinpath; cbn [root parts].
  rewrite removelast_last, last_last, of_str_component by assumption.
  reflexivity.
Qed.

(** The parser leaves its own components as they are. *)
Lemma reparse_parsed ps :
  Forall (fun c => contains "/" c = false /\ c <> EmptyString /\ c <> ".") ps ->
  reparse ps = ps.
Proof.
  induction 1 as [|c ps (Hs & He & Hd) _ IH]; [reflexivity|].
  unfold reparse in *. cbn [flat_map]. rewrite IH, of_str_component by assumption.
  reflexivity.
Qed.

(** For an operand whose components before the last are the parser's own,
    the join parses every component of the operand again. *)
Lemma joinpath_reparse a b :
  Forall (fun c => contains "/" c = false /\ c <> EmptyString /\ c <> ".")
    (List.removelast (parts b)) ->
  joinpath a b
  = match root b with
    | EmptyString => mkPath (root a) (parts a ++ reparse (parts b))
    | r => mkPath r (reparse (parts b))
    end.
Proof.
  intros H. unfold joinpath.
  assert (E : List.removelast (parts b) ++ parts (of_str (List.last (parts b) EmptyString))
              = reparse (parts b)).
  { destruct (parts b) as [|c ps] eqn:Ep; [reflexivity|].
    assert (Hne : c :: ps <> []) by discriminate.
    rewrite (app_removelast_last EmptyString Hne) at 3.
    unfold reparse. rewrite flat_map_app. simpl. rewrite app_nil_r.
    fold (reparse (List.removelast (c :: ps))). now rewrite reparse_parsed. }
  cbv zeta. rewrite E. reflexivity.
Qed.

(** A last component ["."] is dropped by the join. *)
Lemma joinpath_dot a ps :
  joinpath a (mkPath EmptyString (ps ++ ["."])) = mkPath (root a) (parts a ++ ps).
Proof.
  unfold joinpath; cbn [root parts].
  rewrite removelast_last, last_last. cbn. now rewrite app_nil_r.
Qed.

End PathFacts.

(** ** The codec table *)

Lemma mapping_valid : map_Forall (fun _ v => valid_suffix v = true) mapping.
Proof.
  unfold mapping.
  repeat (apply map_Forall_insert_2; [reflexivity |]). apply map_Forall_empty.
Qed.

Lemma pick_copy_extension_valid codec : valid_suffix (pick_copy_extension codec) = true.
Proof.
  unfold pick_copy_extension.
  destruct (mapping !! codec) as [v|] eqn:E; simpl; [|reflexivity].
  exact (mapping_valid codec v E).
Qed.

Lemma extension_for_valid mode codec : valid_suffix (extension_for mode codec) = true.
Proof.
  unfold extension_for.
  destruct (String.eqb mode "COPY"); [apply pick_copy_extension_valid |].
  destruct (String.eqb mode "MP3"); [reflexivity |].
  destruct (String.eqb mode "AAC"); reflexivity.
Qed.

(** ** The command builder *)

(** The symbolic arguments of a command line (paths, the stream selector, the
    numbers) are named, with what is known of them, before the list is
    evaluated. *)
Ltac note_tokens opt :=
  repeat match goal with
    | |- context [PyStr.str_of_int ?n +:+ ?k] =>
        lazymatch goal with
        | _ : String.eqb (PyStr.str_of_int n +:+ k) opt = false |- _ => fail
        | _ => pose proof (str_of_int_app_eqb n k opt eq_refl)
        end
    | |- context [PyStr.str_of_int ?n] =>
        lazymatch goal with
        | _ : String.eqb (PyStr.str_of_int n) opt = false |- _ => fail
        | _ => pose proof (str_of_int_eqb n opt eq_refl)
        end
    | |- context [String.append "0:" ?s] =>
        lazymatch goal with
        | _ : String.eqb ("0:" +:+ s) opt = false |- _ => fail
        | _ => pose proof (selector_arg_eqb s opt eq_refl)
        end
    end.

Ltac hide_tokens :=
  repeat match goal with
    | |- context [PyStr.str_of_int ?n +:+ ?k] =>
        let x := fresh "tok" in set (x := PyStr.str_of_int n +:+ k) in *; clearbody x
    | |- context [PyStr.str_of_int ?n] =>
        let x := fresh "tok" in set (x := PyStr.str_of_int n) in *; clearbody x
    | |- context [String.append "0:" ?s] =>
        let x := fresh "tok" in set (x := "0:" +:+ s) in *; clearbody x
    | |- context [path_str ?p] =>
        let x := fresh "tok" in set (x := path_str p) in *; clearbody x
    end.

Ltac decide_tokens :=
  repeat match goal with
    | H : String.eqb ?x ?o = _ |- context [String.eqb ?x ?o] => rewrite H
    | |- context [String.eqb ?x ?o] => is_var x; destruct (String.eqb x o)
    end.

Ltac neq_to_eqb :=
  repeat match goal with
    | H : _ <> _ |- _ => apply String.eqb_neq in H
    end.

Ltac eqb_to_neq :=
  repeat match goal with
    | H : String.eqb _ _ = false |- _ => apply String.eqb_neq in H
    end.

(** One goal for each shape of the command line. *)
Ltac cases_cmd :=
  unfold build_ffmpeg_cmd;
  match goal with |- context [truthy ?sr] => destruct (truthy sr) end;
  try match goal with |- context [truthy ?sr] => destruct (truthy sr) end;
  match goal with
  | |- context [String.eqb ?m "COPY"] =>
      destruct (String.eqb m "COPY");
      [| destruct (String.eqb m "MP3");
         [| destruct (String.eqb m "AAC"); [| destruct (String.eqb m "WAV")]]]
  end.

Ltac option_values_cases opt :=
  note_tokens opt; hide_tokens;
  lazy [app option_values PyStr.join String.concat]; decide_tokens; lazy.

Ltac in_cmd := lazy [app]; cbn [In]; repeat (first [left; reflexivity | right]).

(** C4: for every mode, stream selector, sample rate, bitrate and GPU flag
    (and all paths), the loudness filter [loudnorm=I=-16:TP=-1.5:LRA=11]
    (EBU R128, -16 LUFS, -1.5 dBTP, 11 LU) is an argument of the [-af] option
    of the built command if and only if the loudness flag is true, and then
    it is so once: the arguments that follow an [-af] are the filter when the
    flag is true (and the [-vn] that follows the source path, should that
    path be spelled [-af]). When neither path is itself spelled like the
    filter, the filter text occurs in the list if and only if the flag is
    true. *)
Theorem loudnorm_filter_iff_flag src dst mode sel loud sr br gpu :
  (In "loudnorm=I=-16:TP=-1.5:LRA=11"
      (option_values "-af" (build_ffmpeg_cmd src dst mode sel loud sr br gpu))
   <-> loud = true)
  /\ option_values "-af" (build_ffmpeg_cmd src dst mode sel loud sr br gpu)
     = (if String.eqb (path_str src) "-af" then ["-vn"] else [])
         ++ (if loud then ["loudnorm=I=-16:TP=-1.5:LRA=11"] else [])
  /\ (path_str src <> "loudnorm=I=-16:TP=-1.5:LRA=11" ->
      path_str dst <> "loudnorm=I=-16:TP=-1.5:LRA=11" ->
      (In "loudnorm=I=-16:TP=-1.5:LRA=11" (build_ffmpeg_cmd src dst mode sel loud sr br gpu)
       <-> loud = true)).
Proof.
  split; [|split].
  - cases_cmd; destruct gpu, loud; option_values_cases "-af"; intuition discriminate.
  - cases_cmd; destruct gpu, loud; option_values_cases "-af"; reflexivity.
  - intros Hs Hd.
    cases_cmd; destruct gpu, loud; note_tokens "loudnorm=I=-16:TP=-1.5:LRA=11"; hide_tokens;
      eqb_to_neq;
      lazy [app PyStr.join String.concat]; cbn [In];
      intuition (try discriminate; try congruence).
Qed.

(** The filter in a command built with the flag set. *)
Lemma loudnorm_filter_iff_flag_witness :
  path_str (of_str "/in/a.mp4") <> "loudnorm=I=-16:TP=-1.5:LRA=11"
  /\ path_str (of_str "/out/a.mp3") <> "loudnorm=I=-16:TP=-1.5:LRA=11"
  /\ In "loudnorm=I=-16:TP=-1.5:LRA=11"
       (build_ffmpeg_cmd (of_str "/in/a.mp4") (of_str "/out/a.mp3") "MP3" "a:0"
          true (Some 44100) (Some 192) false).
Proof.
  assert (Hs : path_str (of_str "/in/a.mp4") <> "loudnorm=I=-16:TP=-1.5:LRA=11")
    by (vm_compute; discriminate).
  assert (Hd : path_str (of_str "/out/a.mp3") <> "loudnorm=I=-16:TP=-1.5:LRA=11")
    by (vm_compute; discriminate).
  split; [exact Hs |]. split; [exact Hd |].
  exact (proj2 (proj2 (proj2 (loudnorm_filter_iff_flag (of_str "/in/a.mp4")
                                (of_str "/out/a.mp3") "MP3" "a:0" true (Some 44100)
                                (Some 192) false)) Hs Hd) eq_refl).
Defined.

(** C5: in every mode and for every input the built command holds [-vn],
    [-sn] and [-dn], and the stream given by the selector is mapped. The
    arguments that follow a [-map] are exactly that stream, and, should the
    source path itself be spelled [-map], the [-vn] that follows the path;
    so unless the source path is spelled [-map], the selected stream is the
    only [-map] argument and nothing else (no video, no subtitle stream) is
    mapped. For the selectors [App.start] builds, by index and by language,
    the one mapped stream is an audio stream of the first input
    ([0:a:...]). *)
Theorem maps_exactly_selected_audio src dst mode sel loud sr br gpu :
  let cmd := build_ffmpeg_cmd src dst mode sel loud sr br gpu in
  (In "-vn" cmd /\ In "-sn" cmd /\ In "-dn" cmd)
  /\ option_values "-map" cmd
     = (if String.eqb (path_str src) "-map" then ["-vn"] else []) ++ ["0:" +:+ sel]
  /\ (path_str src <> "-map" -> option_values "-map" cmd = ["0:" +:+ sel])
  /\ (forall idx, sel = selector_by_index idx ->
        "0:" +:+ sel = "0:a:" +:+ PyStr.str_of_int idx)
  /\ (forall lang, sel = selector_by_language lang ->
        "0:" +:+ sel = "0:a:m:language:" +:+ lang).
Proof.
  intros cmd; subst cmd. split; [|split; [|split; [|split]]].
  - cases_cmd; destruct gpu, loud; (split; [|split]); in_cmd.
  - cases_cmd; destruct gpu, loud; option_values_cases "-map"; reflexivity.
  - intros Hs. neq_to_eqb.
    cases_cmd; destruct gpu, loud; option_values_cases "-map"; reflexivity.
  - intros idx ->. reflexivity.
  - intros lang ->. reflexivity.
Qed.

(** The one mapping of a command for the first audio stream. *)
Lemma maps_exactly_selected_audio_witness :
  path_str (of_str "/in/a.mp4") <> "-map"
  /\ option_values "-map"
       (build_ffmpeg_cmd (of_str "/in/a.mp4") (of_str "/out/a.m4a") "AAC"
          (selector_by_index 0) false None None true)
     = ["0:a:0"].
Proof.
  assert (Hs : path_str (of_str "/in/a.mp4") <> "-map") by (vm_compute; discriminate).
  split; [exact Hs |].
  exact (proj1 (proj2 (proj2 (maps_exactly_selected_audio (of_str "/in/a.mp4")
                                (of_str "/out/a.m4a") "AAC" (selector_by_index 0)
                                false None None true))) Hs).
Defined.

Lemma wav_branch src dst sel loud sr br gpu :
  build_ffmpeg_cmd src dst "WAV" sel loud sr br gpu =
  ((((["ffmpeg"; "-y"] ++ (if gpu then ["-hwaccel"; "cuda"] else []))
     ++ ["-i"; path_str src; "-vn"; "-sn"; "-dn"; "-map"; "0:" +:+ sel])
    ++ ["-c:a"; "pcm_s16le"; "-ac"; "2"]
    ++ match truthy sr with
       | Some r => ["-ar"; PyStr.str_of_int r]
       | None => []
       end)
   ++ (if loud then ["-af"; "loudnorm=I=-16:TP=-1.5:LRA=11"] else []))
  ++ [path_str dst].
Proof.
  unfold build_ffmpeg_cmd.
  change (String.eqb "WAV" "COPY") with false. change (String.eqb "WAV" "MP3") with false.
  change (String.eqb "WAV" "AAC") with false. change (String.eqb "WAV" "WAV") with true.
  destruct gpu, loud, (truthy sr); reflexivity.
Qed.

(** C6: in mode WAV, whatever the other options, the built command selects
    the codec [pcm_s16le] with [-c:a] and sets [-ac 2]. The arguments that
    follow a [-c:a] (a [-ac]) are exactly [pcm_s16le] ([2]), and, should the
    source path itself be spelled like the option, the [-vn] that follows the
    path; so unless the source path is spelled like one of these options,
    they are the only codec and the only channel count given. *)
Theorem wav_forces_pcm_and_two_channels src dst sel loud sr br gpu :
  let cmd := build_ffmpeg_cmd src dst "WAV" sel loud sr br gpu in
  (option_values "-c:a" cmd
   = (if String.eqb (path_str src) "-c:a" then ["-vn"] else []) ++ ["pcm_s16le"]
   /\ option_values "-ac" cmd
      = (if String.eqb (path_str src) "-ac" then ["-vn"] else []) ++ ["2"])
  /\ (path_str src <> "-c:a" -> option_values "-c:a" cmd = ["pcm_s16le"])
  /\ (path_str src <> "-ac" -> option_values "-ac" cmd = ["2"]).
Proof.
  intros cmd; subst cmd. rewrite wav_branch. split; [split | split].
  - destruct gpu, loud, (truthy sr); option_values_cases "-c:a"; reflexivity.
  - destruct gpu, loud, (truthy sr); option_values_cases "-ac"; reflexivity.
  - intros Hs. neq_to_eqb.
    destruct gpu, loud, (truthy sr); option_values_cases "-c:a"; reflexivity.
  - intros Hs. neq_to_eqb.
    destruct gpu, loud, (truthy sr); option_values_cases "-ac"; reflexivity.
Qed.

(** The codec and the channel count of a WAV command. *)
Lemma wav_forces_pcm_and_two_channels_witness :
  path_str (of_str "/in/a.mp4") <> "-c:a"
  /\ path_str (of_str "/in/a.mp4") <> "-ac"
  /\ option_values "-c:a"
       (build_ffmpeg_cmd (of_str "/in/a.mp4") (of_str "/out/a.wav") "WAV" "a:0"
          true (Some 48000) (Some 320) true) = ["pcm_s16le"]
  /\ option_values "-ac"
       (build_ffmpeg_cmd (of_str "/in/a.mp4") (of_str "/out/a.wav") "WAV" "a:0"
          true (Some 48000) (Some 320) true) = ["2"].
Proof.
  assert (H1 : path_str (of_str "/in/a.mp4") <> "-c:a") by (vm_compute; discriminate).
  assert (H2 : path_str (of_str "/in/a.mp4") <> "-ac") by (vm_compute; discriminate).
  split; [exact H1 |]. split; [exact H2 |].
  pose (T := wav_forces_pcm_and_two_channels (of_str "/in/a.mp4") (of_str "/out/a.wav")
               "a:0" true (Some 48000) (Some 320) true).
  split; [exact (proj1 (proj2 T) H1) | exact (proj2 (proj2 T) H2)].
Defined.

(** ** The worker *)

Lemma quiet_world_well_behaved : well_behaved quiet_world.
Proof. split; intros; [eexists |]; reflexivity. Qed.

Lemma detect_audio_codec_returns w file sel log :
  well_behaved w ->
  exists codec log', detect_audio_codec w file sel log = (Returned codec, log').
Proof.
  intros [Hpopen _]. unfold detect_audio_codec, run_cmd, mbind, M_bind, mret, M_ret.
  destruct (Hpopen (probe_cmd file sel)) as [[[code so] se] ->].
  destruct (code =? 0); [destruct (PyStr.splitlines (PyStr.strip so)) |];
    eexists _, _; reflexivity.
Qed.

(** A probe that exits with an error finds no codec. *)
Lemma detect_audio_codec_absent w file sel log code so se :
  popen w (probe_cmd file sel) = Returned (code, so, se) -> code <> 0 ->
  detect_audio_codec w file sel log = (Returned None, log ++ [Spawn (probe_cmd file sel)]).
Proof.
  intros Hp Hc. unfold detect_audio_codec, run_cmd, mbind, M_bind, mret, M_ret.
  rewrite Hp. apply Z.eqb_neq in Hc. now rewrite Hc.
Qed.

(** Where [make_out_path] puts the output of a file [nm] that lies in the
    directories [dirs] under the input root, when the stem of [nm] is a
    component the parser accepts (it is not ["."], as it is for ["..mp4"], and
    holds no slash): the directories are kept when
    the tree is preserved and dropped otherwise, and the file name is the
    stem of the source, without a suffix of its own, followed by the
    extension of the mode ([codec] is what the probe finds in mode COPY). *)
Lemma make_out_path_layout w base out dirs nm pt mode sel log :
  nm <> EmptyString ->
  PyStr.contains "/" (stem_of nm) = false /\ stem_of nm <> "." ->
  well_behaved w ->
  exists codec log',
    make_out_path w (mkPath (root base) (parts base ++ dirs ++ [nm])) base out
      pt mode sel log
    = (Returned
         (mkPath (root out)
            (parts out ++ (if pt then dirs else [])
               ++ [stem_of (stem_of nm) +:+ extension_for mode codec])),
       log')
    /\ (String.eqb mode "COPY" = true ->
        exists l,
          detect_audio_codec w (mkPath (root base) (parts base ++ dirs ++ [nm])) sel log
          = (Returned codec, l)).
Proof.
  intros Hnm Hflat Hw. pose proof Hw as [Hpopen Hmkdir].
  pose proof (stem_of_nonempty nm Hnm) as Hstem.
  set (src := mkPath (root base) (parts base ++ dirs ++ [nm])).
  assert (Hst : forall (k : Path -> M Path) l,
     (mbind k (if pt then
                 (rel ← lift (relative_to src base);
                  lift (with_suffix rel EmptyString))
               else mret (of_str (PurePath.stem src)))) l
     = k (mkPath EmptyString ((if pt then dirs else []) ++ [stem_of nm])) l).
  { intros k l. destruct pt.
    - unfold mbind, M_bind, lift, src. rewrite relative_to_under.
      rewrite with_suffix_last by auto. rewrite append_empty_r. reflexivity.
    - destruct Hflat as [Hs Hd].
      unfold mbind, M_bind, mret, M_ret, PurePath.stem, name, src. simpl parts.
      rewrite app_assoc, last_last. rewrite of_str_component by auto. reflexivity. }
  unfold make_out_path. rewrite Hst. clear Hst.
  set (X := if pt then dirs else []).
  assert (Hext : exists codec l1,
       (String.eqb mode "COPY" = true ->
        detect_audio_codec w src sel log = (Returned codec, l1))
       /\ forall (k : string -> M Path),
       (mbind k (if String.eqb mode "COPY"
                 then codec ← detect_audio_codec w src sel;
                      mret (pick_copy_extension (PyStr.or_else codec "aac"))
                 else if String.eqb mode "MP3" then mret ".mp3"
                 else if String.eqb mode "AAC" then mret ".m4a" else mret ".wav")) log
       = k (extension_for mode codec) l1).
  { unfold extension_for. destruct (String.eqb mode "COPY").
    - destruct (detect_audio_codec_returns w src sel log Hw) as (codec & l1 & Hd).
      exists codec, l1. split; [intros _; exact Hd |].
      intros k. unfold mbind, M_bind at 1. unfold mbind, M_bind at 1. rewrite Hd.
      reflexivity.
    - exists None, log. split; [discriminate |]. intros k.
      destruct (String.eqb mode "MP3"); [|destruct (String.eqb mode "AAC")]; reflexivity. }
  destruct Hext as (codec & l1 & Hlink & ->).
  exists codec, (l1 ++ [Mkdir (mkPath (root out) (parts out ++ X))]).
  split; [|intros Hm; eexists; exact (Hlink Hm)].
  rewrite joinpath_component by (tauto || assumption).
  unfold mbind, M_bind, lift, mkdir_parents, mret, M_ret.
  rewrite !app_assoc, with_suffix_last by (auto using extension_for_valid).
  unfold parent; cbn [root parts]. rewrite removelast_last, Hmkdir. reflexivity.
Qed.

(** A stem without a suffix of its own is kept whole: the output is named by
    the stem and the extension. *)
Lemma make_out_path_keeps_plain_stem w base out dirs nm pt mode sel log :
  nm <> EmptyString ->
  suffix_of (stem_of nm) = EmptyString ->
  PyStr.contains "/" (stem_of nm) = false /\ stem_of nm <> "." ->
  well_behaved w ->
  exists codec log',
    make_out_path w (mkPath (root base) (parts base ++ dirs ++ [nm])) base out
      pt mode sel log
    = (Returned
         (mkPath (root out)
            (parts out ++ (if pt then dirs else [])
               ++ [stem_of nm +:+ extension_for mode codec])),
       log').
Proof.
  intros Hnm Hplain Hflat Hw.
  destruct (make_out_path_layout w base out dirs nm pt mode sel log Hnm Hflat Hw)
    as (codec & log' & H & _).
  exists codec, log'. now rewrite H, (stem_of_plain _ Hplain).
Qed.

(** C7: the codec-to-extension mapping is total. Each of the ten codec names
    of the table maps to its listed extension; every other codec name maps to
    the default [".m4a"]; and so does the absent codec in mode COPY, which
    [make_out_path] replaces by ["aac"] before the lookup (the same holds
    for an empty codec name): when the probe exits with an error, the output
    path of mode COPY ends in [".m4a"], for every file whose stem is a
    component of its own (not ["."], no slash), the tree preserved or not. *)
Theorem pick_copy_extension_total :
  (pick_copy_extension "aac" = ".m4a"
   /\ pick_copy_extension "mp3" = ".mp3"
   /\ pick_copy_extension "ac3" = ".ac3"
   /\ pick_copy_extension "eac3" = ".eac3"
   /\ pick_copy_extension "dts" = ".dts"
   /\ pick_copy_extension "opus" = ".opus"
   /\ pick_copy_extension "vorbis" = ".ogg"
   /\ pick_copy_extension "flac" = ".flac"
   /\ pick_copy_extension "pcm_s16le" = ".wav"
   /\ pick_copy_extension "truehd" = ".thd")
  /\ (forall codec : string,
        codec ∉ ["aac"; "mp3"; "ac3"; "eac3"; "dts"; "opus"; "vorbis"; "flac";
                 "pcm_s16le"; "truehd"] ->
        pick_copy_extension codec = ".m4a")
  /\ pick_copy_extension (PyStr.or_else None "aac") = ".m4a"
  /\ pick_copy_extension (PyStr.or_else (Some EmptyString) "aac") = ".m4a"
  /\ (forall w base out dirs nm pt sel log code so se,
        nm <> EmptyString ->
        PyStr.contains "/" (stem_of nm) = false /\ stem_of nm <> "." ->
        well_behaved w ->
        popen w (probe_cmd (mkPath (root base) (parts base ++ dirs ++ [nm])) sel)
        = Returned (code, so, se) ->
        code <> 0 ->
        exists log',
          make_out_path w (mkPath (root base) (parts base ++ dirs ++ [nm])) base out
            pt "COPY" sel log
          = (Returned
               (mkPath (root out)
                  (parts out ++ (if pt then dirs else [])
                     ++ [stem_of (stem_of nm) +:+ ".m4a"])),
             log')).
Proof.
  split; [repeat split; vm_compute; reflexivity |].
  split.
  { intros codec Hc. unfold pick_copy_extension, mapping.
    rewrite !lookup_insert_ne by (intros <-; apply Hc; set_solver).
    now rewrite lookup_empty. }
  split; [vm_compute; reflexivity |].
  split; [vm_compute; reflexivity |].
  intros w base out dirs nm pt sel log code so se Hnm Hflat Hw Hp Hc.
  destruct (make_out_path_layout w base out dirs nm pt "COPY" sel log Hnm Hflat Hw)
    as (codec & log' & H & Hlink).
  destruct (Hlink eq_refl) as [l Hd].
  rewrite (detect_audio_codec_absent _ _ _ _ _ _ _ Hp Hc) in Hd.
  injection Hd as <- _. exists log'. exact H.
Qed.

(** A codec outside the table and its extension; a probe that fails and the
    output path of mode COPY. *)
Lemma pick_copy_extension_total_witness :
  (("wmav2" ∉ ["aac"; "mp3"; "ac3"; "eac3"; "dts"; "opus"; "vorbis"; "flac";
               "pcm_s16le"; "truehd"])
   /\ pick_copy_extension "wmav2" = ".m4a")
  /\ (well_behaved failing_probe_world
      /\ exists log',
           make_out_path failing_probe_world (of_str "/in/d/a.mkv") (of_str "/in")
             (of_str "/out") true "COPY" "a:0" []
           = (Returned (mkPath "/" ["out"; "d"; stem_of (stem_of "a.mkv") +:+ ".m4a"]),
              log')).
Proof.
  assert (H : "wmav2" ∉ ["aac"; "mp3"; "ac3"; "eac3"; "dts"; "opus"; "vorbis"; "flac";
                         "pcm_s16le"; "truehd"]).
  { rewrite !not_elem_of_cons. repeat (split; [discriminate |]). apply not_elem_of_nil. }
  assert (Hw : well_behaved failing_probe_world).
  { split; intros; [eexists |]; reflexivity. }
  split; [split; [exact H | exact (proj1 (proj2 pick_copy_extension_total) "wmav2" H)] |].
  split; [exact Hw |].
  exact (proj2 (proj2 (proj2 (proj2 pick_copy_extension_total)))
           failing_probe_world (of_str "/in") (of_str "/out") ["d"] "a.mkv" true "a:0" []
           1 EmptyString "a.mkv: Invalid data found when processing input"
           ltac:(discriminate) ltac:(split; [reflexivity | vm_compute; discriminate])
           Hw eq_refl ltac:(discriminate)).
Defined.

(** [process_one] always returns, and its result names the source. *)
Lemma process_one_returns w src base out pt mode sel loud sr br gpu log :
  exists success msg log',
    process_one w src base out pt mode sel loud sr br gpu log
    = (Returned (src, success, msg), log').
Proof.
  unfold process_one, try_except, mbind, M_bind, mret, M_ret.
  destruct (make_out_path w src base out pt mode sel log) as [[dst|e] l1];
    [|eexists _, _, _; reflexivity].
  unfold run_cmd. destruct (popen w _) as [[[code so] se]|e];
    [|eexists _, _, _; reflexivity].
  destruct (negb (code =? 0)); eexists _, _, _; reflexivity.
Qed.

(** C3: [process_one] never propagates an exception. For every input file
    and every world it returns a Task Result for that file; when resolving
    the output path raises [e], the result is [(src, False, str(e))], and so
    it is when running the built command raises [e]. (Building the command
    is a total function and raises nothing.) *)
Theorem process_one_catches_everything w src base out pt mode sel loud sr br gpu log :
  (exists success msg log',
     process_one w src base out pt mode sel loud sr br gpu log
     = (Returned (src, success, msg), log'))
  /\ (forall e log1,
        make_out_path w src base out pt mode sel log = (Raised e, log1) ->
        process_one w src base out pt mode sel loud sr br gpu log
        = (Returned (src, false, exn_text e), log1))
  /\ (forall dst log1 e log2,
        make_out_path w src base out pt mode sel log = (Returned dst, log1) ->
        run_cmd w (build_ffmpeg_cmd src dst mode sel loud sr br gpu) log1
        = (Raised e, log2) ->
        process_one w src base out pt mode sel loud sr br gpu log
        = (Returned (src, false, exn_text e), log2)).
Proof.
  split; [apply process_one_returns |]. split.
  - intros e log1 H. unfold process_one, try_except, mbind, M_bind. now rewrite H.
  - intros dst log1 e log2 H1 H2.
    unfold process_one, try_except, mbind, M_bind. rewrite H1. cbv beta.
    now rewrite H2.
Qed.

(** Two faults. The transcoder cannot be started: the fault becomes the
    message of a failed result. The source does not lie under the input
    root: so does the [ValueError] of [relative_to]. *)
Lemma process_one_catches_everything_witness :
  (make_out_path no_tools_world (of_str "/in/a.mp4") (of_str "/in") (of_str "/out")
     true "MP3" "a:0" []
   = (Returned (of_str "/out/a.mp3"), [Mkdir (of_str "/out")])
   /\ run_cmd no_tools_world
        (build_ffmpeg_cmd (of_str "/in/a.mp4") (of_str "/out/a.mp3") "MP3" "a:0"
           false None (Some 192) false)
        [Mkdir (of_str "/out")]
      = (Raised (Exn "FileNotFoundError" "[Errno 2] No such file or directory: 'ffmpeg'"),
         [Mkdir (of_str "/out");
          Spawn ["ffmpeg"; "-y"; "-i"; "/in/a.mp4"; "-vn"; "-sn"; "-dn"; "-map"; "0:a:0";
                 "-c:a"; "libmp3lame"; "-b:a"; "192k"; "/out/a.mp3"]])
   /\ process_one no_tools_world (of_str "/in/a.mp4") (of_str "/in") (of_str "/out")
        true "MP3" "a:0" false None (Some 192) false []
      = (Returned (of_str "/in/a.mp4", false,
                   "[Errno 2] No such file or directory: 'ffmpeg'"),
         [Mkdir (of_str "/out");
          Spawn ["ffmpeg"; "-y"; "-i"; "/in/a.mp4"; "-vn"; "-sn"; "-dn"; "-map"; "0:a:0";
                 "-c:a"; "libmp3lame"; "-b:a"; "192k"; "/out/a.mp3"]]))
  /\ (make_out_path quiet_world (of_str "/else/a.mp4") (of_str "/in") (of_str "/out")
        true "MP3" "a:0" []
      = (Raised (Exn "ValueError"
                   ("'/else/a.mp4' is not in the subpath of '/in'"
                    +:+ " OR one path is relative and the other is absolute.")),
         [])
      /\ process_one quiet_world (of_str "/else/a.mp4") (of_str "/in") (of_str "/out")
           true "MP3" "a:0" false None (Some 192) false []
         = (Returned (of_str "/else/a.mp4", false,
                      "'/else/a.mp4' is not in the subpath of '/in'"
                      +:+ " OR one path is relative and the other is absolute."),
            [])).
Proof.
  split.
  - split; [reflexivity |]. split; [reflexivity |].
    exact (proj2 (proj2 (process_one_catches_everything no_tools_world
                           (of_str "/in/a.mp4") (of_str "/in") (of_str "/out")
                           true "MP3" "a:0" false None (Some 192) false []))
             (of_str "/out/a.mp3") [Mkdir (of_str "/out")] _ _ eq_refl eq_refl).
  - split; [reflexivity |].
    exact (proj1 (proj2 (process_one_catches_everything quiet_world
                           (of_str "/else/a.mp4") (of_str "/in") (of_str "/out")
                           true "MP3" "a:0" false None (Some 192) false []))
             _ _ eq_refl).
Defined.

(** C8, at a file named [..mp4]. Its suffix is [.mp4], so [scan_files] keeps
    it, and its stem is the single dot. Flattened, [Path(src.stem)] is the
    empty path; preserved, [rel.with_suffix("")] ends in a component ["."]
    that the join drops. Either way the extension is put on the directory
    itself. For a file directly under the input root that is the output
    root: the output [/out.mp3] lies beside the output root, not under it,
    and the directory created is the parent of the output root. For a file
    in a directory [d] and the tree preserved the output is [/out/d.mp3]:
    the directory [d] is not mirrored. When the output root is [/] the call
    raises. *)
Theorem dot_stem_output_leaves_its_directory :
  suffix (of_str "/in/..mp4") = ".mp4"
  /\ PurePath.stem (of_str "/in/..mp4") = "."
  /\ make_out_path quiet_world (of_str "/in/..mp4") (of_str "/in") (of_str "/out")
       false "MP3" "a:0" []
     = (Returned (of_str "/out.mp3"), [Mkdir (of_str "/")])
  /\ make_out_path quiet_world (of_str "/in/..mp4") (of_str "/in") (of_str "/out")
       true "MP3" "a:0" []
     = (Returned (of_str "/out.mp3"), [Mkdir (of_str "/")])
  /\ relative_to (of_str "/out.mp3") (of_str "/out")
     = Raised (Exn "ValueError"
                 ("'/out.mp3' is not in the subpath of '/out'"
                  +:+ " OR one path is relative and the other is absolute."))
  /\ make_out_path quiet_world (of_str "/in/d/..mp4") (of_str "/in") (of_str "/out")
       true "MP3" "a:0" []
     = (Returned (of_str "/out/d.mp3"), [Mkdir (of_str "/out")])
  /\ make_out_path quiet_world (of_str "/in/d/..mp4") (of_str "/in") (of_str "/out")
       false "MP3" "a:0" []
     = (Returned (of_str "/out.mp3"), [Mkdir (of_str "/")])
  /\ make_out_path quiet_world (of_str "/in/..mp4") (of_str "/in") (of_str "/")
       true "MP3" "a:0" []
     = (Raised (Exn "ValueError" "PosixPath('/') has an empty name"), [])
  /\ make_out_path quiet_world (of_str "/in/..mp4") (of_str "/in") (of_str "/")
       false "MP3" "a:0" []
     = (Raised (Exn "ValueError" "PosixPath('/') has an empty name"), []).
Proof. repeat split; vm_compute; reflexivity. Qed.

(** C9, as amended: for a source file whose stem is [p.q], the last dot of
    the stem being neither its first nor its last character ([p] and [q] are
    not empty and [q] holds no dot), [make_out_path] puts the target
    extension in the place of [.q]: the output file is named [p] followed by
    the extension (["a.b.mp4"] gives ["a.mp3"], not ["a.b.mp3"]), whether the
    tree is preserved or flattened. *)
Theorem dotted_stem_loses_its_last_part w base out dirs p q e pt mode sel log :
  p <> EmptyString -> q <> EmptyString -> e <> EmptyString ->
  PyStr.contains "." q = false -> PyStr.contains "." e = false ->
  PyStr.contains "/" p = false -> PyStr.contains "/" q = false ->
  well_behaved w ->
  let nm := (p +:+ String "." q) +:+ String "." e in
  let src := mkPath (root base) (parts base ++ dirs ++ [nm]) in
  PurePath.stem src = p +:+ String "." q
  /\ exists codec log',
       make_out_path w src base out pt mode sel log
       = (Returned
            (mkPath (root out)
               (parts out ++ (if pt then dirs else [])
                  ++ [p +:+ extension_for mode codec])),
          log').
Proof.
  intros Hp Hq He Hdq Hde Hsp Hsq Hw nm src.
  assert (Hpq : p +:+ String "." q <> EmptyString).
  { destruct p; [congruence | rewrite append_cons; discriminate]. }
  assert (Hstem : stem_of nm = p +:+ String "." q) by (apply stem_of_dotted; assumption).
  assert (Hnm : nm <> EmptyString).
  { intros E. apply (f_equal String.length) in E. unfold nm in E.
    rewrite length_append in E. simpl in E. lia. }
  split.
  - unfold PurePath.stem, name, src. simpl parts. now rewrite app_assoc, last_last.
  - destruct (make_out_path_layout w base out dirs nm pt mode sel log Hnm) as
      (codec & log' & H & _); [| exact Hw |].
    + rewrite Hstem. split.
      * rewrite contains_append. simpl. now rewrite Hsp, Hsq.
      * destruct p as [|c [|c' p]]; [congruence | |];
          rewrite ?append_cons; discriminate.
    + exists codec, log'. unfold src. rewrite H, Hstem.
      now rewrite (stem_of_dotted p q Hp Hq Hdq).
Qed.

(** The file [a.b.mp4] of the claim, in a subdirectory, with the tree
    preserved. *)
Lemma dotted_stem_loses_its_last_part_witness :
  well_behaved quiet_world
  /\ exists codec log',
       make_out_path quiet_world (of_str "/in/d/a.b.mp4") (of_str "/in") (of_str "/out")
         true "MP3" "a:0" []
       = (Returned (mkPath "/" ["out"; "d"; "a" +:+ extension_for "MP3" codec]), log').
Proof.
  split; [exact quiet_world_well_behaved |].
  exact (proj2 (dotted_stem_loses_its_last_part quiet_world (of_str "/in") (of_str "/out")
                  ["d"] "a" "b" "mp4" true "MP3" "a:0" []
                  ltac:(discriminate) ltac:(discriminate) ltac:(discriminate)
                  eq_refl eq_refl eq_refl eq_refl quiet_world_well_behaved)).
Defined.

(** C9 as stated fails for a hidden file: the stem [.b] of [.b.mp4] holds a
    dot, yet nothing of it is lost; the output is named [.b.mp3], not
    [.mp3], whether the tree is preserved or flattened. *)
Lemma dot_first_stem_is_kept :
  PurePath.stem (of_str "/in/.b.mp4") = ".b"
  /\ PyStr.contains "." (PurePath.stem (of_str "/in/.b.mp4")) = true
  /\ make_out_path quiet_world (of_str "/in/.b.mp4") (of_str "/in") (of_str "/out")
       true "MP3" "a:0" []
     = (Returned (mkPath "/" ["out"; ".b.mp3"]), [Mkdir (of_str "/out")])
  /\ make_out_path quiet_world (of_str "/in/.b.mp4") (of_str "/in") (of_str "/out")
       false "MP3" "a:0" []
     = (Returned (mkPath "/" ["out"; ".b.mp3"]), [Mkdir (of_str "/out")]).
Proof. repeat split; vm_compute; reflexivity. Qed.

(** ** The dispatcher *)

(** A task always returns a result for its file. *)
Lemma task_returns w b args f log :
  exists success msg log', task w b args f log = (Returned (f, success, msg), log').
Proof.
  unfold task. destruct b; [eexists _, _, _; reflexivity | apply process_one_returns].
Qed.

Section BatchFacts.

Variable args : Args.
Variable workers : Z.
Variable files : list Path.


Ltac step_inv H :=
  unfold step, handle_result, leave_loop in H;
  repeat (case_match; simplify_eq; try discriminate);
  simplify_eq; cbn [stop_event pending running completed done ok_count fail_count
                    delivered ui_queue syscalls phase] in *.

Lemma step_work_left st c st' :
  step args workers files st c = Some st' -> is_cancel c = false -> (work_left st' < work_left st)%nat.
Proof.
  intros H Hc. destruct c; try discriminate Hc; step_inv H; unfold work_left;
    cbn [stop_event pending running completed done ok_count fail_count
           delivered ui_queue syscalls phase];
    rewrite ?length_app, ?length_delete by eauto; simpl length; try lia.
  all: try (match goal with H : _ !! _ = Some _ |- _ => apply lookup_lt_Some in H end; lia).
  all: repeat match goal with H : ?x = _ |- context [?x] => rewrite H end; simpl; lia.
Qed.



Lemma progress_events_app q1 q2 :
  progress_events (q1 ++ q2) = progress_events q1 ++ progress_events q2.
Proof. apply omap_app. Qed.

Lemma consistent_init : consistent files (init workers files).
Proof.
  unfold init. destruct (workers <=? 0); constructor; simpl; auto; lia.
Qed.

Lemma consistent_step st c st' :
  consistent files st -> step args workers files st c = Some st' -> consistent files st'.
Proof.
  intros [] H. destruct c.
  - step_inv H. constructor; assumption.
  - unfold step in H. destruct (pending st) as [|f rest] eqn:Ep; [discriminate|].
    destruct (Z.of_nat (length (running st)) <? workers); [|discriminate].
    destruct (task_returns w (stop_event st) args f (syscalls st)) as (s & m & l & Ht).
    rewrite Ht in H. simplify_eq. constructor; simpl; auto.
    + apply Forall_app; split; [assumption | repeat constructor].
    + rewrite length_app; simpl in *; lia.
  - step_inv H. constructor; simpl; auto.
    + now apply Forall_delete.
    + apply Forall_app; split; [assumption|]. constructor; [|constructor].
      match goal with
      | Hk : running st !! _ = Some _ |- _ => exact (Forall_lookup_1 _ _ _ _ running_ok0 Hk)
      end.
    + rewrite length_app, length_delete by eauto. simpl.
      match goal with H : _ !! _ = Some _ |- _ => apply lookup_lt_Some in H end. lia.
  - unfold step in H. destruct (phase st) eqn:Eph; try discriminate.
    destruct (completed st) as [|fut rest] eqn:Ec.
    + destruct (pending st) eqn:Ep; [destruct (running st) eqn:Er|]; try discriminate.
      simplify_eq. constructor; simpl; rewrite ?app_nil_r, ?Ep, ?Er; simpl in *; auto; lia.
    + inversion completed_ok0; subst.
      destruct (stop_event st).
      * simplify_eq. constructor; simpl; rewrite ?app_nil_r; simpl in *; auto; lia.
      * destruct fut as [[[src success] msg]|e]; simplify_eq;
          constructor; simpl;
          rewrite ?progress_events_app, ?length_app; simpl in *; auto;
          try destruct success; lia.
  - step_inv H. constructor; simpl; auto; try (simpl in *; lia).
    all: rewrite progress_events_app, length_app.
    all: unfold summary; destruct (stop_event st); simpl; lia.
Qed.

Lemma consistent_exec cs : forall st st',
  consistent files st -> exec args workers files st cs = Some st' -> consistent files st'.
Proof.
  induction cs as [|c cs IH]; intros st st' Hc H; simpl in H.
  - now simplify_eq.
  - destruct (step args workers files st c) as [st1|] eqn:E; [|discriminate].
    eapply IH; [eapply consistent_step|]; eauto.
Qed.


Lemma future_sources_app l1 l2 :
  future_sources (l1 ++ l2) = future_sources l1 ++ future_sources l2.
Proof. apply omap_app. Qed.

Lemma undisturbed_init : 0 < workers -> undisturbed files (init workers files).
Proof.
  intros Hw. unfold init. replace (workers <=? 0) with false by (symmetry; apply Z.leb_gt; lia).
  constructor; simpl; reflexivity.
Qed.

Lemma undisturbed_step st c st' :
  consistent files st -> undisturbed files st -> is_cancel c = false ->
  step args workers files st c = Some st' -> undisturbed files st'.
Proof.
  intros Hc [Hs Hp] Hn H. destruct c; try discriminate Hn.
  - unfold step in H. destruct (pending st) as [|f rest] eqn:Ep; [discriminate|].
    destruct (Z.of_nat (length (running st)) <? workers); [|discriminate].
    destruct (task_returns w (stop_event st) args f (syscalls st)) as (s & m & l & Ht).
    rewrite Ht in H. simplify_eq. constructor; simpl; [assumption|].
    destruct (phase st); [|assumption..].
    rewrite future_sources_app. simpl. rewrite <- Hp.
    rewrite <- !app_assoc. simpl. reflexivity.
  - unfold step in H. destruct (running st !! k) as [o|] eqn:Hk; [|discriminate].
    simplify_eq. constructor; simpl; [assumption|].
    destruct (phase st); [|assumption..].
    rewrite future_sources_app. rewrite <- Hp.
    assert (Hperm : future_sources (running st)
                    ≡ₚ future_sources (o :: delete k (running st))).
    { unfold future_sources. f_equiv. now apply delete_Permutation. }
    rewrite Hperm.
    destruct o as [r|e]; simpl; [|now rewrite app_nil_r].
    rewrite <- !app_assoc. simpl. reflexivity.
  - unfold step in H. destruct (phase st) eqn:Eph; try discriminate.
    destruct (completed st) as [|fut rest] eqn:Ec.
    + destruct (pending st) eqn:Ep; [destruct (running st) eqn:Er|]; try discriminate.
      simplify_eq. constructor; simpl; [assumption|].
      simpl in Hp. now rewrite !app_nil_r in Hp.
    + rewrite Hs in H. pose proof (completed_ok _ _ Hc) as Hok. rewrite Ec in Hok.
      inversion Hok; subst.
      destruct fut as [[[src success] msg]|e]; [|contradiction].
      simplify_eq. constructor; simpl; [assumption|]. rewrite Eph.
      rewrite map_app. simpl. rewrite <- Hp. simpl.
      rewrite <- !app_assoc. reflexivity.
  - unfold step in H. destruct (phase st); try discriminate.
    destruct (pending st); [destruct (running st)|]; try discriminate.
    simplify_eq. constructor; simpl; assumption.
Qed.



Lemma undisturbed_exec cs : forall st st',
  consistent files st -> undisturbed files st -> no_cancel cs = true ->
  exec args workers files st cs = Some st' -> consistent files st' /\ undisturbed files st'.
Proof.
  induction cs as [|c cs IH]; intros st st' Hc Hu Hn H; simpl in H.
  - simplify_eq. now split.
  - simpl in Hn. apply andb_true_iff in Hn as [Hn1 Hn2]. apply negb_true_iff in Hn1.
    destruct (step args workers files st c) as [st1|] eqn:E; [|discriminate].
    apply (IH st1 st'); [eapply consistent_step | eapply undisturbed_step | |]; eauto.
Qed.

Lemma exec_work_left cs : forall st st',
  no_cancel cs = true -> exec args workers files st cs = Some st' ->
  (length cs + work_left st' <= work_left st)%nat.
Proof.
  induction cs as [|c cs IH]; intros st st' Hn H; simpl in H.
  - simplify_eq. simpl. lia.
  - simpl in Hn. apply andb_true_iff in Hn as [Hn1 Hn2]. apply negb_true_iff in Hn1.
    destruct (step args workers files st c) as [st1|] eqn:E; [|discriminate].
    pose proof (step_work_left _ _ _ E Hn1). specialize (IH _ _ Hn2 H). simpl. lia.
Qed.

Lemma exec_app cs1 cs2 st :
  exec args workers files st (cs1 ++ cs2) = match exec args workers files st cs1 with
                         | Some st1 => exec args workers files st1 cs2
                         | None => None
                         end.
Proof.
  revert st. induction cs1 as [|c cs1 IH]; intros st; simpl; [reflexivity|].
  destruct (step args workers files st c); [apply IH | reflexivity].
Qed.

(** As long as the batch is not over, some thread can move. *)
Lemma next_move st :
  0 < workers -> phase st <> Finished ->
  exists c st1, is_cancel c = false /\ step args workers files st c = Some st1.
Proof.
  intros Hw Hph.
  destruct (running st) as [|r rs] eqn:Er.
  - destruct (pending st) as [|f fs] eqn:Ep.
    + destruct (phase st) eqn:Eph; [| |congruence].
      * exists LoopTurn. unfold step. rewrite Eph, Ep, Er.
        destruct (completed st) as [|fut rest]; [eauto|].
        destruct (stop_event st); [eauto|]. destruct fut; eauto.
      * exists FinallyBlock. unfold step. rewrite Eph, Ep, Er. eauto.
    + destruct (task quiet_world (stop_event st) args f (syscalls st)) as [r l] eqn:Et.
      exists (TaskStarts quiet_world). eexists. unfold step. rewrite Ep, Er, Et. simpl.
      change (Z.of_nat 0) with 0.
      replace (0 <? workers) with true by (symmetry; apply Z.ltb_lt; lia).
      split; reflexivity.
  - exists (TaskEnds 0%nat). unfold step. rewrite Er. simpl. eauto.
Qed.

Lemma can_finish n : forall st,
  0 < workers -> (work_left st <= n)%nat ->
  exists cs st', no_cancel cs = true /\ exec args workers files st cs = Some st' /\ phase st' = Finished.
Proof.
  induction n as [|n IH]; intros st Hw Hn.
  - exists [], st. repeat split. unfold work_left in Hn. destruct (phase st); [lia..|reflexivity].
  - destruct (phase st) eqn:Eph; [| |exists [], st; now repeat split].
    all: destruct (next_move st Hw ltac:(congruence)) as (c & st1 & Hc & Hs);
      pose proof (step_work_left _ _ _ Hs Hc);
      destruct (IH st1 Hw ltac:(lia)) as (cs & st' & Hcs & He & Hf);
      exists (c :: cs), st'; simpl; rewrite Hc, Hs; auto.
Qed.

End BatchFacts.

(** C1: a batch of N files run with W workers (W at least 1) in which the
    cancellation flag is never set. When the run is over, exactly N Task
    Results have been handed out and shown, one per input file (their sources
    are the input files, each once), N progress events have been emitted, and
    [done = N = ok_count + fail_count]. Such a run is always over after at
    most 3N + 2 moves of the threads, and from every state it reaches it can
    be brought to its end. *)
Theorem batch_without_cancel_delivers_every_file args workers files cs st :
  0 < workers ->
  no_cancel cs = true ->
  _run_batch args workers files cs = Some st ->
  (phase st = Finished ->
     length (delivered st) = length files
     /\ map src_of (delivered st) ≡ₚ files
     /\ length (progress_events (ui_queue st)) = length files
     /\ done st = total files
     /\ ok_count st + fail_count st = total files)
  /\ (length cs <= 3 * length files + 2)%nat
  /\ (exists cs' st',
        no_cancel cs' = true
        /\ _run_batch args workers files (cs ++ cs') = Some st'
        /\ phase st' = Finished).
Proof.
  intros Hw Hn Hrun. unfold _run_batch in *.
  destruct (undisturbed_exec args workers files cs _ _
              (consistent_init workers files) (undisturbed_init workers files Hw) Hn Hrun)
    as [Hc Hu].
  split; [|split].
  - intros Hfin. destruct Hu as [_ Hp]. rewrite Hfin in Hp.
    assert (Hlen : length (delivered st) = length files).
    { rewrite <- (Permutation_length Hp). now rewrite length_map. }
    pose proof (done_count _ _ Hc) as Hd. pose proof (done_split _ _ Hc) as Hs.
    pose proof (progress_count _ _ Hc) as Hpc.
    unfold total. repeat split; try assumption; lia.
  - pose proof (exec_work_left args workers files cs _ _ Hn Hrun) as H.
    assert (Hi : work_left (init workers files) = (3 * length files + 2)%nat).
    { unfold init. replace (workers <=? 0) with false by (symmetry; apply Z.leb_gt; lia).
      unfold work_left. simpl. lia. }
    lia.
  - destruct (can_finish args workers files (work_left st) st Hw (le_n _))
      as (cs' & st' & Hn' & He & Hf).
    exists cs', st'. rewrite exec_app, Hrun. auto.
Qed.









(** The end-to-end scenario, the tasks run one after the other by two
    workers: three results, three successes. *)
Lemma batch_without_cancel_delivers_every_file_witness :
  exists st,
    _run_batch example_args 2 example_files (sequential example_files quiet_world)
    = Some st
    /\ phase st = Finished
    /\ length (delivered st) = length example_files
    /\ map src_of (delivered st) ≡ₚ example_files
    /\ length (progress_events (ui_queue st)) = length example_files
    /\ done st = total example_files
    /\ ok_count st + fail_count st = total example_files.
Proof.
  eexists. split; [vm_compute; reflexivity |]. split; [reflexivity |].
  exact (proj1 (batch_without_cancel_delivers_every_file example_args 2 example_files
                  (sequential example_files quiet_world) _
                  ltac:(lia) eq_refl ltac:(vm_compute; reflexivity))
           eq_refl).
Defined.




(** * Further properties *)

(** ** The command builder: options *)

(** Comparisons of two literals are evaluated. *)
Ltac ground_eqb :=
  repeat match goal with
    | |- context [String.eqb ?a ?b] =>
        let v := eval vm_compute in (String.eqb a b) in
        match v with
        | true => change (String.eqb a b) with true
        | false => change (String.eqb a b) with false
        end
    end;
  cbv iota.

Ltac solve_values :=
  match goal with
  | |- option_values ?o _ = _ => option_values_cases o; reflexivity
  end.

Ltac mode_cases :=
  unfold build_ffmpeg_cmd, stray; ground_eqb;
  repeat match goal with |- context [truthy ?x] => destruct (truthy x) end.

Lemma build_ffmpeg_cmd_last src dst mode sel loud sr br gpu :
  List.last (build_ffmpeg_cmd src dst mode sel loud sr br gpu) EmptyString = path_str dst.
Proof. unfold build_ffmpeg_cmd. cbv zeta. apply last_last. Qed.

Lemma build_ffmpeg_cmd_head src dst mode sel loud sr br gpu :
  hd_error (build_ffmpeg_cmd src dst mode sel loud sr br gpu) = Some "ffmpeg".
Proof.
  unfold build_ffmpeg_cmd.
  destruct gpu, loud; repeat (destruct (String.eqb mode _)); reflexivity.
Qed.

(** X1: options that change nothing in the built command. A sample rate of 0
    and a bitrate of 0 are treated like an absent one, in every mode; mode
    COPY ignores the sample rate and the bitrate altogether, and mode WAV
    ignores the bitrate. *)
Theorem ignored_options src dst mode sel loud sr br gpu :
  build_ffmpeg_cmd src dst mode sel loud (Some 0) br gpu
  = build_ffmpeg_cmd src dst mode sel loud None br gpu
  /\ build_ffmpeg_cmd src dst mode sel loud sr (Some 0) gpu
     = build_ffmpeg_cmd src dst mode sel loud sr None gpu
  /\ build_ffmpeg_cmd src dst "COPY" sel loud sr br gpu
     = build_ffmpeg_cmd src dst "COPY" sel loud None None gpu
  /\ build_ffmpeg_cmd src dst "WAV" sel loud sr br gpu
     = build_ffmpeg_cmd src dst "WAV" sel loud sr None gpu.
Proof.
  repeat split; unfold build_ffmpeg_cmd; ground_eqb; reflexivity.
Qed.

(** X2: the frame of every built command. The output path is the last
    argument; the command starts with [ffmpeg -y], then [-hwaccel cuda] when
    the GPU flag is set and only then, then [-i] and the source path. The
    arguments that follow a [-hwaccel] are [cuda] with the flag and none
    without, those that follow an [-i] are the source path (and in both cases
    the [-vn] that follows the source path, should that path itself be
    spelled like the option). *)
Theorem command_frame src dst mode sel loud sr br gpu :
  let cmd := build_ffmpeg_cmd src dst mode sel loud sr br gpu in
  List.last cmd EmptyString = path_str dst
  /\ firstn (if gpu then 6 else 4)%nat cmd
     = ["ffmpeg"; "-y"] ++ (if gpu then ["-hwaccel"; "cuda"] else [])
         ++ ["-i"; path_str src]
  /\ option_values "-hwaccel" cmd
     = (if gpu then ["cuda"] else []) ++ stray src "-hwaccel"
  /\ option_values "-i" cmd = path_str src :: stray src "-i".
Proof.
  intros cmd; subst cmd. unfold stray. split; [|split; [|split]].
  - apply build_ffmpeg_cmd_last.
  - cases_cmd; destruct gpu, loud; reflexivity.
  - cases_cmd; destruct gpu, loud; option_values_cases "-hwaccel"; reflexivity.
  - cases_cmd; destruct gpu, loud; option_values_cases "-i"; reflexivity.
Qed.

(** X3: the encoder, the bitrate and the quality in the modes MP3 and AAC.
    The arguments of [-c:a] are [libmp3lame] and [aac]; the arguments of
    [-b:a] are the bitrate followed by [k] when a bitrate other than 0 is
    given, and none otherwise; mode AAC passes [-q:a 2] exactly when it
    passes no bitrate, mode MP3 never passes [-q:a]. (Each list also holds
    the [-vn] that follows the source path when that path is spelled like the
    option.) *)
Theorem bitrate_and_quality src dst sel loud sr br gpu :
  let mp3 := build_ffmpeg_cmd src dst "MP3" sel loud sr br gpu in
  let aac := build_ffmpeg_cmd src dst "AAC" sel loud sr br gpu in
  let rate := match truthy br with
              | Some b => [PyStr.str_of_int b +:+ "k"]
              | None => []
              end in
  (option_values "-c:a" mp3 = stray src "-c:a" ++ ["libmp3lame"]
   /\ option_values "-b:a" mp3 = stray src "-b:a" ++ rate
   /\ option_values "-q:a" mp3 = stray src "-q:a")
  /\ (option_values "-c:a" aac = stray src "-c:a" ++ ["aac"]
      /\ option_values "-b:a" aac = stray src "-b:a" ++ rate
      /\ option_values "-q:a" aac
         = stray src "-q:a" ++ match truthy br with Some _ => [] | None => ["2"] end).
Proof.
  intros mp3 aac rate; subst mp3 aac rate. repeat split.
  all: mode_cases; destruct gpu, loud; solve_values.
Qed.

(** X4: the sample rate. The arguments of [-ar] in the built command are
    the sample rate when one other than 0 is given and the mode is MP3, AAC
    or WAV, and none in mode COPY, in any other mode, or without a sample
    rate (the [-vn] after a source path spelled [-ar] apart). *)
Theorem sample_rate_option src dst mode sel loud sr br gpu :
  option_values "-ar" (build_ffmpeg_cmd src dst mode sel loud sr br gpu)
  = stray src "-ar"
      ++ match truthy sr with
         | Some r =>
             if String.eqb mode "COPY" then []
             else if String.eqb mode "MP3" || String.eqb mode "AAC" || String.eqb mode "WAV"
                  then [PyStr.str_of_int r] else []
         | None => []
         end.
Proof.
  unfold stray. cases_cmd; destruct gpu, loud; cbn [orb]; solve_values.
Qed.

(** X5: a mode other than COPY, MP3, AAC and WAV. The built command names no
    encoder (no [-c:a] argument but the [-vn] after a source path spelled
    [-c:a]) and takes neither the sample rate nor the bitrate, while
    [make_out_path] gives the output file the extension [.wav] (shown for
    every file whose stem is a component of its own: not the single dot, no
    slash): the choice of the encoder is left to FFmpeg. *)
Theorem unknown_mode_has_no_codec src dst mode sel loud sr br gpu :
  String.eqb mode "COPY" = false -> String.eqb mode "MP3" = false ->
  String.eqb mode "AAC" = false -> String.eqb mode "WAV" = false ->
  option_values "-c:a" (build_ffmpeg_cmd src dst mode sel loud sr br gpu)
  = stray src "-c:a"
  /\ build_ffmpeg_cmd src dst mode sel loud sr br gpu
     = build_ffmpeg_cmd src dst mode sel loud None None gpu
  /\ (forall w base out dirs nm pt log,
        nm <> EmptyString ->
        PyStr.contains "/" (stem_of nm) = false /\ stem_of nm <> "." ->
        well_behaved w ->
        exists log',
          make_out_path w (file_under base dirs nm) base out pt mode sel log
          = (Returned (mkPath (root out)
                         (parts out ++ (if pt then dirs else [])
                            ++ [stem_of (stem_of nm) +:+ ".wav"])),
             log')).
Proof.
  intros H1 H2 H3 H4. split; [|split].
  - unfold build_ffmpeg_cmd, stray. rewrite H1, H2, H3, H4.
    destruct gpu, loud; solve_values.
  - unfold build_ffmpeg_cmd. rewrite H1, H2, H3, H4. reflexivity.
  - intros w base out dirs nm pt log Hnm Hflat Hw.
    destruct (make_out_path_layout w base out dirs nm pt mode sel log Hnm Hflat Hw)
      as (codec & log' & E & _).
    exists log'. unfold file_under. rewrite E. unfold extension_for.
    now rewrite H1, H2, H3.
Qed.

(** A mode the window does not offer: no encoder is named, and the file
    gets the extension [.wav]. *)
Lemma unknown_mode_has_no_codec_witness :
  option_values "-c:a"
    (build_ffmpeg_cmd (of_str "/in/a.mp4") (of_str "/out/a.wav") "FLAC" "a:0"
       false (Some 44100) (Some 192) false)
  = []
  /\ build_ffmpeg_cmd (of_str "/in/a.mp4") (of_str "/out/a.wav") "FLAC" "a:0"
       false (Some 44100) (Some 192) false
     = ["ffmpeg"; "-y"; "-i"; "/in/a.mp4"; "-vn"; "-sn"; "-dn"; "-map"; "0:a:0";
        "/out/a.wav"]
  /\ exists log',
       make_out_path quiet_world (file_under (of_str "/in") [] "a.mp4") (of_str "/in")
         (of_str "/out") true "FLAC" "a:0" []
       = (Returned (of_str "/out/a.wav"), log').
Proof.
  pose proof (unknown_mode_has_no_codec (of_str "/in/a.mp4") (of_str "/out/a.wav") "FLAC"
                "a:0" false (Some 44100) (Some 192) false
                eq_refl eq_refl eq_refl eq_refl) as H.
  split; [exact (proj1 H) |]. split; [exact (proj1 (proj2 H)) |].
  exact (proj2 (proj2 H) quiet_world (of_str "/in") (of_str "/out") [] "a.mp4" true []
           ltac:(discriminate) ltac:(split; [reflexivity | vm_compute; discriminate])
           quiet_world_well_behaved).
Defined.

(** ** The tool check *)

(** The outcomes of [ff_tools_ok]. *)
Lemma ff_tools_ok_table w log :
  let v1 := Spawn ["ffmpeg"; "-version"] in
  let v2 := Spawn ["ffprobe"; "-version"] in
  match popen w ["ffmpeg"; "-version"] with
  | Raised e => ff_tools_ok w log = (Raised e, log ++ [v1])
  | Returned (c1, _, _) =>
      if negb (c1 =? 0)
      then ff_tools_ok w log
           = (Returned (false, "ffmpeg tidak ditemukan di PATH."), log ++ [v1])
      else match popen w ["ffprobe"; "-version"] with
           | Raised e => ff_tools_ok w log = (Raised e, log ++ [v1; v2])
           | Returned (c2, _, _) =>
               ff_tools_ok w log
               = (Returned (if negb (c2 =? 0)
                            then (false, "ffprobe tidak ditemukan di PATH.")
                            else (true, EmptyString)),
                  log ++ [v1; v2])
           end
  end.
Proof.
  intros v1 v2. unfold ff_tools_ok, check_tools, run_cmd, mbind, M_bind, mret, M_ret.
  destruct (popen w ["ffmpeg"; "-version"]) as [[[c1 o1] e1]|e]; [|reflexivity].
  destruct (negb (c1 =? 0)); [reflexivity|].
  destruct (popen w ["ffprobe"; "-version"]) as [[[c2 o2] e2]|e]; rewrite <- app_assoc;
    [|reflexivity].
  destruct (negb (c2 =? 0)); reflexivity.
Qed.

(** What a verdict of the tool check tells. *)
Lemma ff_tools_ok_inversion w log ok msg log' :
  ff_tools_ok w log = (Returned (ok, msg), log') ->
  (ok = true
   <-> (exists o1 e1, popen w ["ffmpeg"; "-version"] = Returned (0, o1, e1))
       /\ (exists o2 e2, popen w ["ffprobe"; "-version"] = Returned (0, o2, e2)))
  /\ (ok = true ->
      msg = EmptyString
      /\ log' = log ++ [Spawn ["ffmpeg"; "-version"]; Spawn ["ffprobe"; "-version"]])
  /\ (ok = false ->
      exists tool c o e,
        popen w [tool; "-version"] = Returned (c, o, e) /\ c <> 0
        /\ msg = tool +:+ " tidak ditemukan di PATH."
        /\ ((tool = "ffmpeg" /\ log' = log ++ [Spawn ["ffmpeg"; "-version"]])
            \/ (tool = "ffprobe"
                /\ log' = log ++ [Spawn ["ffmpeg"; "-version"];
                                  Spawn ["ffprobe"; "-version"]]))).
Proof.
  intros H. pose proof (ff_tools_ok_table w log) as T. cbv zeta in T.
  destruct (popen w ["ffmpeg"; "-version"]) as [[[c1 o1] e1]|e1] eqn:E1;
    [|rewrite T in H; discriminate].
  destruct (c1 =? 0) eqn:Ec1; simpl in T.
  - apply Z.eqb_eq in Ec1. subst c1.
    destruct (popen w ["ffprobe"; "-version"]) as [[[c2 o2] e2]|e2] eqn:E2;
      [|rewrite T in H; discriminate].
    rewrite T in H. destruct (c2 =? 0) eqn:Ec2; simpl in H; injection H as <- <- <-.
    + apply Z.eqb_eq in Ec2. subst c2.
      split; [split; [eauto 6 | reflexivity] |]. split; [auto | discriminate].
    + apply Z.eqb_neq in Ec2.
      split; [split; [discriminate | intros (_ & ? & ? & [= ?]); contradiction] |].
      split; [discriminate|]. intros _. exists "ffprobe", c2, o2, e2.
      repeat split; auto.
  - apply Z.eqb_neq in Ec1. rewrite T in H. injection H as <- <- <-.
    split; [split; [discriminate | intros ((? & ? & [= ?]) & _); contradiction] |].
    split; [discriminate|]. intros _. exists "ffmpeg", c1, o1, e1.
    repeat split; auto.
Qed.

(** X6: the verdict of [ff_tools_ok], when it returns one. The verdict is
    [True] exactly when [ffmpeg -version] and [ffprobe -version] both exit
    with code 0; then the message is empty and both programs have been run,
    in this order. A verdict [False] names a tool that did start and exited
    with a code other than 0, in the text [<tool> tidak ditemukan di PATH.];
    when that tool is [ffmpeg], [ffprobe] has not been run. *)
Theorem ff_tools_ok_verdict w log ok msg log' :
  ff_tools_ok w log = (Returned (ok, msg), log') ->
  (ok = true
   <-> (exists o1 e1, popen w ["ffmpeg"; "-version"] = Returned (0, o1, e1))
       /\ (exists o2 e2, popen w ["ffprobe"; "-version"] = Returned (0, o2, e2)))
  /\ (ok = true ->
      msg = EmptyString
      /\ log' = log ++ [Spawn ["ffmpeg"; "-version"]; Spawn ["ffprobe"; "-version"]])
  /\ (ok = false ->
      exists tool c o e,
        popen w [tool; "-version"] = Returned (c, o, e) /\ c <> 0
        /\ msg = tool +:+ " tidak ditemukan di PATH."
        /\ ((tool = "ffmpeg" /\ log' = log ++ [Spawn ["ffmpeg"; "-version"]])
            \/ (tool = "ffprobe"
                /\ log' = log ++ [Spawn ["ffmpeg"; "-version"];
                                  Spawn ["ffprobe"; "-version"]]))).
Proof. apply ff_tools_ok_inversion. Qed.

(** Both tools answer: the verdict is [True]. *)
Lemma ff_tools_ok_verdict_witness :
  ff_tools_ok quiet_world []
  = (Returned (true, EmptyString),
     [Spawn ["ffmpeg"; "-version"]; Spawn ["ffprobe"; "-version"]])
  /\ (exists o1 e1, popen quiet_world ["ffmpeg"; "-version"] = Returned (0, o1, e1))
  /\ (exists o2 e2, popen quiet_world ["ffprobe"; "-version"] = Returned (0, o2, e2)).
Proof.
  split; [reflexivity |].
  exact (proj1 (proj1 (ff_tools_ok_verdict quiet_world [] true EmptyString _ eq_refl))
           eq_refl).
Defined.

(** X7: a tool that cannot be started. [ff_tools_ok] raises an exception
    exactly when starting [ffmpeg -version] raises it, or [ffmpeg -version]
    exits with code 0 and starting [ffprobe -version] raises it; nothing is
    run after the failed start. So a program missing from the search path
    (for which [Popen] raises) never gives the verdict [False]. *)
Theorem ff_tools_ok_raises_iff w log e log' :
  ff_tools_ok w log = (Raised e, log')
  <-> (popen w ["ffmpeg"; "-version"] = Raised e
       /\ log' = log ++ [Spawn ["ffmpeg"; "-version"]])
      \/ ((exists o1 e1, popen w ["ffmpeg"; "-version"] = Returned (0, o1, e1))
          /\ popen w ["ffprobe"; "-version"] = Raised e
          /\ log' = log ++ [Spawn ["ffmpeg"; "-version"]; Spawn ["ffprobe"; "-version"]]).
Proof.
  pose proof (ff_tools_ok_table w log) as T. cbv zeta in T.
  destruct (popen w ["ffmpeg"; "-version"]) as [[[c1 o1] e1]|e0] eqn:E1.
  - destruct (c1 =? 0) eqn:Ec1; simpl in T.
    + apply Z.eqb_eq in Ec1. subst c1.
      destruct (popen w ["ffprobe"; "-version"]) as [[[c2 o2] e2]|e0] eqn:E2; rewrite T.
      * split; [destruct (negb (c2 =? 0)); discriminate|].
        intros [[[=] _]|(_ & [=] & _)].
      * split.
        -- intros [= <- <-]. right. eauto 6.
        -- intros [[[=] _]|(_ & [= <-] & ->)]. reflexivity.
    + apply Z.eqb_neq in Ec1. rewrite T. split; [discriminate|].
      intros [[[=] _]|((? & ? & [= ?]) & _)]. contradiction.
  - rewrite T. split.
    + intros [= <- <-]. now left.
    + intros [[[= <-] ->]|((? & ? & [=]) & _)]. reflexivity.
Qed.

(** ** Stripping white space *)

Section StripFacts.
Import PyStr.

Lemma string_rev_app s acc : String.rev_app s acc = String.rev s +:+ acc.
Proof.
  unfold String.rev. revert acc. induction s as [|c s IH]; intros acc; simpl; [reflexivity|].
  rewrite IH, (IH (String c EmptyString)).
  generalize (String.rev_app s EmptyString). intros t.
  induction t as [|d t IHt]; [reflexivity|]. rewrite !append_cons. now rewrite IHt.
Qed.

Lemma string_rev_cons c s : String.rev (String c s) = String.rev s +:+ String c EmptyString.
Proof. unfold String.rev at 1. simpl. apply string_rev_app. Qed.

Lemma has_nonspace_app s t : has_nonspace (s +:+ t) = has_nonspace s || has_nonspace t.
Proof.
  induction s as [|c s IH]; [reflexivity|]. rewrite append_cons. simpl.
  now rewrite IH, orb_assoc.
Qed.

Lemma has_nonspace_rev s : has_nonspace (String.rev s) = has_nonspace s.
Proof.
  induction s as [|c s IH]; [reflexivity|].
  rewrite string_rev_cons, has_nonspace_app, IH. simpl. rewrite orb_false_r. apply orb_comm.
Qed.

Lemma has_nonspace_lstrip s : has_nonspace (lstrip s) = has_nonspace s.
Proof.
  induction s as [|c s IH]; [reflexivity|]. simpl.
  destruct (is_space c) eqn:E; simpl; [exact IH | now rewrite E].
Qed.

Lemma has_nonspace_strip s : has_nonspace (strip s) = has_nonspace s.
Proof.
  unfold strip, rstrip.
  now rewrite has_nonspace_rev, has_nonspace_lstrip, has_nonspace_rev, has_nonspace_lstrip.
Qed.

Lemma lstrip_blank s : has_nonspace s = false -> lstrip s = EmptyString.
Proof.
  induction s as [|c s IH]; [reflexivity|]. simpl. intros H.
  apply orb_false_elim in H as [Hc Hs]. apply negb_false_iff in Hc. rewrite Hc. auto.
Qed.

Lemma strip_blank s : has_nonspace s = false -> strip s = EmptyString.
Proof. intros H. unfold strip, rstrip. now rewrite (lstrip_blank s H). Qed.

Lemma head_ok_lstrip s : head_ok (lstrip s) = true.
Proof.
  induction s as [|c s IH]; [reflexivity|]. simpl.
  destruct (is_space c) eqn:E; [exact IH | simpl; now rewrite E].
Qed.

(** [lstrip] removes a prefix of white space. *)
Lemma lstrip_split s : exists ws, s = ws +:+ lstrip s /\ has_nonspace ws = false.
Proof.
  induction s as [|c s (ws & Hs & Hw)]; [exists EmptyString; now split|].
  simpl. destruct (is_space c) eqn:E.
  - exists (String c ws). rewrite append_cons, <- Hs. split; [reflexivity|].
    simpl. now rewrite E, Hw.
  - exists EmptyString. now split.
Qed.

Lemma string_rev_append s t : String.rev (s +:+ t) = String.rev t +:+ String.rev s.
Proof.
  induction s as [|c s IH].
  - change (EmptyString +:+ t) with t. now rewrite append_empty_r.
  - rewrite append_cons, !string_rev_cons, IH.
    generalize (String.rev t) (String.rev s). intros a b.
    induction a as [|d a IHa]; [reflexivity|]. rewrite !append_cons. now rewrite IHa.
Qed.

Lemma string_rev_involutive s : String.rev (String.rev s) = s.
Proof.
  induction s as [|c s IH]; [reflexivity|]. now rewrite string_rev_cons, string_rev_append, IH.
Qed.

Lemma head_ok_app s t : s <> EmptyString -> head_ok (s +:+ t) = head_ok s.
Proof. destruct s; [congruence | reflexivity]. Qed.

(** A stripped string neither starts nor ends with white space. *)
Lemma head_ok_strip s : head_ok (strip s) = true.
Proof.
  unfold strip, rstrip. set (u := lstrip s).
  destruct (lstrip_split (String.rev u)) as (ws & Hsplit & Hws).
  set (v := lstrip (String.rev u)) in *.
  destruct v as [|c v'] eqn:Ev; [reflexivity|].
  assert (Hu : u = String.rev (String c v') +:+ String.rev ws).
  { rewrite <- string_rev_append, <- Hsplit. now rewrite string_rev_involutive. }
  assert (Hne : String.rev (String c v') <> EmptyString).
  { rewrite string_rev_cons. intros E. apply (f_equal String.length) in E.
    rewrite length_append in E. simpl in E. lia. }
  rewrite <- (head_ok_app _ (String.rev ws) Hne), <- Hu. apply head_ok_lstrip.
Qed.

Lemma linebreak_is_space c : is_linebreak c = true -> is_space c = true.
Proof.
  destruct c as [[] [] [] [] [] [] [] []]; vm_compute; congruence.
Qed.

(** The first line of a string that starts with a visible character starts
    with that character. *)
Lemma splitlines_head c r :
  is_space c = false ->
  exists first rest, splitlines (String c r) = String c first :: rest.
Proof.
  intros Hc. simpl.
  destruct (is_linebreak c) eqn:E; [apply linebreak_is_space in E; congruence|].
  destruct (splitlines r); eauto.
Qed.

End StripFacts.

(** ** The probe *)

(** X8: what the probe returns. When [ffprobe] can be started,
    [detect_audio_codec] returns after that one run; it returns no codec
    exactly when the exit code is not 0 or the output holds nothing but white
    space; a codec it returns is not the empty string and does not start
    with white space, so the [codec or "aac"] of [make_out_path] keeps it. *)
Theorem detected_codec_is_not_blank w file sel log code so se :
  popen w (probe_cmd file sel) = Returned (code, so, se) ->
  exists result,
    detect_audio_codec w file sel log = (Returned result, log ++ [Spawn (probe_cmd file sel)])
    /\ (result = None <-> code <> 0 \/ has_nonspace so = false)
    /\ (forall codec, result = Some codec ->
          codec <> EmptyString /\ head_ok codec = true
          /\ PyStr.or_else result "aac" = codec).
Proof.
  intros Hp. unfold detect_audio_codec, run_cmd, mbind, M_bind, mret, M_ret. rewrite Hp.
  destruct (Z.eqb_spec code 0) as [->|Hc].
  - destruct (has_nonspace so) eqn:Hso.
    + pose proof (has_nonspace_strip so) as Hs. rewrite Hso in Hs.
      pose proof (head_ok_strip so) as Hh.
      destruct (PyStr.strip so) as [|c r] eqn:Est; [discriminate|].
      simpl in Hh. apply negb_true_iff in Hh.
      destruct (splitlines_head c r Hh) as (first & rest & ->).
      eexists; split; [reflexivity|]. split.
      * split; [discriminate | intros [?|?]; congruence].
      * intros codec [= <-].
        assert (Hn : has_nonspace (PyStr.strip (String c first)) = true).
        { rewrite has_nonspace_strip. simpl. now rewrite Hh. }
        pose proof (head_ok_strip (String c first)) as Hh'.
        destruct (PyStr.strip (String c first)); [discriminate|]. repeat split; auto; discriminate.
    + rewrite (strip_blank so Hso). simpl.
      eexists; split; [reflexivity|]. split; [split; auto | discriminate].
  - eexists; split; [reflexivity|]. split; [split; auto | discriminate].
Qed.

(** The probe prints [flac] and a line feed. *)
Lemma detected_codec_is_not_blank_witness :
  exists result,
    detect_audio_codec flac_world (of_str "/in/a.mkv") "a:0" []
    = (Returned result, [] ++ [Spawn (probe_cmd (of_str "/in/a.mkv") "a:0")])
    /\ (result = None <-> 0 <> 0 \/ has_nonspace ("flac" +:+ newline) = false)
    /\ (forall codec, result = Some codec ->
          codec <> EmptyString /\ head_ok codec = true
          /\ PyStr.or_else result "aac" = codec).
Proof.
  exact (detected_codec_is_not_blank flac_world (of_str "/in/a.mkv") "a:0" []
           0 ("flac" +:+ newline) EmptyString eq_refl).
Defined.

(** ** The system calls of a task *)

Ltac name_calls :=
  rewrite <- ?app_assoc; cbn [app];
  lazymatch goal with
  | |- context [?l ++ [Spawn ?p; Mkdir (parent ?d); Spawn ?c]] =>
      exists [Spawn p], [Mkdir (parent d); Spawn c]
  | |- context [?l ++ [Spawn ?p; Mkdir (parent ?d)]] => exists [Spawn p], [Mkdir (parent d)]
  | |- context [?l ++ [Mkdir (parent ?d); Spawn ?c]] =>
      exists (@nil Call), [Mkdir (parent d); Spawn c]
  | |- context [?l ++ [Mkdir (parent ?d)]] => exists (@nil Call), [Mkdir (parent d)]
  | |- context [?l ++ [Spawn ?p]] => exists [Spawn p], (@nil Call)
  | |- _ => exists (@nil Call), (@nil Call)
  end.

Lemma process_one_calls w src base out pt mode sel loud sr br gpu log :
  exists probe rest,
    (process_one w src base out pt mode sel loud sr br gpu log).2 = log ++ probe ++ rest
    /\ (probe = []
        \/ (probe = [Spawn (probe_cmd src sel)] /\ String.eqb mode "COPY" = true))
    /\ (rest = []
        \/ exists dst,
             rest = [Mkdir (parent dst)]
             \/ rest = [Mkdir (parent dst);
                        Spawn (build_ffmpeg_cmd src dst mode sel loud sr br gpu)]).
Proof.
  unfold process_one, try_except, make_out_path, detect_audio_codec, run_cmd, mkdir_parents,
    mbind, M_bind, mret, M_ret, lift.
  destruct pt; [destruct (relative_to src base) as [rel|?];
                [destruct (with_suffix rel EmptyString) as [stem|?]|]|].
  all: destruct (String.eqb mode "COPY") eqn:Em;
    [destruct (popen w (probe_cmd src sel)) as [[[code so] se]|?];
       [destruct (code =? 0); [destruct (PyStr.splitlines (PyStr.strip so))|]|]
    | destruct (String.eqb mode "MP3"); [|destruct (String.eqb mode "AAC")]].
  all: cbn beta iota.
  all: try match goal with
       | |- context [with_suffix ?p ?x] => destruct (with_suffix p x) as [dst|?]
       end.
  all: try match goal with
       | |- context [mkdir_p ?w0 ?d] => destruct (mkdir_p w0 d) as [[]|?]
       end.
  all: try match goal with
       | |- context [popen ?w0 (build_ffmpeg_cmd ?a ?b ?c ?d ?e ?f ?g ?h)] =>
           destruct (popen w0 (build_ffmpeg_cmd a b c d e f g h)) as [[[c2 o2] e2]|?];
           [destruct (negb (c2 =? 0))|]
       end.
  all: cbn [snd].
  all: name_calls.
  all: (split; [rewrite ?app_nil_r; reflexivity |]).
  all: split; [first [left; reflexivity | right; split; reflexivity]
              | first [left; reflexivity | right; eexists; left; reflexivity
                      | right; eexists; right; reflexivity]].
Qed.

(** X9: the system calls of [process_one], whatever the system answers and
    whether it succeeds or not: at most one probe of the source, and that in
    mode COPY only; then nothing more, or the creation of the parent
    directory of an output path, or that creation followed by one run of the
    command built for the source and that output path. Nothing else is
    called, and nothing after the FFmpeg run. *)
Theorem process_one_call_discipline w src base out pt mode sel loud sr br gpu log :
  exists probe rest,
    (process_one w src base out pt mode sel loud sr br gpu log).2 = log ++ probe ++ rest
    /\ (probe = []
        \/ (probe = [Spawn (probe_cmd src sel)] /\ String.eqb mode "COPY" = true))
    /\ (rest = []
        \/ exists dst,
             rest = [Mkdir (parent dst)]
             \/ rest = [Mkdir (parent dst);
                        Spawn (build_ffmpeg_cmd src dst mode sel loud sr br gpu)]).
Proof. apply process_one_calls. Qed.

(** X10: a successful result. When [process_one] reports success,
    [make_out_path] has returned an output path, the command built for the
    source and that path has been run as the last system call and has exited
    with code 0, the result names the source, and its message is the output
    path, which is also the last argument of the command that was run. *)
Theorem process_one_success_means_transcoded
    w src base out pt mode sel loud sr br gpu log s msg log' :
  process_one w src base out pt mode sel loud sr br gpu log
  = (Returned (s, true, msg), log') ->
  exists dst log1 so se,
    make_out_path w src base out pt mode sel log = (Returned dst, log1)
    /\ popen w (build_ffmpeg_cmd src dst mode sel loud sr br gpu) = Returned (0, so, se)
    /\ log' = log1 ++ [Spawn (build_ffmpeg_cmd src dst mode sel loud sr br gpu)]
    /\ s = src
    /\ msg = path_str dst
    /\ List.last (build_ffmpeg_cmd src dst mode sel loud sr br gpu) EmptyString = msg.
Proof.
  unfold process_one, try_except, mbind, M_bind, mret, M_ret.
  destruct (make_out_path w src base out pt mode sel log) as [[dst|?] log1];
    [|intros [=]].
  unfold run_cmd.
  destruct (popen w (build_ffmpeg_cmd src dst mode sel loud sr br gpu))
    as [[[code so] se]|?] eqn:Ep; [|intros [=]].
  destruct (Z.eqb_spec code 0) as [->|Hc]; simpl; intros [= <- <- <-].
  exists dst, log1, so, se.
  repeat split; first [assumption | reflexivity | apply build_ffmpeg_cmd_last].
Qed.

(** A file of the end-to-end scenario in a world where every program exits
    with code 0. *)
Lemma process_one_success_means_transcoded_witness :
  exists s msg log',
    process_one quiet_world (of_str "/in/a.mp4") (of_str "/in") (of_str "/out")
      true "MP3" "a:0" false None (Some 192) false []
    = (Returned (s, true, msg), log')
    /\ exists dst log1 so se,
         make_out_path quiet_world (of_str "/in/a.mp4") (of_str "/in") (of_str "/out")
           true "MP3" "a:0" []
         = (Returned dst, log1)
         /\ popen quiet_world
              (build_ffmpeg_cmd (of_str "/in/a.mp4") dst "MP3" "a:0" false None
                 (Some 192) false)
            = Returned (0, so, se)
         /\ log' = log1 ++ [Spawn (build_ffmpeg_cmd (of_str "/in/a.mp4") dst "MP3" "a:0"
                                     false None (Some 192) false)]
         /\ s = of_str "/in/a.mp4"
         /\ msg = path_str dst
         /\ List.last (build_ffmpeg_cmd (of_str "/in/a.mp4") dst "MP3" "a:0" false None
                         (Some 192) false) EmptyString
            = msg.
Proof.
  eexists _, _, _. split; [vm_compute; reflexivity |].
  exact (process_one_success_means_transcoded quiet_world (of_str "/in/a.mp4")
           (of_str "/in") (of_str "/out") true "MP3" "a:0" false None (Some 192) false []
           _ _ _ ltac:(vm_compute; reflexivity)).
Defined.

(** ** Two sources, one output *)

(** X11: output paths collide. In a mode other than COPY, for two source
    files whose names have the same stem and which lie in the same directory
    (the tree preserved) or anywhere below the input root (the tree
    flattened), [make_out_path] does the same: the same result or the same
    exception, and the same system calls, in any world. When the stem is a
    component of its own (not the single dot, no slash) and the system is
    well behaved, both calls return, and they return the same output path:
    the names of their directories, when flattened, and their own extensions
    do not tell the two files apart. *)
Theorem same_stem_same_output w base out dirs1 dirs2 nm1 nm2 pt mode sel log :
  nm1 <> EmptyString -> nm2 <> EmptyString ->
  stem_of nm1 = stem_of nm2 ->
  (pt = true -> dirs1 = dirs2) ->
  String.eqb mode "COPY" = false ->
  make_out_path w (file_under base dirs1 nm1) base out pt mode sel log
  = make_out_path w (file_under base dirs2 nm2) base out pt mode sel log
  /\ (PyStr.contains "/" (stem_of nm1) = false /\ stem_of nm1 <> "." ->
      well_behaved w ->
      forall log1 log2,
      exists dst,
        (make_out_path w (file_under base dirs1 nm1) base out
           pt mode sel log1).1 = Returned dst
        /\ (make_out_path w (file_under base dirs2 nm2) base out
              pt mode sel log2).1 = Returned dst).
Proof.
  intros H1 H2 Hst Hd Hm. split.
  - unfold make_out_path, file_under. rewrite Hm.
    unfold mbind at 1 3, M_bind at 1 3.
    assert (Hstem :
      (if pt then
         rel ← lift (relative_to (mkPath (root base) (parts base ++ dirs1 ++ [nm1])) base);
         lift (with_suffix rel EmptyString)
       else mret (of_str (PurePath.stem (mkPath (root base) (parts base ++ dirs1 ++ [nm1])))))
        log
      = (if pt then
           rel ← lift (relative_to (mkPath (root base) (parts base ++ dirs2 ++ [nm2])) base);
           lift (with_suffix rel EmptyString)
         else mret (of_str (PurePath.stem (mkPath (root base) (parts base ++ dirs2 ++ [nm2])))))
          log).
    { destruct pt.
      - rewrite (Hd eq_refl). unfold mbind, M_bind, lift. rewrite !relative_to_under.
        rewrite !with_suffix_last by auto. now rewrite Hst.
      - unfold mret, M_ret, PurePath.stem, name. cbn [parts].
        rewrite !app_assoc, !last_last. now rewrite Hst. }
    rewrite Hstem. reflexivity.
  - intros Hflat Hw log1 log2.
    destruct (make_out_path_layout w base out dirs1 nm1 pt mode sel log1 H1 Hflat Hw)
      as (c1 & l1 & E1 & _).
    assert (Hflat2 : PyStr.contains "/" (stem_of nm2) = false /\ stem_of nm2 <> ".")
      by (rewrite <- Hst; exact Hflat).
    destruct (make_out_path_layout w base out dirs2 nm2 pt mode sel log2 H2 Hflat2 Hw)
      as (c2 & l2 & E2 & _).
    assert (Hext : forall c, extension_for mode c = extension_for mode None)
      by (intros c; unfold extension_for; now rewrite Hm).
    unfold file_under. rewrite E1, E2, <- Hst, (Hext c1), (Hext c2).
    assert (Hdirs : (if pt then dirs1 else []) = (if pt then dirs2 else [])).
    { destruct pt; [now rewrite Hd | reflexivity]. }
    rewrite Hdirs. eexists; split; reflexivity.
Qed.

(** Two videos of one directory that differ in their extension, and two
    whose stem is the single dot, directly under the input root, with the
    output root [/]: both calls raise the same exception. *)
Lemma same_stem_same_output_witness :
  (make_out_path quiet_world (file_under (of_str "/in") ["x"] "a.mp4") (of_str "/in")
     (of_str "/out") true "MP3" "a:0" []
   = make_out_path quiet_world (file_under (of_str "/in") ["x"] "a.mkv") (of_str "/in")
       (of_str "/out") true "MP3" "a:0" []
   /\ exists dst,
        (make_out_path quiet_world (file_under (of_str "/in") ["x"] "a.mp4") (of_str "/in")
           (of_str "/out") true "MP3" "a:0" []).1 = Returned dst
        /\ (make_out_path quiet_world (file_under (of_str "/in") ["x"] "a.mkv") (of_str "/in")
              (of_str "/out") true "MP3" "a:0" []).1 = Returned dst)
  /\ (make_out_path quiet_world (file_under (of_str "/in") [] "..mp4") (of_str "/in")
        (of_str "/") true "MP3" "a:0" []
      = make_out_path quiet_world (file_under (of_str "/in") [] "..mkv") (of_str "/in")
          (of_str "/") true "MP3" "a:0" []
      /\ make_out_path quiet_world (file_under (of_str "/in") [] "..mkv") (of_str "/in")
           (of_str "/") true "MP3" "a:0" []
         = (Raised (Exn "ValueError" "PosixPath('/') has an empty name"), [])).
Proof.
  pose proof (same_stem_same_output quiet_world (of_str "/in") (of_str "/out") ["x"] ["x"]
                "a.mp4" "a.mkv" true "MP3" "a:0" []
                ltac:(discriminate) ltac:(discriminate) eq_refl
                ltac:(reflexivity) eq_refl) as [E R].
  split.
  - split; [exact E |].
    exact (R ltac:(split; [reflexivity | vm_compute; discriminate])
             quiet_world_well_behaved [] []).
  - split; [| vm_compute; reflexivity].
    exact (proj1 (same_stem_same_output quiet_world (of_str "/in") (of_str "/") [] []
                    "..mp4" "..mkv" true "MP3" "a:0" []
                    ltac:(discriminate) ltac:(discriminate) eq_refl
                    ltac:(reflexivity) eq_refl)).
Defined.

(** ** Scanning *)

Lemma Node_induction (P : Node -> Prop) :
  (forall nm, P (File nm)) -> (forall nm, P (Other nm)) ->
  (forall nm entries, Forall P entries -> P (Dir nm entries)) ->
  forall n, P n.
Proof.
  intros Hf Ho Hd. fix IH 1. intros [nm|nm|nm entries]; [apply Hf | apply Ho |].
  apply Hd. induction entries as [|n entries IHe]; constructor; [apply IH | exact IHe].
Qed.

Lemma under_child dir nm dirs x :
  file_under (make_child dir nm) dirs x = file_under dir (nm :: dirs) x.
Proof. unfold file_under, make_child. simpl. now rewrite <- app_assoc. Qed.

Lemma in_glob_star dir entries p n :
  In (p, n) (glob_star dir entries) <-> In n entries /\ p = file_under dir [] (node_name n).
Proof.
  unfold glob_star. rewrite in_map_iff. split.
  - intros (m & [= <- <-] & Hin). now split.
  - intros (Hin & ->). now exists n.
Qed.

Lemma in_below n : forall dir p m,
  In (p, m) (below dir n)
  <-> exists nm entries dirs,
        n = Dir nm entries /\ located entries dirs m
        /\ p = file_under dir (nm :: dirs) (node_name m).
Proof.
  induction n as [nm|nm|nm entries IH] using Node_induction; intros dir p m.
  1,2: split; [intros [] | intros (? & ? & ? & [=] & _)].
  simpl. rewrite in_app_iff, in_glob_star, in_flat_map. split.
  - intros [(Hin & ->)|(c & Hc & Hin)].
    + exists nm, entries, []. repeat split; [now constructor | apply under_child].
    + rewrite List.Forall_forall in IH. apply (IH c Hc) in Hin.
      destruct Hin as (nm' & sub & dirs & -> & Hloc & ->).
      exists nm, entries, (nm' :: dirs). repeat split; [|apply under_child].
      econstructor; eauto.
  - intros (nm0 & entries0 & dirs & [= <- <-] & Hloc & ->).
    inversion Hloc as [? ? Hin|? nm' sub dirs' ? Hin Hsub]; subst.
    + left. split; [assumption | symmetry; apply under_child].
    + right. exists (Dir nm' sub). split; [assumption|].
      rewrite List.Forall_forall in IH. apply (IH _ Hin).
      exists nm', sub, dirs'. repeat split; [assumption|]. symmetry. apply under_child.
Qed.

Lemma in_rglob_star dir entries p m :
  In (p, m) (rglob_star dir entries)
  <-> exists dirs, located entries dirs m /\ p = file_under dir dirs (node_name m).
Proof.
  unfold rglob_star. rewrite in_app_iff, in_glob_star, in_flat_map. split.
  - intros [(Hin & ->)|(c & Hc & Hin)].
    + exists []. split; [now constructor | reflexivity].
    + apply in_below in Hin. destruct Hin as (nm & sub & dirs & -> & Hloc & ->).
      exists (nm :: dirs). split; [econstructor; eauto | reflexivity].
  - intros (dirs & Hloc & ->).
    inversion Hloc as [? ? Hin|? nm' sub dirs' ? Hin Hsub]; subst.
    + now left.
    + right. exists (Dir nm' sub). split; [assumption|]. apply in_below.
      exists nm', sub, dirs'. now repeat split.
Qed.

Lemma name_under dir dirs nm : name (file_under dir dirs nm) = nm.
Proof. unfold name, file_under. simpl. now rewrite !app_assoc, last_last. Qed.

Lemma in_scan_files entries input_dir recursive p :
  In p (scan_files entries input_dir recursive)
  <-> exists dirs nm,
        located entries dirs (File nm)
        /\ (recursive = false -> dirs = [])
        /\ lower (suffix_of nm) ∈ VIDEO_EXTS
        /\ p = file_under input_dir dirs nm.
Proof.
  unfold scan_files. destruct recursive; rewrite in_map_iff; split.
  - intros ([q m] & <- & Hin). apply filter_In in Hin as [Hin Hv].
    apply in_rglob_star in Hin as (dirs & Hloc & ->).
    unfold is_video in Hv. simpl in Hv. apply andb_true_iff in Hv as [Hf Hs].
    destruct m as [nm| |]; try discriminate. simpl in *.
    apply bool_decide_eq_true in Hs. unfold PurePath.suffix in Hs. rewrite name_under in Hs.
    exists dirs, nm. repeat split; auto. discriminate.
  - intros (dirs & nm & Hloc & _ & Hs & ->).
    exists (file_under input_dir dirs nm, File nm). split; [reflexivity|].
    apply filter_In. split; [apply in_rglob_star; now exists dirs|].
    unfold is_video. simpl. apply bool_decide_eq_true. unfold PurePath.suffix.
    now rewrite name_under.
  - intros ([q m] & <- & Hin). apply filter_In in Hin as [Hin Hv].
    apply in_glob_star in Hin as (Hin & ->).
    unfold is_video in Hv. simpl in Hv. apply andb_true_iff in Hv as [Hf Hs].
    destruct m as [nm| |]; try discriminate. simpl in *.
    apply bool_decide_eq_true in Hs. unfold PurePath.suffix in Hs. rewrite name_under in Hs.
    exists [], nm. repeat split; auto. now constructor.
  - intros (dirs & nm & Hloc & Hd & Hs & ->). rewrite (Hd eq_refl) in *.
    inversion Hloc; subst.
    exists (file_under input_dir [] nm, File nm). split; [reflexivity|].
    apply filter_In. split; [apply in_glob_star; now split|].
    unfold is_video. simpl. apply bool_decide_eq_true. unfold PurePath.suffix.
    now rewrite name_under.
Qed.

(** X12: what a scan finds. A path is in the result of [scan_files] exactly
    when it is the path, below the input directory, of a regular file of the
    tree whose suffix, in lower case, is one of the six video extensions;
    without [recursive] the file lies in the input directory itself. So the
    case of the extension does not matter, directories and other entries are
    never returned whatever their names, and a file whose name has no suffix
    (like [.mp4], which is all stem) is left out. *)
Theorem scan_files_finds_exactly_the_videos entries input_dir recursive p :
  In p (scan_files entries input_dir recursive)
  <-> exists dirs nm,
        located entries dirs (File nm)
        /\ (recursive = false -> dirs = [])
        /\ lower (suffix_of nm) ∈ VIDEO_EXTS
        /\ p = file_under input_dir dirs nm.
Proof. apply in_scan_files. Qed.

Lemma video_suffix_name nm : lower (suffix_of nm) ∈ VIDEO_EXTS -> nm <> EmptyString.
Proof.
  intros H ->. revert H. apply (bool_decide_eq_false_1 (lower (suffix_of EmptyString) ∈ VIDEO_EXTS)).
  now vm_compute.
Qed.

Lemma scan_files_split entries input_dir :
  scan_files entries input_dir true
  = scan_files entries input_dir false
      ++ map fst (List.filter is_video (flat_map (below input_dir) entries)).
Proof. unfold scan_files, rglob_star. now rewrite List.filter_app, map_app. Qed.

(** X13: scanning and naming fit together. For every file that
    [scan_files] returns, [relative_to] the input directory does not raise;
    and when the stem of the file is a component of its own (not the single
    dot, as it is for [..mp4], and without slash), [make_out_path] with the
    tree preserved returns, in a world where programs start and directories
    can be made, the path with the same directories below the output root,
    the extension replaced. *)
Theorem scanned_file_gets_an_output_path w entries input_dir recursive out mode sel log p :
  In p (scan_files entries input_dir recursive) ->
  well_behaved w ->
  exists dirs nm,
    p = file_under input_dir dirs nm
    /\ relative_to p input_dir = Returned (mkPath EmptyString (dirs ++ [nm]))
    /\ (PyStr.contains "/" (PurePath.stem p) = false -> PurePath.stem p <> "." ->
        exists codec log',
          make_out_path w p input_dir out true mode sel log
          = (Returned (mkPath (root out)
                         (parts out ++ dirs
                            ++ [stem_of (stem_of nm) +:+ extension_for mode codec])),
             log')).
Proof.
  intros Hin Hw. apply in_scan_files in Hin as (dirs & nm & _ & _ & Hs & ->).
  exists dirs, nm. split; [reflexivity|]. split; [apply relative_to_under|].
  unfold PurePath.stem. rewrite name_under. intros Hslash Hdot.
  destruct (make_out_path_layout w input_dir out dirs nm true mode sel log
              (video_suffix_name nm Hs) (conj Hslash Hdot) Hw) as (codec & log' & E & _).
  exists codec, log'. exact E.
Qed.

(** The video in the directory [season1]. *)
Lemma scanned_file_gets_an_output_path_witness :
  In (file_under (of_str "/in") ["season1"] "e1.MKV")
     (scan_files example_tree (of_str "/in") true)
  /\ exists dirs nm codec log',
       file_under (of_str "/in") ["season1"] "e1.MKV" = file_under (of_str "/in") dirs nm
       /\ relative_to (file_under (of_str "/in") ["season1"] "e1.MKV") (of_str "/in")
          = Returned (mkPath EmptyString (dirs ++ [nm]))
       /\ make_out_path quiet_world (file_under (of_str "/in") ["season1"] "e1.MKV")
            (of_str "/in") (of_str "/out") true "MP3" "a:0" []
          = (Returned (mkPath (root (of_str "/out"))
                         (parts (of_str "/out") ++ dirs
                            ++ [stem_of (stem_of nm) +:+ extension_for "MP3" codec])),
             log').
Proof.
  assert (Hin : In (file_under (of_str "/in") ["season1"] "e1.MKV")
                   (scan_files example_tree (of_str "/in") true))
    by (vm_compute; right; left; reflexivity).
  split; [exact Hin |].
  destruct (scanned_file_gets_an_output_path quiet_world example_tree (of_str "/in") true
              (of_str "/out") "MP3" "a:0" [] _ Hin quiet_world_well_behaved)
    as (dirs & nm & E & Hrel & Hmk).
  destruct (Hmk eq_refl ltac:(vm_compute; discriminate)) as (codec & log' & Hm).
  exists dirs, nm, codec, log'. split; [exact E |]. split; [exact Hrel | exact Hm].
Defined.

(** X14: the scan of the directory alone starts the scan of the tree. The
    recursive result is the non-recursive one, in the same order, followed
    by files that lie in directories below the input directory; the files of
    the non-recursive result lie in the input directory itself. *)
Theorem flat_scan_starts_the_deep_scan entries input_dir :
  exists deeper,
    scan_files entries input_dir true = scan_files entries input_dir false ++ deeper
    /\ (forall p, In p (scan_files entries input_dir false) ->
          exists nm, p = file_under input_dir [] nm)
    /\ (forall p, In p deeper -> exists d dirs nm, p = file_under input_dir (d :: dirs) nm).
Proof.
  eexists. split; [apply scan_files_split|]. split.
  - intros p Hin. apply in_scan_files in Hin as (dirs & nm & _ & Hd & _ & ->).
    rewrite (Hd eq_refl). now exists nm.
  - intros p Hin. apply in_map_iff in Hin as ([q m] & <- & Hin).
    apply filter_In in Hin as [Hin _]. apply in_flat_map in Hin as (c & _ & Hin).
    apply in_below in Hin as (nm & sub & dirs & _ & _ & ->). simpl. eauto.
Qed.

(** ** The queue of a batch *)

Ltac batch_step H :=
  unfold step, handle_result, leave_loop in H;
  repeat (case_match; simplify_eq; try discriminate);
  simplify_eq;
  cbn [stop_event pending running completed done ok_count fail_count
       delivered ui_queue syscalls phase] in *.

Lemma stop_event_step args workers files st c st' :
  step args workers files st c = Some st' ->
  stop_event st' = (is_cancel c || stop_event st)%bool.
Proof. intros H. destruct c; batch_step H; reflexivity. Qed.

Lemma stop_event_exec args workers files cs : forall st st',
  exec args workers files st cs = Some st' ->
  stop_event st' = (negb (no_cancel cs) || stop_event st)%bool.
Proof.
  induction cs as [|c cs IH]; intros st st' H; simpl in H.
  - now simplify_eq.
  - destruct (step args workers files st c) as [st1|] eqn:E; [|discriminate].
    rewrite (IH _ _ H), (stop_event_step _ _ _ _ _ _ E). simpl.
    destruct (is_cancel c), (no_cancel cs), (stop_event st); reflexivity.
Qed.

Section ReportFacts.

Variable args : Args.
Variable workers : Z.
Variable files : list Path.

Lemma successes_snoc rs r :
  successes (rs ++ [r]) = successes rs + (if succeeded r then 1 else 0).
Proof.
  unfold successes. rewrite List.filter_app, length_app. simpl.
  destruct (succeeded r); simpl; lia.
Qed.

Lemma failures_snoc rs r :
  failures (rs ++ [r]) = failures rs + (if succeeded r then 0 else 1).
Proof.
  unfold failures. rewrite List.filter_app, length_app. simpl.
  destruct (succeeded r); simpl; lia.
Qed.

Lemma render_snoc tot rs r :
  render tot (rs ++ [r]) = render tot rs ++ events_at tot (rs ++ [r]) (S (length rs)) r.
Proof.
  unfold render. rewrite imap_app, concat_app. cbn -[events_at].
  rewrite app_nil_r, Nat.add_0_r.
  f_equal. f_equal. apply imap_ext. intros i x Hx. unfold events_at.
  apply lookup_lt_Some in Hx.
  now rewrite take_app_le by lia.
Qed.

Lemma reported_init : reported workers files (init workers files).
Proof.
  unfold reported, init, boot_events. destruct (workers <=? 0); simpl.
  - repeat split. exists []. now split.
  - repeat split. exists []. now split.
Qed.

Lemma reported_step st c st' :
  consistent files st -> reported workers files st ->
  step args workers files st c = Some st' -> reported workers files st'.
Proof.
  intros Hc (Hok & Hfail & tail & Hq & Ht) H. destruct c.
  - unfold step in H. simplify_eq. repeat split; simpl; try assumption.
    exists tail. split; [assumption|]. destruct (phase st); try assumption.
    destruct Ht as (b & Hb & _). exists b. split; [assumption | discriminate].
  - unfold step in H. destruct (pending st); [discriminate|].
    destruct (_ <? _); [|discriminate]. destruct (task _ _ _ _ _). simplify_eq.
    repeat split; simpl; try assumption. exists tail. now split.
  - unfold step in H. destruct (running st !! k); [|discriminate]. simplify_eq.
    repeat split; simpl; try assumption. exists tail. now split.
  - unfold step in H. destruct (phase st) eqn:Eph; try discriminate. subst tail.
    rewrite app_nil_r in Hq.
    destruct (completed st) as [|fut rest] eqn:Ec.
    + destruct (pending st); [destruct (running st)|]; try discriminate. simplify_eq.
      repeat split; simpl; try assumption. exists []. now rewrite !app_nil_r.
    + destruct (stop_event st).
      { simplify_eq. repeat split; simpl; try assumption. exists [].
        now rewrite !app_nil_r. }
      pose proof (completed_ok _ _ Hc) as Hfut. rewrite Ec in Hfut. inversion Hfut; subst.
      destruct fut as [[[src success] msg]|e]; [|contradiction]. simplify_eq.
      pose proof (done_count _ _ Hc) as Hd.
      unfold reported; simpl. rewrite successes_snoc, failures_snoc.
      unfold succeeded; simpl. rewrite <- Hok, <- Hfail.
      split; [destruct success; lia|]. split; [destruct success; lia|].
      exists []. rewrite Eph. split; [|reflexivity].
      rewrite app_nil_r, render_snoc, Hq, <- app_assoc. f_equal. f_equal.
      unfold events_at. rewrite firstn_all2 by (rewrite length_app; simpl; lia).
      rewrite successes_snoc, failures_snoc. unfold succeeded, result_line; simpl.
      replace (Z.of_nat (S (length (delivered st)))) with (done st + 1) by lia.
      rewrite <- Hok, <- Hfail.
      destruct success; simpl; rewrite ?Z.add_0_r; reflexivity.
  - unfold step in H. destruct (phase st) eqn:Eph; try discriminate.
    destruct (pending st); [destruct (running st)|]; try discriminate. simplify_eq.
    rewrite app_nil_r in Hq.
    repeat split; simpl; try assumption.
    exists (summary st). split; [now rewrite Hq, <- app_assoc|].
    exists (stop_event st). split; [|auto].
    unfold summary, closing_events. now rewrite Hok, Hfail.
Qed.

Lemma reported_exec cs : forall st st',
  consistent files st -> reported workers files st ->
  exec args workers files st cs = Some st' -> reported workers files st'.
Proof.
  induction cs as [|c cs IH]; intros st st' Hc Hr H; simpl in H.
  - now simplify_eq.
  - destruct (step args workers files st c) as [st1|] eqn:E; [|discriminate].
    eapply IH; [eapply consistent_step | eapply reported_step |]; eauto.
Qed.

Lemma reported_run cs st :
  _run_batch args workers files cs = Some st -> reported workers files st.
Proof.
  intros H. eapply reported_exec; [apply consistent_init | apply reported_init | exact H].
Qed.

End ReportFacts.

Lemma progress_events_render tot rs :
  progress_events (render tot rs) = imap (fun i _ => (Z.of_nat (S i), tot)) rs.
Proof.
  induction rs as [|r rs IH] using rev_ind; [reflexivity|].
  rewrite render_snoc, progress_events_app, IH, imap_app. simpl.
  now rewrite Nat.add_0_r.
Qed.

Lemma progress_events_boot workers : progress_events (boot_events workers) = [].
Proof. unfold boot_events. now destruct (workers <=? 0). Qed.

Lemma progress_events_closing b rs : progress_events (closing_events b rs) = [].
Proof. now destruct b. Qed.

Lemma reported_progress workers files st :
  reported workers files st ->
  progress_events (ui_queue st)
  = imap (fun i _ => (Z.of_nat (S i), total files)) (delivered st).
Proof.
  intros (_ & _ & tail & Hq & Ht). rewrite Hq, !progress_events_app.
  rewrite progress_events_boot, progress_events_render. simpl.
  destruct (phase st).
  1,2: subst tail; now rewrite app_nil_r.
  destruct Ht as (b & -> & _). now rewrite progress_events_closing, app_nil_r.
Qed.

(** X15: the counters and the progress of every batch, cancelled or not, at
    every moment. [ok_count] is the number of successes among the results
    handed out so far and [fail_count] the number of failures; the progress
    events put on the queue are (1, N), (2, N), ..., (k, N), in this order,
    for the k results handed out and the N files of the batch: the progress
    shown never goes back and never skips a value. *)
Theorem counters_count_the_results args workers files cs st :
  _run_batch args workers files cs = Some st ->
  ok_count st = successes (delivered st)
  /\ fail_count st = failures (delivered st)
  /\ progress_events (ui_queue st)
     = imap (fun i _ => (Z.of_nat (S i), total files)) (delivered st).
Proof.
  intros H. pose proof (reported_run _ _ _ _ _ H) as Hr.
  pose proof (reported_progress _ _ _ Hr). destruct Hr as (? & ? & _). auto.
Qed.

(** The end-to-end scenario: three successes, the progress 1, 2, 3 of 3. *)
Lemma counters_count_the_results_witness :
  exists st,
    _run_batch example_args 2 example_files (sequential example_files quiet_world)
    = Some st
    /\ ok_count st = successes (delivered st)
    /\ fail_count st = failures (delivered st)
    /\ progress_events (ui_queue st) = [(1, 3); (2, 3); (3, 3)].
Proof.
  eexists. split; [vm_compute; reflexivity |].
  exact (counters_count_the_results example_args 2 example_files
           (sequential example_files quiet_world) _ ltac:(vm_compute; reflexivity)).
Defined.

(** X16: all that a batch puts on the queue, at every moment: the error line
    of a worker count below 1, if any; then, for each result handed out and
    in the order they are handed out, its log line ([[OK] name -> message] or
    [[FAIL] name :: message]), its progress event and the status
    [Proses: k/N | OK: a | Gagal: b] with the counts up to this result; and,
    once the [finally] block has run and not before, the status and the log
    line of the summary with the final counts. The summary is the one of a
    cancelled run only if the flag has been set, and the one of a completed
    run when nobody has cancelled. *)
Theorem queue_is_the_report_of_the_results args workers files cs st :
  _run_batch args workers files cs = Some st ->
  exists tail,
    ui_queue st
    = boot_events workers ++ render (total files) (delivered st) ++ tail
    /\ (phase st <> Finished -> tail = [])
    /\ (phase st = Finished ->
        exists cancelled,
          tail = closing_events cancelled (delivered st)
          /\ (cancelled = true -> stop_event st = true)
          /\ (no_cancel cs = true -> cancelled = false)).
Proof.
  intros H. destruct (reported_run _ _ _ _ _ H) as (_ & _ & tail & Hq & Ht).
  exists tail. split; [exact Hq|]. split.
  - intros Hph. destruct (phase st); [assumption..|congruence].
  - intros Hph. rewrite Hph in Ht. destruct Ht as (b & Hb & Hs). exists b.
    split; [exact Hb|]. split.
    + destruct (stop_event st); [reflexivity|]. intros ->. now specialize (Hs eq_refl).
    + intros Hn. apply Hs. rewrite (stop_event_exec _ _ _ _ _ _ H), Hn.
      unfold init. now destruct (workers <=? 0).
Qed.

(** The end-to-end scenario. *)
Lemma queue_is_the_report_of_the_results_witness :
  exists st,
    _run_batch example_args 2 example_files (sequential example_files quiet_world)
    = Some st
    /\ exists tail,
         ui_queue st
         = boot_events 2 ++ render (total example_files) (delivered st) ++ tail
         /\ (phase st <> Finished -> tail = [])
         /\ (phase st = Finished ->
             exists cancelled,
               tail = closing_events cancelled (delivered st)
               /\ (cancelled = true -> stop_event st = true)
               /\ (no_cancel (sequential example_files quiet_world) = true ->
                   cancelled = false)).
Proof.
  eexists. split; [vm_compute; reflexivity |].
  exact (queue_is_the_report_of_the_results example_args 2 example_files
           (sequential example_files quiet_world) _ ltac:(vm_compute; reflexivity)).
Defined.



(** ** A batch without workers *)

Lemma idle_step args workers files st c st' :
  idle st -> step args workers files st c = Some st' -> idle st'.
Proof.
  intros (Hp & Hr & Hc & Hd & Hs & Hn & Hph) H. unfold idle.
  destruct c; unfold step in H.
  - simplify_eq. simpl. auto 10.
  - rewrite Hp in H. discriminate.
  - rewrite Hr in H. discriminate.
  - destruct (phase st); [congruence | discriminate..].
  - destruct (phase st); try discriminate. rewrite Hp, Hr in H. simplify_eq. simpl.
    repeat split; auto; discriminate.
Qed.

Lemma idle_exec args workers files cs : forall st st',
  idle st -> exec args workers files st cs = Some st' -> idle st'.
Proof.
  induction cs as [|c cs IH]; intros st st' Hi H; simpl in H.
  - now simplify_eq.
  - destruct (step args workers files st c) as [st1|] eqn:E; [|discriminate].
    eapply IH; [eapply idle_step|]; eauto.
Qed.

(** Once the [finally] block of a batch without work has run, only Cancel
    can still be pressed, and the queue stays as it is. *)
Lemma idle_finished_exec args workers files cs : forall st st',
  idle st -> phase st = Finished -> exec args workers files st cs = Some st' ->
  phase st' = Finished /\ ui_queue st' = ui_queue st.
Proof.
  induction cs as [|c cs IH]; intros st st' Hi Hph H; simpl in H.
  - simplify_eq. auto.
  - destruct (step args workers files st c) as [st1|] eqn:E; [|discriminate].
    pose proof (idle_step _ _ _ _ _ _ Hi E) as Hi1.
    destruct Hi as (Hp & Hr & _).
    destruct c; unfold step in E.
    + simplify_eq. apply (IH _ _ Hi1 Hph H).
    + rewrite Hp in E. discriminate.
    + rewrite Hr in E. discriminate.
    + rewrite Hph in E. discriminate.
    + rewrite Hph in E. discriminate.
Qed.

(** The queue of a batch without work that waits for its [finally] block:
    nothing is added before the block runs, and the block adds the summary
    of a cancelled run exactly when the flag is set by then. *)
Lemma idle_summary args workers files cs : forall st st',
  idle st -> phase st = Joining -> ok_count st = 0 -> fail_count st = 0 ->
  exec args workers files st cs = Some st' ->
  (phase st' <> Finished -> ui_queue st' = ui_queue st)
  /\ (phase st' = Finished ->
      ui_queue st'
      = ui_queue st
          ++ (if stop_event st || cancelled_before_finally cs
              then [UiStatus "Dibatalkan. OK: 0, Gagal: 0"; UiLog "== Dibatalkan =="]
              else [UiStatus "Selesai. OK: 0, Gagal: 0"; UiLog "== Selesai =="])).
Proof.
  induction cs as [|c cs IH]; intros st st' Hi Hph Hok Hfail H; simpl in H.
  - simplify_eq. split; [reflexivity | congruence].
  - destruct (step args workers files st c) as [st1|] eqn:E; [|discriminate].
    pose proof (idle_step _ _ _ _ _ _ Hi E) as Hi1.
    pose proof Hi as (Hp & Hr & _).
    destruct c; unfold step in E.
    + simplify_eq.
      destruct (IH _ _ Hi1 Hph Hok Hfail H) as [Hrun Hfin].
      split; [exact Hrun |]. intros Hf. rewrite (Hfin Hf). cbn [stop_event ui_queue orb].
      cbn [cancelled_before_finally]. now rewrite orb_true_r.
    + rewrite Hp in E. discriminate.
    + rewrite Hr in E. discriminate.
    + rewrite Hph in E. discriminate.
    + rewrite Hph, Hp, Hr in E. simplify_eq.
      destruct (idle_finished_exec _ _ _ _ _ _ Hi1 eq_refl H) as [Hf Hq].
      split; [congruence |]. intros _. rewrite Hq. cbn [ui_queue].
      cbn [cancelled_before_finally]. rewrite orb_false_r.
      unfold summary. rewrite Hok, Hfail. now destruct (stop_event st).
Qed.

(** X18: a worker count of 0 or less. The batch starts no task, makes no
    system call and hands out no result; the queue holds the error line of
    the executor and, once the [finally] block has run, the summary with both
    counts 0, although no file has been processed. The summary reads
    [Dibatalkan] (cancelled) exactly when Cancel was pressed before the
    [finally] block ran, and [Selesai] (completed) otherwise: when nobody
    pressed Cancel, and when Cancel was pressed only afterwards. *)
Theorem no_worker_no_work args workers files cs st :
  workers <= 0 -> _run_batch args workers files cs = Some st ->
  delivered st = [] /\ syscalls st = [] /\ done st = 0
  /\ exists tail,
       ui_queue st = UiLog "[ERROR] max_workers must be greater than 0" :: tail
       /\ (phase st <> Finished -> tail = [])
       /\ (phase st = Finished ->
           tail = if cancelled_before_finally cs
                  then [UiStatus "Dibatalkan. OK: 0, Gagal: 0"; UiLog "== Dibatalkan =="]
                  else [UiStatus "Selesai. OK: 0, Gagal: 0"; UiLog "== Selesai =="])
       /\ (phase st = Finished -> no_cancel cs = true ->
           tail = [UiStatus "Selesai. OK: 0, Gagal: 0"; UiLog "== Selesai =="]).
Proof.
  intros Hw H. unfold _run_batch in H.
  assert (Hinit : init workers files
                  = mkBatch false [] [] [] 0 0 0 []
                      [UiLog "[ERROR] max_workers must be greater than 0"] [] Joining).
  { unfold init. now replace (workers <=? 0) with true by (symmetry; apply Z.leb_le; lia). }
  rewrite Hinit in H.
  assert (Hi0 : idle (mkBatch false [] [] [] 0 0 0 []
                        [UiLog "[ERROR] max_workers must be greater than 0"] [] Joining)).
  { unfold idle; simpl. repeat split; auto; discriminate. }
  pose proof (idle_exec _ _ _ _ _ _ Hi0 H) as (_ & _ & _ & Hd & Hs & Hn & _).
  repeat (split; [assumption|]).
  destruct (idle_summary _ _ _ _ _ _ Hi0 eq_refl eq_refl eq_refl H) as [Hrun Hfin].
  cbn [ui_queue stop_event orb app] in Hrun, Hfin.
  assert (Hnc : no_cancel cs = true -> cancelled_before_finally cs = false).
  { clear. induction cs as [|c cs IH]; [reflexivity|]. simpl. intros Hc.
    apply andb_true_iff in Hc as [Hc Hcs]. destruct c; auto; discriminate. }
  destruct (phase st) eqn:Eph.
  - exists []. split; [apply Hrun; discriminate |]. repeat split; congruence.
  - exists []. split; [apply Hrun; discriminate |]. repeat split; congruence.
  - eexists. split; [apply Hfin; reflexivity |]. split; [congruence |].
    split; [reflexivity |]. intros _ Hc. now rewrite (Hnc Hc).
Qed.

(** Three files and no worker: nobody cancels; Cancel is pressed before the
    [finally] block runs; Cancel is pressed after it. *)
Lemma no_worker_no_work_witness :
  (exists st,
     _run_batch example_args 0 example_files [FinallyBlock] = Some st
     /\ phase st = Finished
     /\ delivered st = [] /\ syscalls st = [] /\ done st = 0
     /\ ui_queue st = [UiLog "[ERROR] max_workers must be greater than 0";
                       UiStatus "Selesai. OK: 0, Gagal: 0"; UiLog "== Selesai =="])
  /\ (exists st,
        _run_batch example_args 0 example_files [CancelPressed; FinallyBlock] = Some st
        /\ phase st = Finished
        /\ delivered st = [] /\ syscalls st = [] /\ done st = 0
        /\ ui_queue st = [UiLog "[ERROR] max_workers must be greater than 0";
                          UiStatus "Dibatalkan. OK: 0, Gagal: 0"; UiLog "== Dibatalkan =="])
  /\ (exists st,
        _run_batch example_args 0 example_files [FinallyBlock; CancelPressed] = Some st
        /\ phase st = Finished /\ stop_event st = true
        /\ ui_queue st = [UiLog "[ERROR] max_workers must be greater than 0";
                          UiStatus "Selesai. OK: 0, Gagal: 0"; UiLog "== Selesai =="]).
Proof.
  split; [|split].
  - eexists. split; [vm_compute; reflexivity |]. split; [reflexivity |].
    destruct (no_worker_no_work example_args 0 example_files [FinallyBlock] _
                ltac:(lia) ltac:(vm_compute; reflexivity))
      as (Hd & Hs & Hn & tail & Hq & _ & Hfin & _).
    repeat (split; [assumption |]). rewrite Hq, (Hfin eq_refl). reflexivity.
  - eexists. split; [vm_compute; reflexivity |]. split; [reflexivity |].
    destruct (no_worker_no_work example_args 0 example_files [CancelPressed; FinallyBlock] _
                ltac:(lia) ltac:(vm_compute; reflexivity))
      as (Hd & Hs & Hn & tail & Hq & _ & Hfin & _).
    repeat (split; [assumption |]). rewrite Hq, (Hfin eq_refl). reflexivity.
  - eexists. split; [vm_compute; reflexivity |]. split; [reflexivity |].
    split; [reflexivity |].
    destruct (no_worker_no_work example_args 0 example_files [FinallyBlock; CancelPressed] _
                ltac:(lia) ltac:(vm_compute; reflexivity))
      as (_ & _ & _ & tail & Hq & _ & Hfin & _).
    rewrite Hq, (Hfin eq_refl). reflexivity.
Defined.

(** ** The programs of a batch *)

Lemma spawns_step args workers files st c st' :
  incl (pending st) files ->
  (forall cmd, In (Spawn cmd) (syscalls st) -> batch_command args files cmd) ->
  step args workers files st c = Some st' ->
  incl (pending st') files
  /\ (forall cmd, In (Spawn cmd) (syscalls st') -> batch_command args files cmd).
Proof.
  intros Hp Hs H. destruct c.
  1,3,4,5: batch_step H; split; auto; try (intros ? []).
  all: try match goal with E : pending ?s = _ |- _ => rewrite E in Hp end; auto.
  unfold step in H. destruct (pending st) as [|f rest] eqn:Ep; [discriminate|].
  destruct (_ <? _); [|discriminate].
  destruct (task w (stop_event st) args f (syscalls st)) as [r log'] eqn:Et.
  simplify_eq. simpl. split; [intros x Hx; apply Hp; now right|].
  assert (Hf : In f files) by (apply Hp; now left).
  unfold task in Et. destruct (stop_event st); [unfold mret, M_ret in Et; now simplify_eq|].
  destruct (process_one_calls w f (input_root args) (output_root args) (preserve_tree args)
              (mode args) (stream_selector args) (loudnorm args) (sample_rate args)
              (bitrate_k args) (use_gpu args) (syscalls st)) as (probe & rest' & Hl & Hpr & Hre).
  rewrite Et in Hl. simpl in Hl. subst log'.
  intros cmd Hin. rewrite !in_app_iff in Hin. destruct Hin as [Hin|[Hin|Hin]]; [auto| |].
  - destruct Hpr as [->|[-> Hm]]; [destruct Hin|].
    destruct Hin as [[= <-]|[]]. exists f. split; [assumption|]. left.
    split; [reflexivity | now apply String.eqb_eq].
  - destruct Hre as [->|(dst & [->| ->])]; [destruct Hin| |].
    + destruct Hin as [[=]|[]].
    + destruct Hin as [[=]|[[= <-]|[]]]. exists f. split; [assumption|]. right. now exists dst.
Qed.

Lemma spawns_exec args workers files cs : forall st st',
  incl (pending st) files ->
  (forall cmd, In (Spawn cmd) (syscalls st) -> batch_command args files cmd) ->
  exec args workers files st cs = Some st' ->
  forall cmd, In (Spawn cmd) (syscalls st') -> batch_command args files cmd.
Proof.
  induction cs as [|c cs IH]; intros st st' Hp Hs H; simpl in H.
  - now simplify_eq.
  - destruct (step args workers files st c) as [st1|] eqn:E; [|discriminate].
    destruct (spawns_step _ _ _ _ _ _ Hp Hs E). eapply IH; eauto.
Qed.

(** X19: the programs a batch starts. Every command a batch has spawned is,
    for one of the files of the batch, the probe of that file (and then the
    mode is COPY) or the command built for that file, some output path and
    the options of the batch; so its first word is [ffmpeg] or [ffprobe]. *)
Theorem batch_spawns_only_its_tools args workers files cs st cmd :
  _run_batch args workers files cs = Some st ->
  In (Spawn cmd) (syscalls st) ->
  batch_command args files cmd
  /\ (hd_error cmd = Some "ffmpeg" \/ hd_error cmd = Some "ffprobe").
Proof.
  intros H Hin.
  assert (Hb : batch_command args files cmd).
  { eapply spawns_exec; [| |exact H|exact Hin]; unfold init; destruct (workers <=? 0); simpl.
    - intros ? [].
    - apply incl_refl.
    - intros ? [].
    - intros ? []. }
  split; [exact Hb|].
  destruct Hb as (f & _ & [[-> _]|(dst & ->)]); [right; reflexivity | left].
  apply build_ffmpeg_cmd_head.
Qed.

(** The end-to-end scenario: the command of the first file. *)
Lemma batch_spawns_only_its_tools_witness :
  exists st,
    _run_batch example_args 2 example_files (sequential example_files quiet_world)
    = Some st
    /\ In (Spawn (build_ffmpeg_cmd (of_str "/in/a.mp4") (of_str "/out/a.mp3") "MP3" "a:0"
                    false None (Some 192) false))
          (syscalls st)
    /\ batch_command example_args example_files
         (build_ffmpeg_cmd (of_str "/in/a.mp4") (of_str "/out/a.mp3") "MP3" "a:0"
            false None (Some 192) false)
    /\ (hd_error (build_ffmpeg_cmd (of_str "/in/a.mp4") (of_str "/out/a.mp3") "MP3" "a:0"
                    false None (Some 192) false) = Some "ffmpeg"
        \/ hd_error (build_ffmpeg_cmd (of_str "/in/a.mp4") (of_str "/out/a.mp3") "MP3"
                       "a:0" false None (Some 192) false) = Some "ffprobe").
Proof.
  eexists. split; [vm_compute; reflexivity |].
  split; [vm_compute; right; left; reflexivity |].
  refine (batch_spawns_only_its_tools example_args 2 example_files
            (sequential example_files quiet_world) _ _ ltac:(vm_compute; reflexivity) _).
  vm_compute. right. left. reflexivity.
Defined.

(** ** The window *)

Lemma string_app_assoc s t u : (s +:+ t) +:+ u = s +:+ (t +:+ u).
Proof. induction s as [|c s IH]; [reflexivity|]. rewrite !append_cons. now rewrite IH. Qed.

Lemma last_cons {A} (x d : A) l : List.last (x :: l) d = List.last l x.
Proof.
  revert x d. induction l as [|y l IH]; intros x d; [reflexivity|].
  change (List.last (x :: y :: l) d) with (List.last (y :: l) d). now rewrite !IH.
Qed.

(** What one run of [_after_poll] does. *)
Lemma after_poll_spec q w0 :
  let w := (_after_poll q w0).2 in
  (_after_poll q w0).1 = []
  /\ log_widget w = log_widget w0 +:+ shown_text (log_lines q)
  /\ status_var w = List.last (statuses q) (status_var w0)
  /\ (progress_value w, progress_maximum w)
     = List.last (map (fun vt => (vt.1, Z.max 1 vt.2)) (progress_events q))
         (progress_value w0, progress_maximum w0).
Proof.
  intros w. subst w. unfold _after_poll. simpl. split; [reflexivity|].
  revert w0. induction q as [|ev q IH]; intros w0.
  - simpl. now rewrite append_empty_r.
  - simpl fold_left. destruct (IH (show_event w0 ev)) as (Hl & Hs & Hp).
    rewrite Hl, Hs, Hp.
    destruct ev as [text|text|val tot]; cbn -[List.last];
      rewrite ?last_cons, ?string_app_assoc; auto.
Qed.

(** X20: what one run of [_after_poll] does to the window. The queue is
    left empty. The text of the log widget is what it was, followed by the
    log lines of the queue in order, each with a line feed: the log only
    grows. The status line is the last status of the queue (what it was, if
    there is none). The value of the progress bar is the one of the last
    progress event and its maximum the total of that event, but 1 if that
    total is below 1 (both what they were, if there is none). Each widget
    depends on the events of its own kind only. *)
Theorem poll_keeps_the_kinds_apart q w0 :
  let w := (_after_poll q w0).2 in
  (_after_poll q w0).1 = []
  /\ log_widget w = log_widget w0 +:+ shown_text (log_lines q)
  /\ status_var w = List.last (statuses q) (status_var w0)
  /\ (progress_value w, progress_maximum w)
     = List.last (map (fun vt => (vt.1, Z.max 1 vt.2)) (progress_events q))
         (progress_value w0, progress_maximum w0).
Proof. apply after_poll_spec. Qed.

Lemma idle_or_working args workers files cs st :
  _run_batch args workers files cs = Some st -> delivered st <> [] -> 0 < workers.
Proof.
  intros H Hd. destruct (Z.leb_spec workers 0) as [Hw|Hw]; [|assumption].
  exfalso. apply Hd.
  assert (Hi : idle st); [|now destruct Hi as (_ & _ & _ & ? & _)].
  eapply idle_exec; [|exact H]. unfold init.
  replace (workers <=? 0) with true by (symmetry; apply Z.leb_le; lia).
  unfold idle; simpl. repeat split; auto; discriminate.
Qed.

(** The window after the queue of a batch without cancellation. *)
Lemma poll_after_batch args workers files cs st before w0 :
  _run_batch args workers files cs = Some st ->
  no_cancel cs = true ->
  delivered st <> [] ->
  let w := (_after_poll (before ++ ui_queue st) w0).2 in
  progress_value w = done st
  /\ progress_maximum w = total files
  /\ 1 <= progress_value w <= progress_maximum w
  /\ status_var w
     = (match phase st with
        | Finished =>
            "Selesai. OK: " +:+ PyStr.str_of_int (ok_count st)
            +:+ ", Gagal: " +:+ PyStr.str_of_int (fail_count st)
        | _ =>
            "Proses: " +:+ PyStr.str_of_int (done st) +:+ "/"
            +:+ PyStr.str_of_int (total files)
            +:+ " | OK: " +:+ PyStr.str_of_int (ok_count st)
            +:+ " | Gagal: " +:+ PyStr.str_of_int (fail_count st)
        end)
  /\ (phase st = Finished -> progress_value w = progress_maximum w).
Proof.
  intros H Hn Hd w.
  pose proof (idle_or_working _ _ _ _ _ H Hd) as Hw.
  pose proof (consistent_exec _ _ _ _ _ _ (consistent_init workers files) H) as Hc.
  destruct (undisturbed_exec args workers files cs _ _ (consistent_init workers files)
              (undisturbed_init workers files Hw) Hn H) as (_ & Hu).
  destruct (reported_run _ _ _ _ _ H) as (Hok & Hfail & tail & Hq & Ht).
  pose proof (done_count _ _ Hc) as Hdone.
  pose proof (nothing_twice _ _ Hc) as Hle.
  assert (Hlen : 1 <= done st <= total files).
  { unfold total. destruct (delivered st); [congruence|]. simpl in *. lia. }
  destruct (delivered st) as [|r0 rs0] eqn:Ed using rev_ind; [congruence|].
  rewrite render_snoc in Hq.
  assert (Hw' : exists w1, w = fold_left show_event
             (events_at (total files) (rs0 ++ [r0]) (S (length rs0)) r0 ++ tail) w1).
  { subst w. unfold _after_poll. simpl. rewrite Hq, !fold_left_app. eexists. reflexivity. }
  destruct Hw' as (w1 & Hw1). clearbody w. subst w.
  rewrite length_app in Hdone. simpl in Hdone.
  replace (Z.of_nat (S (length rs0))) with (done st) by lia.
  assert (Hfull : phase st = Finished -> done st = total files).
  { intros Hph. pose proof (each_file_once _ _ Hu) as Hp. rewrite Hph in Hp.
    apply Permutation_length in Hp. rewrite length_map, Ed, length_app in Hp. simpl in Hp.
    unfold total. lia. }
  unfold events_at.
  replace (S (length rs0)) with (length (rs0 ++ [r0])) by (rewrite length_app; simpl; lia).
  rewrite firstn_all, <- Hok, <- Hfail.
  replace (Z.of_nat (length (rs0 ++ [r0]))) with (done st) by (rewrite length_app; simpl; lia).
  destruct (phase st) eqn:Eph.
  1,2: subst tail; simpl; repeat split; try lia; intros; congruence.
  destruct Ht as (b & -> & Hb). rewrite (Hb (not_stopped _ _ Hu)).
  unfold closing_events. rewrite <- Hok, <- Hfail. simpl.
  specialize (Hfull eq_refl). repeat split; try lia.
Qed.

(** X21: the window after the queue of a batch has been read, at any moment
    of a batch in which nobody cancels and at least one result has been
    handed out, whatever was on the queue before the batch and whatever the
    window showed. The progress bar stands at [done] of N, the number of
    files, with [done] between 1 and N; the status line is
    [Proses: done/N | OK: a | Gagal: b] with the counters of the batch while
    it runs and [Selesai. OK: a, Gagal: b] once it is over, and then the bar
    is full. *)
Theorem poll_shows_the_state args workers files cs st before w0 :
  _run_batch args workers files cs = Some st ->
  no_cancel cs = true ->
  delivered st <> [] ->
  let w := (_after_poll (before ++ ui_queue st) w0).2 in
  progress_value w = done st
  /\ progress_maximum w = total files
  /\ 1 <= progress_value w <= progress_maximum w
  /\ status_var w
     = (match phase st with
        | Finished =>
            "Selesai. OK: " +:+ PyStr.str_of_int (ok_count st)
            +:+ ", Gagal: " +:+ PyStr.str_of_int (fail_count st)
        | _ =>
            "Proses: " +:+ PyStr.str_of_int (done st) +:+ "/"
            +:+ PyStr.str_of_int (total files)
            +:+ " | OK: " +:+ PyStr.str_of_int (ok_count st)
            +:+ " | Gagal: " +:+ PyStr.str_of_int (fail_count st)
        end)
  /\ (phase st = Finished -> progress_value w = progress_maximum w).
Proof. apply poll_after_batch. Qed.

(** The end-to-end scenario, read after the status that [App.start] puts on
    the queue: three of three, all of them successes. *)
Lemma poll_shows_the_state_witness :
  exists st,
    _run_batch example_args 2 example_files (sequential example_files quiet_world)
    = Some st
    /\ let w := (_after_poll ([UiStatus "Ditemukan 3 file. Memulai..."] ++ ui_queue st)
                   (mkWidgets EmptyString EmptyString 3 0)).2 in
       progress_value w = 3
       /\ progress_maximum w = 3
       /\ status_var w = "Selesai. OK: 3, Gagal: 0".
Proof.
  eexists. split; [vm_compute; reflexivity |].
  pose proof (poll_shows_the_state example_args 2 example_files
                (sequential example_files quiet_world) _
                [UiStatus "Ditemukan 3 file. Memulai..."]
                (mkWidgets EmptyString EmptyString 3 0)
                ltac:(vm_compute; reflexivity) ltac:(vm_compute; reflexivity)
                ltac:(vm_compute; discriminate)) as H.
  exact (conj (proj1 H) (conj (proj1 (proj2 H)) (proj1 (proj2 (proj2 (proj2 H)))))).
Defined.

(** ** Reading numbers *)

From Stdlib Require Import DecimalPos.

Lemma scan_numeral d : forall acc n,
  scan_digits (NilEmpty.string_of_uint d) false acc n
  = Some (uint_value d acc, (n + Decimal.nb_digits d)%nat, EmptyString).
Proof.
  induction d; intros acc n; cbn [NilEmpty.string_of_uint Decimal.nb_digits uint_value];
    [cbn; now rewrite Nat.add_0_r | ..].
  all: cbn [scan_digits]; match goal with
       | |- context [is_digit ?c] => change (is_digit c) with true; cbv iota
       end.
  all: rewrite IHd, Nat.add_succ_r; reflexivity.
Qed.

Lemma uint_value_pos d : forall acc,
  uint_value d (Z.pos acc) = Z.pos (Pos.of_uint_acc d acc).
Proof.
  induction d; intros acc; cbn [uint_value Pos.of_uint_acc]; [reflexivity | ..].
  all: rewrite <- IHd; f_equal; lia.
Qed.

Lemma uint_value_0 d : uint_value d 0 = Z.of_N (Pos.of_uint d).
Proof.
  induction d; cbn [uint_value Pos.of_uint]; [reflexivity | exact IHd | ..].
  all: cbn [Z.mul Z.add Z.of_N]; apply uint_value_pos.
Qed.

Lemma numeral_is_ascii d : is_ascii_str (NilEmpty.string_of_uint d) = true.
Proof. induction d; cbn [NilEmpty.string_of_uint is_ascii_str]; auto. Qed.

Lemma numeral_length d :
  String.length (NilEmpty.string_of_uint d) = Decimal.nb_digits d.
Proof. induction d; cbn [NilEmpty.string_of_uint String.length Decimal.nb_digits]; auto. Qed.

(** Reading the numeral of a positive number. *)
Lemma py_int_numeral p :
  (Decimal.nb_digits (Pos.to_uint p) <= max_str_digits)%nat ->
  scan_digits (NilEmpty.string_of_uint (Pos.to_uint p)) false 0 0
  = Some (Z.pos p, Decimal.nb_digits (Pos.to_uint p), EmptyString)
  /\ exists c r, NilEmpty.string_of_uint (Pos.to_uint p) = String c r /\ is_digit c = true.
Proof.
  intros Hlen. split.
  - rewrite scan_numeral, uint_value_0, Unsigned.of_to. reflexivity.
  - pose proof (Unsigned.to_uint_nonnil p) as Hn.
    destruct (Pos.to_uint p); [congruence | cbn; eauto..].
Qed.

Lemma numeral_shape p :
  split_sign (NilEmpty.string_of_uint (Pos.to_uint p))
  = (1, NilEmpty.string_of_uint (Pos.to_uint p))
  /\ skip_c_space (NilEmpty.string_of_uint (Pos.to_uint p))
     = NilEmpty.string_of_uint (Pos.to_uint p)
  /\ NilZero.string_of_uint (Pos.to_uint p) = NilEmpty.string_of_uint (Pos.to_uint p)
  /\ (0 < Decimal.nb_digits (Pos.to_uint p))%nat.
Proof.
  pose proof (Unsigned.to_uint_nonnil p) as Hn.
  destruct (Pos.to_uint p); [congruence | repeat split; cbn; lia..].
Qed.

Lemma read_numeral p :
  (Decimal.nb_digits (Pos.to_uint p) <= max_str_digits)%nat ->
  read_digits (NilEmpty.string_of_uint (Pos.to_uint p)) = Some (Z.pos p).
Proof.
  intros Hlen. destruct (py_int_numeral p Hlen) as (Hscan & _).
  destruct (numeral_shape p) as (_ & _ & _ & Hpos).
  pose proof (Unsigned.to_uint_nonnil p) as Hn.
  unfold read_digits. rewrite Hscan.
  replace (Decimal.nb_digits (Pos.to_uint p) =? 0)%nat with false
    by (symmetry; apply Nat.eqb_neq; lia).
  replace (max_str_digits <? Decimal.nb_digits (Pos.to_uint p))%nat with false
    by (symmetry; apply Nat.ltb_ge; lia).
  destruct (Pos.to_uint p); [congruence | reflexivity..].
Qed.

(** [int(str(n))] is [n]. *)
Lemma py_int_str_of_int n :
  (String.length (PyStr.str_of_int n) <= max_str_digits)%nat ->
  py_int (PyStr.str_of_int n) = Some n.
Proof.
  unfold PyStr.str_of_int. destruct n as [|p|p]; [reflexivity | |];
    cbn [Z.to_int NilZero.string_of_int]; intros Hlen;
    destruct (numeral_shape p) as (Hsign & Hskip & Hnz & _);
    rewrite Hnz in *; cbn [String.length] in Hlen; rewrite numeral_length in Hlen.
  - unfold py_int. rewrite numeral_is_ascii, Hskip, Hsign, read_numeral by lia.
    reflexivity.
  - unfold py_int. cbn [is_ascii_str]. rewrite numeral_is_ascii.
    change ((PyStr.code "-" <? 128)%N && true) with true. cbv iota.
    change (split_sign (skip_c_space (String "-" ?s))) with (-1, s).
    cbv beta iota. rewrite read_numeral by lia. reflexivity.
Qed.

Section VisibleFacts.
Import PyStr.

Lemma all_visible_app s t : all_visible (s +:+ t) = all_visible s && all_visible t.
Proof.
  induction s as [|c s IH]; [reflexivity|]. rewrite append_cons. simpl.
  now rewrite IH, andb_assoc.
Qed.

Lemma all_visible_rev s : all_visible (String.rev s) = all_visible s.
Proof.
  induction s as [|c s IH]; [reflexivity|].
  rewrite string_rev_cons, all_visible_app, IH. simpl. rewrite andb_true_r. apply andb_comm.
Qed.

Lemma lstrip_visible s : all_visible s = true -> lstrip s = s.
Proof.
  destruct s as [|c s]; [reflexivity|]. simpl. intros H.
  apply andb_true_iff in H as [Hc _]. apply negb_true_iff in Hc. now rewrite Hc.
Qed.

(** Stripping a string without white space changes nothing. *)
Lemma strip_visible s : all_visible s = true -> strip s = s.
Proof.
  intros H. unfold strip, rstrip. rewrite (lstrip_visible s H).
  rewrite lstrip_visible by now rewrite all_visible_rev.
  apply string_rev_involutive.
Qed.

Lemma numeral_visible d : all_visible (NilEmpty.string_of_uint d) = true.
Proof. induction d; cbn [NilEmpty.string_of_uint all_visible]; auto. Qed.

Lemma str_of_int_visible n : all_visible (str_of_int n) = true.
Proof.
  unfold str_of_int. destruct n as [|p|p]; [reflexivity | |];
    cbn [Z.to_int NilZero.string_of_int];
    destruct (numeral_shape p) as (_ & _ & -> & _).
  - apply numeral_visible.
  - cbn [all_visible]. now rewrite numeral_visible.
Qed.

End VisibleFacts.

(** A numeral is read back as its number, also after [strip]. *)
Lemma py_int_strip_str_of_int n :
  (String.length (PyStr.str_of_int n) <= max_str_digits)%nat ->
  py_int (PyStr.strip (PyStr.str_of_int n)) = Some n
  /\ optional_int (PyStr.strip (PyStr.str_of_int n)) = Some (Some n).
Proof.
  intros H. rewrite strip_visible by apply str_of_int_visible.
  pose proof (py_int_str_of_int n H) as Hn. split; [exact Hn|].
  unfold optional_int. rewrite Hn.
  pose proof (numeric_head_str_of_int n) as Hh.
  destruct (PyStr.str_of_int n); [discriminate Hh | reflexivity].
Qed.

(** ** Starting a batch *)

Lemma optional_int_none text :
  optional_int text = None <-> text <> EmptyString /\ py_int text = None.
Proof.
  unfold optional_int. destruct text as [|c r]; [split; [discriminate | intros [[] _]; reflexivity]|].
  destruct (py_int (String c r)); simpl; split; try discriminate; auto.
  intros [_ [=]].
Qed.

(** [start] is taken apart along its tests. *)
Ltac start_cases H :=
  unfold start in H; unfold mbind, M_bind in H;
  match type of H with
  | context [ff_tools_ok ?w ?log] =>
      let Et := fresh "Et" in
      destruct (ff_tools_ok w log) as [[[[] ?msg]|?] ?l1] eqn:Et; cbn [negb] in H;
      [apply ff_tools_ok_inversion in Et; destruct Et as (Hboth & Hlog & _);
       destruct (proj1 Hboth eq_refl) as (Hffmpeg & Hffprobe);
       destruct (Hlog eq_refl) as (_ & ->); clear Hboth Hlog
      |apply ff_tools_ok_inversion in Et; destruct Et as (_ & _ & Hbad);
       specialize (Hbad eq_refl)
      |discriminate H]
  end.

Ltac name_dirs disk form :=
  set (input_dir := resolve disk (of_str (str_or (in_var form) "."))) in *;
  set (output_dir := resolve disk (match out_var form with
                                   | EmptyString => joinpath (cwd disk) (of_str "audio_out")
                                   | s => of_str s
                                   end)) in *.

Lemma launched_inversion w disk form window queue log files args workers window' queue' log' :
  start w disk form window queue log
  = (Returned (Launched files args workers window' queue'), log') ->
  exists n,
    py_int (PyStr.strip (workers_var form)) = Some n /\ workers = Z.max 1 n
    /\ optional_int (PyStr.strip (sr_var form)) = Some (sample_rate args)
    /\ optional_int (PyStr.strip (br_var form)) = Some (bitrate_k args)
    /\ (if String.eqb (sel_mode_var form) "index"
        then exists idx, py_int (PyStr.strip (index_var form)) = Some idx
                         /\ stream_selector args = selector_by_index idx
        else stream_selector args
             = selector_by_language (str_or (PyStr.strip (lang_var form)) "eng"))
    /\ input_root args = resolve disk (of_str (str_or (in_var form) "."))
    /\ output_root args
       = resolve disk (match out_var form with
                       | EmptyString => joinpath (cwd disk) (of_str "audio_out")
                       | s => of_str s
                       end)
    /\ preserve_tree args = preserve_var form /\ mode args = mode_var form
    /\ loudnorm args = loud_var form /\ use_gpu args = gpu_var form
    /\ (exists o1 e1, popen w ["ffmpeg"; "-version"] = Returned (0, o1, e1))
    /\ (exists o2 e2, popen w ["ffprobe"; "-version"] = Returned (0, o2, e2))
    /\ path_exists disk (input_root args) = true
    /\ mkdir_p w (output_root args) = Returned tt
    /\ log' = log ++ [Spawn ["ffmpeg"; "-version"]; Spawn ["ffprobe"; "-version"];
                      Mkdir (output_root args)]
    /\ files = scan_files (entries_of disk (input_root args)) (input_root args)
                 (recursive_var form)
    /\ files <> []
    /\ window' = mkWidgets (log_widget window) (status_var window) (total files) 0
    /\ queue' = queue ++ [UiStatus ("Ditemukan " +:+ PyStr.str_of_int (total files)
                                    +:+ " file. Memulai...")].
Proof.
  intros H. start_cases H.
  - set (input_dir := resolve disk (of_str (str_or (in_var form) "."))) in *.
    set (output_dir := resolve disk (match out_var form with
                                     | EmptyString => joinpath (cwd disk) (of_str "audio_out")
                                     | s => of_str s
                                     end)) in *.
    destruct (String.eqb (sel_mode_var form) "index") eqn:Em;
      [destruct (py_int (PyStr.strip (index_var form))) as [idx|] eqn:Ei; [|discriminate]|].
    all: destruct (optional_int (PyStr.strip (sr_var form))) as [sr|] eqn:Esr;
      [|discriminate].
    all: destruct (optional_int (PyStr.strip (br_var form))) as [br|] eqn:Ebr;
      [|discriminate].
    all: destruct (py_int (PyStr.strip (workers_var form))) as [n|] eqn:Ew; [|discriminate].
    all: destruct (path_exists disk input_dir) eqn:Ex; cbn [negb] in H; [|discriminate].
    all: unfold mkdir_parents, mret, M_ret in H.
    all: destruct (mkdir_p w output_dir) as [[]|] eqn:Emk; cbv beta iota in H;
      [|discriminate].
    all: destruct (scan_files (entries_of disk input_dir) input_dir (recursive_var form))
           as [|f fs] eqn:Es; [discriminate|].
    all: injection H as <- <- <- <- <- <-; cbn [input_root output_root preserve_tree mode
           stream_selector loudnorm sample_rate bitrate_k use_gpu].
    all: exists n; rewrite <- ?app_assoc; repeat split; eauto; discriminate.
  - discriminate H.
Qed.

(** X22: numbers are taken as they are typed. When [start] starts a batch
    and a field holds the decimal numeral of an integer n (of at most 4300
    characters), that integer is what the batch gets: the stream selector
    [a:n] for the index, n itself for the sample rate and for the bitrate,
    whatever its sign or size, and [max(1, n)] workers, so that 0 and the
    negative numbers give one worker. An empty or blank sample rate or
    bitrate is an absent one, and a blank language is [eng]. *)
Theorem start_takes_numbers_as_typed
    w disk form window queue log files args workers window' queue' log' :
  start w disk form window queue log
  = (Returned (Launched files args workers window' queue'), log') ->
  (forall n,
     (String.length (PyStr.str_of_int n) <= max_str_digits)%nat ->
     (sel_mode_var form = "index" -> index_var form = PyStr.str_of_int n ->
      stream_selector args = selector_by_index n)
     /\ (workers_var form = PyStr.str_of_int n -> workers = Z.max 1 n)
     /\ (sr_var form = PyStr.str_of_int n -> sample_rate args = Some n)
     /\ (br_var form = PyStr.str_of_int n -> bitrate_k args = Some n))
  /\ (PyStr.strip (sr_var form) = EmptyString -> sample_rate args = None)
  /\ (PyStr.strip (br_var form) = EmptyString -> bitrate_k args = None)
  /\ (sel_mode_var form <> "index" -> PyStr.strip (lang_var form) = EmptyString ->
      stream_selector args = selector_by_language "eng").
Proof.
  intros H. apply launched_inversion in H.
  destruct H as (k & Hk & -> & Hsr & Hbr & Hsel & _).
  split; [|split; [|split]].
  - intros n Hn. destruct (py_int_strip_str_of_int n Hn) as (Hi & Ho).
    split; [|split; [|split]].
    + intros Hm Hx. rewrite Hm, Hx in Hsel.
      change (String.eqb "index" "index") with true in Hsel.
      destruct Hsel as (idx & Hidx & ->). congruence.
    + intros Hx. rewrite Hx in Hk. congruence.
    + intros Hx. rewrite Hx in Hsr. congruence.
    + intros Hx. rewrite Hx in Hbr. congruence.
  - intros Hx. rewrite Hx in Hsr. now injection Hsr as <-.
  - intros Hx. rewrite Hx in Hbr. now injection Hbr as <-.
  - intros Hm Hx. apply String.eqb_neq in Hm. rewrite Hm, Hx in Hsel. exact Hsel.
Qed.

(** The form of the window as it opens: the index 0 and three workers. *)
Lemma start_takes_numbers_as_typed_witness :
  let files := scan_files example_tree (of_str "/in") true in
  exists args workers window' queue' log',
    start quiet_world example_disk example_form example_window [] []
    = (Returned (Launched files args workers window' queue'), log')
    /\ stream_selector args = selector_by_index 0
    /\ workers = Z.max 1 3
    /\ sample_rate args = None.
Proof.
  intros files. eexists _, _, _, _, _. split; [vm_compute; reflexivity |].
  pose proof (start_takes_numbers_as_typed quiet_world example_disk example_form
                example_window [] [] files _ _ _ _ _
                ltac:(vm_compute; reflexivity)) as H.
  destruct H as (Hn & Hsr & _).
  split; [exact (proj1 (Hn 0 ltac:(vm_compute; lia)) eq_refl eq_refl) |].
  split; [exact (proj1 (proj2 (Hn 3 ltac:(vm_compute; lia))) eq_refl) |].
  exact (Hsr eq_refl).
Defined.

(** X23: what a launch guarantees. When [start] starts the thread of a
    batch, both tools have answered [-version] with exit code 0, the input
    directory exists, the output directory has been made, and these are the
    only system calls; the files are those of the scan and there is at least
    one; the worker count is at least 1, so the batch starts in its loop with
    every file pending and no error line; the progress bar stands at 0 of
    the number of files and the status [Ditemukan N file. Memulai...] is the
    last event on the queue. *)
Theorem start_launches_a_sound_batch
    w disk form window queue log files args workers window' queue' log' :
  start w disk form window queue log
  = (Returned (Launched files args workers window' queue'), log') ->
  (exists o1 e1, popen w ["ffmpeg"; "-version"] = Returned (0, o1, e1))
  /\ (exists o2 e2, popen w ["ffprobe"; "-version"] = Returned (0, o2, e2))
  /\ path_exists disk (input_root args) = true
  /\ mkdir_p w (output_root args) = Returned tt
  /\ log' = log ++ version_calls ++ [Mkdir (output_root args)]
  /\ files = scan_files (entries_of disk (input_root args)) (input_root args)
               (recursive_var form)
  /\ files <> []
  /\ 1 <= workers
  /\ init workers files = mkBatch false files [] [] 0 0 0 [] [] [] Looping
  /\ boot_events workers = []
  /\ window' = mkWidgets (log_widget window) (status_var window) (total files) 0
  /\ 1 <= progress_maximum window'
  /\ queue' = queue ++ [UiStatus ("Ditemukan " +:+ PyStr.str_of_int (total files)
                                  +:+ " file. Memulai...")].
Proof.
  intros H. apply launched_inversion in H.
  destruct H as (n & _ & -> & _ & _ & _ & _ & _ & _ & _ & _ & _ & H1 & H2 & Hex & Hmk
                 & -> & Hf & Hne & -> & ->).
  assert (Hw : (1 `max` n <=? 0) = false) by (apply Z.leb_gt; lia).
  repeat split; auto; try lia.
  - unfold init. now rewrite Hw.
  - unfold boot_events. now rewrite Hw.
  - simpl. unfold total. destruct files; [congruence | simpl; lia].
Qed.

(** The form of the window as it opens, the tools answering: three workers
    and the two videos of the tree. *)
Lemma start_launches_a_sound_batch_witness :
  let files := scan_files example_tree (of_str "/in") true in
  exists args workers window' queue' log',
    start quiet_world example_disk example_form example_window [] []
    = (Returned (Launched files args workers window' queue'), log')
    /\ workers = 3
    /\ files <> []
    /\ 1 <= workers
    /\ log' = [] ++ version_calls ++ [Mkdir (output_root args)]
    /\ init workers files = mkBatch false files [] [] 0 0 0 [] [] [] Looping.
Proof.
  intros files. eexists _, _, _, _, _. split; [vm_compute; reflexivity |].
  split; [reflexivity |].
  pose proof (start_launches_a_sound_batch quiet_world example_disk example_form
                example_window [] [] files _ _ _ _ _
                ltac:(vm_compute; reflexivity)) as H.
  destruct H as (_ & _ & _ & _ & Hlog & _ & Hne & Hw & Hinit & _).
  exact (conj Hne (conj Hw (conj Hlog Hinit))).
Defined.

(** What the other ways out of [start] tell. *)
Lemma start_inversion w disk form window queue log r log' :
  start w disk form window queue log = (Returned r, log') ->
  let input_dir := resolve disk (of_str (str_or (in_var form) ".")) in
  let output_dir := resolve disk (match out_var form with
                                  | EmptyString => joinpath (cwd disk) (of_str "audio_out")
                                  | s => of_str s
                                  end) in
  match r with
  | ErrorBox msg =>
      (exists tool c o e,
         popen w [tool; "-version"] = Returned (c, o, e) /\ c <> 0
         /\ msg = (tool +:+ " tidak ditemukan di PATH.") +:+ newline
                  +:+ "Install FFmpeg dan pastikan PATH benar."
         /\ ((tool = "ffmpeg" /\ log' = log ++ [Spawn ["ffmpeg"; "-version"]])
             \/ (tool = "ffprobe" /\ log' = log ++ version_calls)))
      \/ (log' = log ++ version_calls
          /\ ((msg = "Index audio harus angka." /\ sel_mode_var form = "index"
               /\ py_int (PyStr.strip (index_var form)) = None)
              \/ (msg = "Workers harus angka."
                  /\ py_int (PyStr.strip (workers_var form)) = None)
              \/ (msg = "Input folder tidak valid."
                  /\ path_exists disk input_dir = false)))
  | ValueErrorRaised literal =>
      log' = log ++ version_calls
      /\ literal <> EmptyString /\ py_int literal = None
      /\ (literal = PyStr.strip (sr_var form) \/ literal = PyStr.strip (br_var form))
  | InfoBox msg =>
      msg = "Tidak ada file video ditemukan."
      /\ scan_files (entries_of disk input_dir) input_dir (recursive_var form) = []
      /\ mkdir_p w output_dir = Returned tt
      /\ log' = log ++ version_calls ++ [Mkdir output_dir]
  | Launched _ _ _ _ _ => True
  end.
Proof.
  intros H. start_cases H.
  - name_dirs disk form. cbv zeta.
    destruct (String.eqb (sel_mode_var form) "index") eqn:Em;
      [apply String.eqb_eq in Em;
       destruct (py_int (PyStr.strip (index_var form))) as [idx|] eqn:Ei|].
    2: { unfold mret, M_ret in H. injection H as <- <-. right. auto 10. }
    all: destruct (optional_int (PyStr.strip (sr_var form))) as [sr|] eqn:Esr;
      [|apply optional_int_none in Esr as [? ?]; unfold mret, M_ret in H;
        injection H as <- <-; auto 10].
    all: destruct (optional_int (PyStr.strip (br_var form))) as [br|] eqn:Ebr;
      [|apply optional_int_none in Ebr as [? ?]; unfold mret, M_ret in H;
        injection H as <- <-; auto 10].
    all: destruct (py_int (PyStr.strip (workers_var form))) as [n|] eqn:Ew;
      [|unfold mret, M_ret in H; injection H as <- <-; right; auto 10].
    all: destruct (path_exists disk input_dir) eqn:Ex; cbn [negb] in H;
      [|unfold mret, M_ret in H; injection H as <- <-; right; auto 10].
    all: unfold mkdir_parents, mret, M_ret in H.
    all: destruct (mkdir_p w output_dir) as [[]|] eqn:Emk; cbv beta iota in H;
      [|discriminate].
    all: destruct (scan_files (entries_of disk input_dir) input_dir (recursive_var form))
           as [|f fs] eqn:Es; injection H as <- <-; rewrite <- ?app_assoc; auto.
  - unfold mret, M_ret in H. injection H as <- <-.
    destruct Hbad as (tool & c & o & e & Hp & Hc & -> & Hl). left.
    exists tool, c, o, e. repeat split; auto.
Qed.

(** X24: why [start] gives up. An error box names a tool that did start
    and did not exit with code 0, or an index or a worker count that is no
    number, or an input directory that does not exist; a sample rate or a
    bitrate that is neither empty nor a number gets no dialog: the
    [ValueError] of [int] leaves [start]. In all these cases nothing but the
    tool check has been run, and no directory has been made. The information
    box means that the scan found no video; by then the output directory
    has been made. *)
Theorem start_gives_up_for_a_reason w disk form window queue log r log' :
  start w disk form window queue log = (Returned r, log') ->
  let input_dir := resolve disk (of_str (str_or (in_var form) ".")) in
  let output_dir := resolve disk (match out_var form with
                                  | EmptyString => joinpath (cwd disk) (of_str "audio_out")
                                  | s => of_str s
                                  end) in
  match r with
  | ErrorBox msg =>
      (exists tool c o e,
         popen w [tool; "-version"] = Returned (c, o, e) /\ c <> 0
         /\ msg = (tool +:+ " tidak ditemukan di PATH.") +:+ newline
                  +:+ "Install FFmpeg dan pastikan PATH benar."
         /\ ((tool = "ffmpeg" /\ log' = log ++ [Spawn ["ffmpeg"; "-version"]])
             \/ (tool = "ffprobe" /\ log' = log ++ version_calls)))
      \/ (log' = log ++ version_calls
          /\ ((msg = "Index audio harus angka." /\ sel_mode_var form = "index"
               /\ py_int (PyStr.strip (index_var form)) = None)
              \/ (msg = "Workers harus angka."
                  /\ py_int (PyStr.strip (workers_var form)) = None)
              \/ (msg = "Input folder tidak valid."
                  /\ path_exists disk input_dir = false)))
  | ValueErrorRaised literal =>
      log' = log ++ version_calls
      /\ literal <> EmptyString /\ py_int literal = None
      /\ (literal = PyStr.strip (sr_var form) \/ literal = PyStr.strip (br_var form))
  | InfoBox msg =>
      msg = "Tidak ada file video ditemukan."
      /\ scan_files (entries_of disk input_dir) input_dir (recursive_var form) = []
      /\ mkdir_p w output_dir = Returned tt
      /\ log' = log ++ version_calls ++ [Mkdir output_dir]
  | Launched _ _ _ _ _ => True
  end.
Proof. apply start_inversion. Qed.

(** The sample rate [44.1k] in a world where the tools answer: no dialog,
    a [ValueError]. *)
Lemma start_gives_up_for_a_reason_witness :
  start quiet_world example_disk typo_form example_window [] []
  = (Returned (ValueErrorRaised "44.1k"), version_calls)
  /\ py_int "44.1k" = None
  /\ ("44.1k" = PyStr.strip (sr_var typo_form) \/ "44.1k" = PyStr.strip (br_var typo_form)).
Proof.
  assert (H : start quiet_world example_disk typo_form example_window [] []
              = (Returned (ValueErrorRaised "44.1k"), version_calls))
    by (vm_compute; reflexivity).
  split; [exact H |].
  exact (proj2 (proj2 (start_gives_up_for_a_reason quiet_world example_disk typo_form
                         example_window [] [] _ _ H))).
Defined.

Lemma log_lines_app q1 q2 : log_lines (q1 ++ q2) = log_lines q1 ++ log_lines q2.
Proof. apply omap_app. Qed.

Lemma log_lines_render tot rs : log_lines (render tot rs) = map result_line rs.
Proof.
  induction rs as [|r rs IH] using rev_ind; [reflexivity|].
  now rewrite render_snoc, log_lines_app, IH, map_app.
Qed.

(** X25: from Start to the end. When [start] has started a batch and the
    batch runs to its end without Cancel, every file of the scan has been
    handed out exactly once, and reading the queue shows it: the progress
    bar is full at N of N, the status is [Selesai. OK: a, Gagal: b] with
    a + b = N, and the log has grown by the lines that were waiting, one line
    for each result in the order they were handed out, and [== Selesai ==]. *)
Theorem start_to_finish
    w disk form window queue log files args workers window' queue' log' cs st :
  start w disk form window queue log
  = (Returned (Launched files args workers window' queue'), log') ->
  _run_batch args workers files cs = Some st ->
  no_cancel cs = true ->
  phase st = Finished ->
  let shown := (_after_poll (queue' ++ ui_queue st) window').2 in
  map src_of (delivered st)
    ≡ₚ scan_files (entries_of disk (input_root args)) (input_root args) (recursive_var form)
  /\ ok_count st + fail_count st = total files
  /\ progress_value shown = total files
  /\ progress_maximum shown = total files
  /\ status_var shown
     = "Selesai. OK: " +:+ PyStr.str_of_int (ok_count st)
       +:+ ", Gagal: " +:+ PyStr.str_of_int (fail_count st)
  /\ log_widget shown
     = log_widget window
       +:+ shown_text (log_lines queue ++ map result_line (delivered st)
                         ++ ["== Selesai =="]).
Proof.
  intros H Hrun Hn Hph shown.
  apply launched_inversion in H.
  destruct H as (n & _ & -> & _ & _ & _ & _ & _ & _ & _ & _ & _ & _ & _ & _ & _
                 & _ & Hf & Hne & -> & ->).
  assert (Hw : 0 < 1 `max` n) by lia.
  destruct (undisturbed_exec args (1 `max` n) files cs _ _
              (consistent_init (1 `max` n) files)
              (undisturbed_init (1 `max` n) files Hw) Hn Hrun) as (Hc & Hu).
  pose proof (each_file_once _ _ Hu) as Hp. rewrite Hph in Hp.
  assert (Hd : delivered st <> []).
  { intros E. rewrite E in Hp. apply Permutation_nil in Hp. congruence. }
  pose proof (poll_after_batch args (1 `max` n) files cs st
                (queue ++ [UiStatus ("Ditemukan " +:+ PyStr.str_of_int (total files)
                                     +:+ " file. Memulai...")])
                (mkWidgets (log_widget window) (status_var window) (total files) 0)
                Hrun Hn Hd) as Hpoll.
  cbv zeta in Hpoll. fold shown in Hpoll.
  destruct Hpoll as (Hv & Hm & _ & Hs & Hfull). rewrite Hph in Hs.
  pose proof (after_poll_spec
                ((queue ++ [UiStatus ("Ditemukan " +:+ PyStr.str_of_int (total files)
                                      +:+ " file. Memulai...")]) ++ ui_queue st)
                (mkWidgets (log_widget window) (status_var window) (total files) 0))
    as Hspec.
  cbv zeta in Hspec. fold shown in Hspec. destruct Hspec as (_ & Hl & _).
  destruct (reported_run args (1 `max` n) files cs st Hrun) as (_ & _ & tail & Hq & Ht).
  rewrite Hph in Ht. destruct Ht as (b & -> & Hb).
  rewrite (Hb (not_stopped _ _ Hu)) in Hq.
  split; [rewrite <- Hf; exact Hp |]. split.
  { rewrite <- (done_split _ _ Hc). rewrite (done_count _ _ Hc).
    apply Permutation_length in Hp. rewrite length_map in Hp. unfold total. lia. }
  split; [rewrite (Hfull Hph); exact Hm |]. split; [exact Hm |].
  split; [exact Hs |].
  rewrite Hl. cbn [log_widget]. f_equal. f_equal.
  rewrite !log_lines_app, Hq, !log_lines_app, log_lines_render.
  unfold boot_events. replace (1 `max` n <=? 0) with false by (symmetry; apply Z.leb_gt; lia).
  cbn. now rewrite app_nil_r.
Qed.

(** The form of the window as it opens, in a world where the tools answer
    and every program exits with code 0: two videos, both done. *)
Lemma start_to_finish_witness :
  let files := scan_files example_tree (of_str "/in") true in
  exists args workers window' queue' log' st,
    start quiet_world example_disk example_form example_window [] []
    = (Returned (Launched files args workers window' queue'), log')
    /\ _run_batch args workers files (sequential files quiet_world) = Some st
    /\ total files = 2
    /\ let shown := (_after_poll (queue' ++ ui_queue st) window').2 in
       map src_of (delivered st)
         ≡ₚ scan_files (entries_of example_disk (input_root args)) (input_root args)
              (recursive_var example_form)
       /\ ok_count st + fail_count st = total files
       /\ progress_value shown = total files
       /\ progress_maximum shown = total files
       /\ status_var shown
          = "Selesai. OK: " +:+ PyStr.str_of_int (ok_count st)
            +:+ ", Gagal: " +:+ PyStr.str_of_int (fail_count st)
       /\ log_widget shown
          = log_widget example_window
            +:+ shown_text (log_lines [] ++ map result_line (delivered st)
                              ++ ["== Selesai =="]).
Proof.
  intros files. eexists _, _, _, _, _, _. split; [vm_compute; reflexivity |].
  split; [vm_compute; reflexivity |]. split; [reflexivity |].
  eapply (start_to_finish quiet_world example_disk example_form example_window [] []
            files _ _ _ _ _ (sequential files quiet_world));
    [vm_compute; reflexivity | vm_compute; reflexivity | vm_compute; reflexivity
    | reflexivity].
Defined.

(** ** The preset *)

(** X26: the worker count of the preset. [DEFAULT_WORKERS] is at least 2
    and is half the number of processors when there are 4 or more. The
    preset writes the numeral of [DEFAULT_WORKERS] brought into the range 4
    to 6 into the field, which [int] reads back as that number: it is
    [DEFAULT_WORKERS] exactly when that lies between 4 and 6, and it is 4,
    more than [DEFAULT_WORKERS], on a machine with fewer than 8 processors
    (or an unknown number). Applying the preset twice is applying it once,
    but for the status put on the queue again; the two directories, the
    language and the choice about the tree are left as they were. *)
Theorem preset_workers cpu_count f q :
  let f' := (apply_preset_music_gpu cpu_count f q).1 in
  let target := Z.min 6 (Z.max 4 (DEFAULT_WORKERS cpu_count)) in
  2 <= DEFAULT_WORKERS cpu_count
  /\ (forall n, cpu_count = Some n -> 4 <= n -> DEFAULT_WORKERS cpu_count = n / 2)
  /\ workers_var f' = PyStr.str_of_int target
  /\ py_int (PyStr.strip (workers_var f')) = Some target
  /\ 4 <= target <= 6
  /\ (target = DEFAULT_WORKERS cpu_count <-> 4 <= DEFAULT_WORKERS cpu_count <= 6)
  /\ (DEFAULT_WORKERS cpu_count < target
      <-> match truthy cpu_count with Some n => n < 8 | None => True end)
  /\ (apply_preset_music_gpu cpu_count f' (apply_preset_music_gpu cpu_count f q).2).1 = f'
  /\ (in_var f', out_var f', lang_var f', preserve_var f')
     = (in_var f, out_var f, lang_var f, preserve_var f).
Proof.
  intros f' target. subst f'. cbn [apply_preset_music_gpu fst snd workers_var in_var
    out_var lang_var preserve_var].
  fold target.
  assert (Hd : 2 <= DEFAULT_WORKERS cpu_count) by (unfold DEFAULT_WORKERS; lia).
  assert (Ht : 4 <= target <= 6) by (subst target; lia).
  split; [exact Hd |]. split.
  { intros n -> Hn. unfold DEFAULT_WORKERS, truthy.
    replace (n =? 0) with false by (symmetry; apply Z.eqb_neq; lia).
    assert (2 <= n / 2) by (apply Z.div_le_lower_bound; lia). lia. }
  split; [reflexivity |]. split.
  { assert (Hc : target = 4 \/ target = 5 \/ target = 6) by lia.
    destruct Hc as [-> | [-> | ->]]; reflexivity. }
  split; [exact Ht |]. split; [subst target; lia |]. split; [|split; reflexivity].
  clear Hd Ht. subst target. unfold DEFAULT_WORKERS, truthy.
  destruct cpu_count as [n|]; [destruct (Z.eqb_spec n 0) as [->|Hn]|].
  - split; [trivial | intros _; reflexivity].
  - assert (Hq : n / 2 < 4 <-> n < 8).
    { split; intros H.
      - destruct (Z.lt_ge_cases n 8) as [|H8]; [assumption|].
        assert (4 <= n / 2) by (apply Z.div_le_lower_bound; lia). lia.
      - apply Z.div_lt_upper_bound; lia. }
    lia.
  - split; [trivial | intros _; reflexivity].
Qed.

(** X27: the preset passes the checks of [start]. With the form the preset
    leaves, [start] never complains about the index or the worker count and
    never fails on the sample rate or the bitrate; when it starts a batch,
    the batch is in mode MP3 on the first audio stream, normalised, at
    44100 Hz and 320 kbps with the GPU, on the files of the input directory
    itself (no recursion), with 4 to 6 workers, and the command of each file
    is [ffmpeg -y -hwaccel cuda -i src -vn -sn -dn -map 0:a:0 -c:a libmp3lame
    -b:a 320k -ar 44100 -af loudnorm=I=-16:TP=-1.5:LRA=11 dst]. *)
Theorem preset_passes_the_checks cpu_count w disk form window queue q log r log' :
  start w disk (apply_preset_music_gpu cpu_count form q).1 window queue log
  = (Returned r, log') ->
  match r with
  | Launched files args workers _ _ =>
      mode args = "MP3" /\ stream_selector args = "a:0" /\ loudnorm args = true
      /\ sample_rate args = Some 44100 /\ bitrate_k args = Some 320
      /\ use_gpu args = true /\ preserve_tree args = preserve_var form
      /\ workers = Z.min 6 (Z.max 4 (DEFAULT_WORKERS cpu_count))
      /\ 4 <= workers <= 6
      /\ files = scan_files (entries_of disk (input_root args)) (input_root args) false
      /\ (forall src dst,
            build_ffmpeg_cmd src dst (mode args) (stream_selector args) (loudnorm args)
              (sample_rate args) (bitrate_k args) (use_gpu args)
            = ["ffmpeg"; "-y"; "-hwaccel"; "cuda"; "-i"; path_str src;
               "-vn"; "-sn"; "-dn"; "-map"; "0:a:0"; "-c:a"; "libmp3lame";
               "-b:a"; "320k"; "-ar"; "44100";
               "-af"; "loudnorm=I=-16:TP=-1.5:LRA=11"; path_str dst])
  | ValueErrorRaised _ => False
  | ErrorBox msg => msg <> "Index audio harus angka." /\ msg <> "Workers harus angka."
  | InfoBox _ => True
  end.
Proof.
  set (target := Z.min 6 (Z.max 4 (DEFAULT_WORKERS cpu_count))).
  assert (Ht : target = 4 \/ target = 5 \/ target = 6) by (subst target; lia).
  assert (Hw : py_int (PyStr.strip (PyStr.str_of_int target)) = Some target)
    by (destruct Ht as [-> | [-> | ->]]; reflexivity).
  intros H. destruct r as [msg|msg|literal|files args workers window' queue'].
  - apply start_inversion in H. cbv zeta in H.
    cbn [apply_preset_music_gpu fst index_var workers_var sel_mode_var] in H.
    fold target in H.
    destruct H as [(tool & c & o & e & _ & _ & -> & [[-> _]|[-> _]])
                  |(_ & [(_ & _ & Hi)|[(_ & Hk)|(-> & _)]])].
    all: try (split; intros E; vm_compute in E; discriminate E).
    + vm_compute in Hi. discriminate.
    + rewrite Hw in Hk. discriminate.
  - trivial.
  - apply start_inversion in H.
    cbn [apply_preset_music_gpu fst sr_var br_var] in H.
    destruct H as (_ & _ & Hn & [-> | ->]); vm_compute in Hn; discriminate.
  - apply launched_inversion in H.
    cbn [apply_preset_music_gpu fst index_var workers_var sel_mode_var sr_var br_var
         mode_var loud_var gpu_var preserve_var recursive_var] in H.
    fold target in H.
    destruct H as (n & Hn & -> & Hsr & Hbr & Hsel & _ & _ & -> & Hm & Hl & Hg
                   & _ & _ & _ & _ & _ & Hf & _).
    rewrite Hw in Hn. injection Hn as <-.
    change (String.eqb "index" "index") with true in Hsel.
    destruct Hsel as (idx & Hidx & Hsel).
    change (py_int (PyStr.strip "0")) with (Some 0) in Hidx. injection Hidx as <-.
    change (optional_int (PyStr.strip "44100")) with (Some (Some 44100)) in Hsr.
    change (optional_int (PyStr.strip "320")) with (Some (Some 320)) in Hbr.
    injection Hsr as <-. injection Hbr as <-.
    rewrite Hm, Hl, Hg, Hsel.
    replace (1 `max` target) with target by lia.
    repeat split; auto; try lia.
Qed.

(** The preset on a machine with sixteen processors, the tools answering:
    six workers, and the one video of the input directory itself. *)
Lemma preset_passes_the_checks_witness :
  exists files args workers window' queue' log',
    start quiet_world example_disk (apply_preset_music_gpu (Some 16) example_form []).1
      example_window [] []
    = (Returned (Launched files args workers window' queue'), log')
    /\ workers = 6
    /\ files = [of_str "/in/a.mp4"]
    /\ mode args = "MP3" /\ stream_selector args = "a:0" /\ loudnorm args = true
    /\ sample_rate args = Some 44100 /\ bitrate_k args = Some 320
    /\ use_gpu args = true
    /\ build_ffmpeg_cmd (of_str "/in/a.mp4") (of_str "/out/a.mp3") (mode args)
         (stream_selector args) (loudnorm args) (sample_rate args) (bitrate_k args)
         (use_gpu args)
       = ["ffmpeg"; "-y"; "-hwaccel"; "cuda"; "-i"; "/in/a.mp4";
          "-vn"; "-sn"; "-dn"; "-map"; "0:a:0"; "-c:a"; "libmp3lame";
          "-b:a"; "320k"; "-ar"; "44100";
          "-af"; "loudnorm=I=-16:TP=-1.5:LRA=11"; "/out/a.mp3"].
Proof.
  eexists _, _, _, _, _, _. split; [vm_compute; reflexivity |].
  split; [reflexivity |]. split; [reflexivity |].
  pose proof (preset_passes_the_checks (Some 16) quiet_world example_disk example_form
                example_window [] [] [] (Launched _ _ _ _ _) _
                ltac:(vm_compute; reflexivity)) as H.
  cbv beta iota in H.
  destruct H as (Hm & Hs & Hl & Hsr & Hbr & Hg & _ & _ & _ & _ & Hcmd).
  repeat (split; [assumption |]).
  exact (Hcmd (of_str "/in/a.mp4") (of_str "/out/a.mp3")).
Defined.

(** ** Bundled resources *)

Section ResourceFacts.

Variable exists_ : string -> bool.
Variable fname : string.

Lemma first_existing_found candidates : forall before b after,
  omap nonempty candidates = before ++ b :: after ->
  Forall (missing exists_ fname) before ->
  exists_ (path_join b fname) = true ->
  first_existing exists_ fname candidates = Some (path_join b fname).
Proof.
  induction candidates as [|base rest IH]; intros before b after Hc Hb He.
  - destruct before; discriminate.
  - cbn [first_existing]. cbn [omap list_omap] in Hc.
    destruct (nonempty base) as [b0|]; [|eauto].
    destruct before as [|b1 before]; simpl in Hc; injection Hc as -> Hc.
    + now rewrite He.
    + inversion Hb as [|? ? Hm Hb']; subst. unfold missing in Hm. rewrite Hm. eauto.
Qed.

Lemma first_existing_none candidates :
  first_existing exists_ fname candidates = None
  <-> Forall (missing exists_ fname) (omap nonempty candidates).
Proof.
  induction candidates as [|base rest IH]; [split; [constructor | reflexivity]|].
  cbn [first_existing omap list_omap].
  destruct (nonempty base) as [b0|]; [|exact IH].
  destruct (exists_ (path_join b0 fname)) eqn:E.
  - split; [discriminate|]. intros H. inversion H as [|? ? Hm]; subst.
    unfold missing in Hm. congruence.
  - rewrite IH. split; [now constructor | intros H; now inversion H].
Qed.

Lemma first_existing_some candidates p :
  first_existing exists_ fname candidates = Some p ->
  exists_ p = true /\ exists b, p = path_join b fname.
Proof.
  induction candidates as [|base rest IH]; [discriminate|].
  cbn [first_existing]. destruct (nonempty base) as [b0|]; [|exact IH].
  destruct (exists_ (path_join b0 fname)) eqn:E; [|exact IH].
  intros [= <-]. eauto.
Qed.

End ResourceFacts.

(** X28: where a resource is looked for. Of the directories that are there
    and not empty, in the order frozen executable, Nuitka, PyInstaller,
    module, [resource_path] returns the file in the first one in which it
    exists; if it exists in none of them, the path in the directory of the
    module, existing or not. So a path returned that does not exist means
    that the file is in none of the directories. An absolute file name is
    returned as it is. *)
Theorem resource_path_finds_the_first frozen_dir nuitka_dir meipass here exists_ fname :
  let bases := omap nonempty [frozen_dir; nuitka_dir; meipass; Some here] in
  let r := resource_path frozen_dir nuitka_dir meipass here exists_ fname in
  (forall before b after,
     bases = before ++ b :: after ->
     Forall (missing exists_ fname) before ->
     exists_ (path_join b fname) = true ->
     r = path_join b fname)
  /\ (Forall (missing exists_ fname) bases ->
      r = path_join here fname)
  /\ (exists_ r = false ->
      Forall (missing exists_ fname) bases)
  /\ (forall rest, fname = String "/" rest -> r = fname).
Proof.
  intros bases r. subst bases r. unfold resource_path. repeat split.
  - intros before b after Hc Hb He.
    now rewrite (first_existing_found exists_ fname _ before b after Hc Hb He).
  - intros H. apply first_existing_none in H. now rewrite H.
  - destruct (first_existing exists_ fname [frozen_dir; nuitka_dir; meipass; Some here])
      as [p|] eqn:E.
    + apply first_existing_some in E as [E _]. congruence.
    + intros _. now apply first_existing_none.
  - intros rest ->.
    destruct (first_existing exists_ (String "/" rest)
                [frozen_dir; nuitka_dir; meipass; Some here]) as [p|] eqn:E;
      [|reflexivity].
    apply first_existing_some in E as [_ [b ->]]. reflexivity.
Qed.

(** ** No file twice *)

Lemma NoDup_map_fst_filter {A B} (f : A * B -> bool) (l : list (A * B)) :
  NoDup (map fst l) -> NoDup (map fst (List.filter f l)).
Proof.
  induction l as [|x l IH]; [trivial|]. simpl. intros H.
  apply NoDup_cons in H as [Hx Hl]. destruct (f x); simpl; [|auto].
  apply NoDup_cons. split; [|auto].
  intros Hin. apply Hx. apply list_elem_of_In. apply list_elem_of_In in Hin.
  apply in_map_iff in Hin as (y & Hy & Hin). apply filter_In in Hin as [Hin _].
  apply in_map_iff. eauto.
Qed.

Lemma file_under_inj dir dirs1 nm1 dirs2 nm2 :
  file_under dir dirs1 nm1 = file_under dir dirs2 nm2 -> dirs1 = dirs2 /\ nm1 = nm2.
Proof.
  unfold file_under. intros [= H]. apply app_inv_head in H.
  apply app_inj_tail in H. exact H.
Qed.

Lemma in_below_paths dir n p :
  In p (map fst (below dir n)) ->
  exists dirs x, p = file_under dir (node_name n :: dirs) x.
Proof.
  intros H. apply in_map_iff in H as ([q m] & <- & H).
  apply in_below in H as (nm & sub & dirs & -> & _ & ->). simpl. eauto.
Qed.

Lemma NoDup_rglob_star entries :
  distinct_names entries -> forall dir, NoDup (map fst (rglob_star dir entries)).
Proof.
  induction 1 as [entries Hnames _ IH]. intros dir.
  unfold rglob_star. rewrite map_app. apply NoDup_app. split; [|split].
  - unfold glob_star. rewrite map_map. cbn [fst].
    clear IH. induction entries as [|n entries IHe]; [constructor|].
    simpl in *. apply NoDup_cons in Hnames as [Hn Hrest].
    apply NoDup_cons. split; [|auto].
    intros Hin. apply Hn. apply list_elem_of_In. apply list_elem_of_In in Hin.
    apply in_map_iff in Hin as (m & Hm & Hin). apply in_map_iff. exists m.
    split; [|assumption]. unfold make_child in Hm. injection Hm as Hm.
    now apply app_inj_tail in Hm as [_ ?].
  - intros p Hp Hq. apply list_elem_of_In in Hp, Hq.
    unfold glob_star in Hp. rewrite map_map in Hp. cbn [fst] in Hp.
    apply in_map_iff in Hp as (n & <- & _).
    apply in_map_iff in Hq as ([q m] & Hq & Hin). simpl in Hq. subst q.
    apply in_flat_map in Hin as (c & _ & Hin).
    apply in_below in Hin as (nm & sub & dirs & _ & _ & E).
    change (make_child dir (node_name n)) with (file_under dir [] (node_name n)) in E.
    apply file_under_inj in E as [[=] _].
  - induction entries as [|c entries IHe]; [constructor|].
    simpl in Hnames. apply NoDup_cons in Hnames as [Hc Hrest].
    cbn [flat_map]. rewrite map_app. apply NoDup_app. split; [|split].
    + destruct c as [nm|nm|nm sub]; [constructor | constructor |].
      apply (IH nm sub). now left.
    + intros p Hp Hq. apply list_elem_of_In in Hp, Hq.
      apply in_below_paths in Hp as (dirs & x & ->).
      apply in_map_iff in Hq as ([q m] & Hq & Hin). simpl in Hq. subst q.
      apply in_flat_map in Hin as (c' & Hc' & Hin).
      apply in_below in Hin as (nm & sub & dirs' & -> & _ & E).
      apply file_under_inj in E as [[= E _] _].
      apply Hc. apply list_elem_of_In. apply in_map_iff.
      exists (Dir nm sub). split; [now symmetry | assumption].
    + apply IHe; [assumption|]. intros nm sub Hin. apply (IH nm sub). now right.
Qed.

(** X29: no file twice. In a tree in which no directory holds two entries
    of the same name, [scan_files] returns no path twice, recursive or not:
    no video is submitted to a batch, probed or converted twice. *)
Theorem scan_files_lists_no_file_twice entries input_dir recursive :
  distinct_names entries -> NoDup (scan_files entries input_dir recursive).
Proof.
  intros H. pose proof (NoDup_rglob_star entries H input_dir) as Hr.
  unfold scan_files. destruct recursive; apply NoDup_map_fst_filter; [exact Hr|].
  unfold rglob_star in Hr. rewrite map_app in Hr. now apply NoDup_app in Hr as [? _].
Qed.

Lemma example_tree_distinct_names : distinct_names example_tree.
Proof.
  constructor.
  - apply (bool_decide_unpack _). vm_compute. exact I.
  - intros nm sub [H|[H|[H|[H|[]]]]]; try discriminate H. injection H as <- <-.
    constructor.
    + apply (bool_decide_unpack _). vm_compute. exact I.
    + intros nm' sub' [H|[H|[]]]; discriminate H.
Qed.

(** The tree of the examples. *)
Lemma scan_files_lists_no_file_twice_witness :
  distinct_names example_tree
  /\ NoDup (scan_files example_tree (of_str "/in") true).
Proof.
  split; [exact example_tree_distinct_names |].
  exact (scan_files_lists_no_file_twice example_tree (of_str "/in") true
           example_tree_distinct_names).
Defined.

